(** * messengerKo backend: models, REST routes and socket gateway

    A shallow embedding of the Mongoose models ([User], [Admin],
    [Conversation], [Message]), of the REST handlers that create
    conversations and edit, delete and read messages, and of the
    socket.io gateway of [socket/socketHandlers.js].

    Conventions.
    - An ObjectId is a natural number; a [Date] is its millisecond value.
    - A collection is the list of its documents in natural (insertion)
      order; [findOne] returns the first match.
    - A query is data, as in the source: a list of (path, condition)
      pairs interpreted over the BSON form of a document.
    - [Date.now()] / [new Date()] is the [now] argument of an operation.
    - A character is an [ascii]; [String.length] stands for the
      JavaScript length of a string. *)

From stdpp Require Import gmap strings list fin_maps sorting pretty.

Set Warnings "-register-all".

Local Open Scope Z_scope.
Local Open Scope string_scope.
Local Open Scope list_scope.

Abbreviation ObjectId := nat.
Abbreviation Date := Z.
Abbreviation SocketId := string.

(* ===================================================================== *)
(** * Documents and queries *)
(* ===================================================================== *)

Module Mongo.

Inductive Value :=
| VNull
| VBool (b : bool)
| VNum (n : Z)
| VStr (s : string)
| VId (i : ObjectId)
| VDate (d : Date)
| VArr (vs : list Value)
| VObj (fields : list (string * Value)).

Abbreviation Doc := (list (string * Value)).

Fixpoint value_eqb (a b : Value) {struct a} : bool :=
  match a, b with
  | VNull, VNull => true
  | VBool x, VBool y => Bool.eqb x y
  | VNum x, VNum y => (x =? y)%Z
  | VStr x, VStr y => String.eqb x y
  | VId x, VId y => Nat.eqb x y
  | VDate x, VDate y => (x =? y)%Z
  | VArr xs, VArr ys =>
      (fix go (xs ys : list Value) {struct xs} : bool :=
         match xs, ys with
         | [], [] => true
         | x :: xs', y :: ys' => value_eqb x y && go xs' ys'
         | _, _ => false
         end) xs ys
  | VObj xs, VObj ys =>
      (fix go (xs ys : list (string * Value)) {struct xs} : bool :=
         match xs, ys with
         | [], [] => true
         | (k, x) :: xs', (k', y) :: ys' =>
             String.eqb k k' && value_eqb x y && go xs' ys'
         | _, _ => false
         end) xs ys
  | _, _ => false
  end.

Arguments value_eqb !a !b.

(** [obj.k] *)
Fixpoint get_field (k : string) (d : list (string * Value)) : option Value :=
  match d with
  | [] => None
  | (k', v) :: d' => if String.eqb k k' then Some v else get_field k d'
  end.

(** [delete obj.k] *)
Fixpoint delete_field (k : string) (d : list (string * Value))
  : list (string * Value) :=
  match d with
  | [] => []
  | (k', v) :: d' =>
      if String.eqb k k' then delete_field k d' else (k', v) :: delete_field k d'
  end.

(** [obj.k = v]: overwrite in place, or append a new key. *)
Fixpoint set_field (k : string) (v : Value) (d : list (string * Value))
  : list (string * Value) :=
  match d with
  | [] => [(k, v)]
  | (k', v') :: d' =>
      if String.eqb k k' then (k', v) :: d' else (k', v') :: set_field k v d'
  end.

Definition keys (d : list (string * Value)) : list string := d.*1.

(** Values reached by a dotted path; an array met on the way is
    traversed element by element, as MongoDB does for ['readBy.user']. *)
Fixpoint resolve (path : list string) (v : Value) : list Value :=
  match path with
  | [] => [v]
  | k :: rest =>
      match v with
      | VObj fs => from_option (resolve rest) [] (get_field k fs)
      | VArr vs =>
          flat_map (fun e =>
                      match e with
                      | VObj fs => from_option (resolve rest) [] (get_field k fs)
                      | _ => []
                      end) vs
      | _ => []
      end
  end.

(** One candidate value against an operand: equal to it, or an array
    holding it. *)
Definition holds_value (x v : Value) : bool :=
  value_eqb v x ||
  match v with
  | VArr vs => existsb (value_eqb x) vs
  | _ => false
  end.

(** [{ path: x }]; a [null] operand also matches a missing path. *)
Definition cond_eq (x : Value) (cands : list Value) : bool :=
  existsb (holds_value x) cands ||
  match x, cands with
  | VNull, [] => true
  | _, _ => false
  end.

Inductive Cond :=
| Eq (v : Value)                  (* { path: v } *)
| Ne (v : Value)                  (* { path: { $ne: v } } *)
| In (vs : list Value)            (* { path: { $in: vs } } *)
| All (vs : list Value)           (* { path: { $all: vs } } *)
| Size (n : nat).                 (* { path: { $size: n } } *)

Definition eval_cond (c : Cond) (cands : list Value) : bool :=
  match c with
  | Eq v => cond_eq v cands
  | Ne v => negb (cond_eq v cands)
  | In vs => existsb (fun v => cond_eq v cands) vs
  | All vs => forallb (fun v => cond_eq v cands) vs
  | Size n =>
      existsb (fun v => match v with
                        | VArr vs => Nat.eqb (length vs) n
                        | _ => false
                        end) cands
  end.

Abbreviation Query := (list (list string * Cond)).

Definition matches (q : list (list string * Cond)) (d : list (string * Value))
  : bool :=
  forallb (fun pc => eval_cond pc.2 (resolve pc.1 (VObj d))) q.

(** A Mongoose model: documents of type [T] with their BSON form. *)
Class Model (T : Type) := {
  to_doc : T -> list (string * Value);
  doc_id : T -> ObjectId
}.

Section Collection.
Context {T : Type} `{Model T}.

Definition selects (q : list (list string * Cond)) (x : T) : bool :=
  matches q (to_doc x).

Definition find (q : list (list string * Cond)) (coll : list T) : list T :=
  List.filter (selects q) coll.

Definition findOne (q : list (list string * Cond)) (coll : list T) : option T :=
  List.find (selects q) coll.

Definition countDocuments (q : list (list string * Cond)) (coll : list T) : nat :=
  length (find q coll).

Definition deleteMany (q : list (list string * Cond)) (coll : list T) : list T :=
  List.filter (fun x => negb (selects q x)) coll.

Definition findById (i : ObjectId) (coll : list T) : option T :=
  List.find (fun x => Nat.eqb (doc_id x) i) coll.

(** Write a document back under its [_id]. *)
Definition replace (x : T) (coll : list T) : list T :=
  (fun y => if Nat.eqb (doc_id y) (doc_id x) then x else y) <$> coll.
End Collection.

Definition opt_value {A} (f : A -> Value) (o : option A) : Value :=
  from_option f VNull o.

End Mongo.

Import Mongo.

(* ===================================================================== *)
(** * Strings: [String.prototype.trim] *)
(* ===================================================================== *)

(** White space among the characters an [ascii] can hold: tab to carriage
    return, space and no-break space. *)
Definition is_space (c : Ascii.ascii) : bool :=
  let n := Ascii.nat_of_ascii c in
  Nat.eqb n 32 || (Nat.leb 9 n && Nat.leb n 13) || Nat.eqb n 160.

Fixpoint trimStart (s : string) : string :=
  match s with
  | EmptyString => EmptyString
  | String c r => if is_space c then trimStart r else s
  end.

Fixpoint trimEnd (s : string) : string :=
  match s with
  | EmptyString => EmptyString
  | String c r =>
      match trimEnd r with
      | EmptyString => if is_space c then EmptyString else String c EmptyString
      | r' => String c r'
      end
  end.

Definition trim (s : string) : string := trimEnd (trimStart s).

Definition str_len (s : string) : nat := String.length s.

(** A string with no white space in front. *)
Definition no_lead (s : string) : Prop :=
  match s with
  | EmptyString => True
  | String c _ => is_space c = false
  end.

(** [String.prototype.toLowerCase] on the characters an [ascii] can hold:
    the letters A to Z, and the capital letters of Latin-1 (the
    multiplication sign among them is no letter). *)
Definition lower (c : Ascii.ascii) : Ascii.ascii :=
  let n := Ascii.nat_of_ascii c in
  if (Nat.leb 65 n && Nat.leb n 90) ||
     (Nat.leb 192 n && Nat.leb n 222 && negb (Nat.eqb n 215))
  then Ascii.ascii_of_nat (n + 32)
  else c.

Fixpoint toLowerCase (s : string) : string :=
  match s with
  | EmptyString => EmptyString
  | String c r => String (lower c) (toLowerCase r)
  end.

(* ===================================================================== *)
(** * models/User.js *)
(* ===================================================================== *)

Module User.

Record t := mk {
  _id : ObjectId;
  username : string;
  email : string;
  password : string;
  avatar : string;
  isOnline : bool;
  lastSeen : Date;
  socketId : option SocketId;
  isActive : bool;
  createdAt : Date;
  updatedAt : Date;
  __v : nat
}.

Definition toObject (u : t) : list (string * Value) :=
  [ ("_id", VId (_id u));
    ("username", VStr (username u));
    ("email", VStr (email u));
    ("password", VStr (password u));
    ("avatar", VStr (avatar u));
    ("isOnline", VBool (isOnline u));
    ("lastSeen", VDate (lastSeen u));
    ("socketId", opt_value VStr (socketId u));
    ("isActive", VBool (isActive u));
    ("createdAt", VDate (createdAt u));
    ("updatedAt", VDate (updatedAt u));
    ("__v", VNum (Z.of_nat (__v u))) ].

#[global] Instance model : Model t := {| to_doc := toObject; doc_id := _id |}.

(** [userSchema.methods.setOnlineStatus]: the assignments made to the
    document, before [this.save()]. *)
Definition setOnlineStatus (now : Date) (online : bool)
    (sock : option SocketId) (u : t) : t :=
  mk (_id u) (username u) (email u) (password u) (avatar u)
     online
     (if online then lastSeen u else now)
     sock
     (isActive u) (createdAt u) (updatedAt u) (__v u).

(** [userSchema.methods.deactivate], before [this.save()]. *)
Definition deactivate (u : t) : t :=
  mk (_id u) (username u) (email u) (password u) (avatar u)
     false (lastSeen u) None false (createdAt u) (updatedAt u) (__v u).

(** [userSchema.methods.toJSON] *)
Definition toJSON (u : t) : list (string * Value) :=
  let user := toObject u in
  let user := delete_field "password" user in
  let user := delete_field "socketId" user in
  let user := delete_field "__v" user in
  user.

Definition with_secrets (pw : string) (sock : option SocketId) (u : t) : t :=
  mk (_id u) (username u) (email u) pw (avatar u) (isOnline u) (lastSeen u)
     sock (isActive u) (createdAt u) (updatedAt u) (__v u).

(** [populate(path, 'username email avatar')] and the like: the selected
    fields of the referenced user, with its [_id]. *)
Definition select (fields : list string) (u : t) : list (string * Value) :=
  List.filter (fun kv => String.eqb kv.1 "_id" || existsb (String.eqb kv.1) fields)
              (toObject u).

End User.

(* ===================================================================== *)
(** * models/Admin.js *)
(* ===================================================================== *)

Module Admin.

Record t := mk {
  _id : ObjectId;
  username : string;
  email : string;
  password : string;
  firstName : string;
  lastName : string;
  avatar : string;
  role : string;
  permissions : list string;
  isActive : bool;
  lastLogin : option Date;
  loginAttempts : nat;
  lockUntil : option Date;
  createdBy : option ObjectId;
  twoFactorEnabled : bool;
  twoFactorSecret : option string;
  createdAt : Date;
  updatedAt : Date;
  __v : nat
}.

(** virtual [fullName] *)
Definition fullName (a : t) : string := firstName a +:+ " " +:+ lastName a.

(** virtual [isLocked]: [!!(this.lockUntil && this.lockUntil > Date.now())] *)
Definition isLocked (now : Date) (a : t) : bool :=
  match lockUntil a with
  | Some l => bool_decide (now < l)
  | None => false
  end.

(** [this.toObject({ virtuals: true })] *)
Definition toObject (now : Date) (a : t) : list (string * Value) :=
  [ ("_id", VId (_id a));
    ("username", VStr (username a));
    ("email", VStr (email a));
    ("password", VStr (password a));
    ("firstName", VStr (firstName a));
    ("lastName", VStr (lastName a));
    ("avatar", VStr (avatar a));
    ("role", VStr (role a));
    ("permissions", VArr (VStr <$> permissions a));
    ("isActive", VBool (isActive a));
    ("lastLogin", opt_value VDate (lastLogin a));
    ("loginAttempts", VNum (Z.of_nat (loginAttempts a)));
    ("lockUntil", opt_value VDate (lockUntil a));
    ("createdBy", opt_value VId (createdBy a));
    ("twoFactorEnabled", VBool (twoFactorEnabled a));
    ("twoFactorSecret", opt_value VStr (twoFactorSecret a));
    ("createdAt", VDate (createdAt a));
    ("updatedAt", VDate (updatedAt a));
    ("__v", VNum (Z.of_nat (__v a)));
    ("fullName", VStr (fullName a));
    ("isLocked", VBool (isLocked now a));
    ("id", VId (_id a)) ].

(** [adminSchema.methods.toJSON] *)
Definition toJSON (now : Date) (a : t) : list (string * Value) :=
  let admin := toObject now a in
  let admin := delete_field "password" admin in
  let admin := delete_field "twoFactorSecret" admin in
  let admin := delete_field "__v" admin in
  admin.

Definition with_secrets (pw : string) (secret : option string) (a : t) : t :=
  mk (_id a) (username a) (email a) pw (firstName a) (lastName a) (avatar a)
     (role a) (permissions a) (isActive a) (lastLogin a) (loginAttempts a)
     (lockUntil a) (createdBy a) (twoFactorEnabled a) secret
     (createdAt a) (updatedAt a) (__v a).

(** The document as stored: the paths of the schema, without virtuals. *)
Definition toBSON (a : t) : list (string * Value) :=
  [ ("_id", VId (_id a));
    ("username", VStr (username a));
    ("email", VStr (email a));
    ("password", VStr (password a));
    ("firstName", VStr (firstName a));
    ("lastName", VStr (lastName a));
    ("avatar", VStr (avatar a));
    ("role", VStr (role a));
    ("permissions", VArr (VStr <$> permissions a));
    ("isActive", VBool (isActive a));
    ("lastLogin", opt_value VDate (lastLogin a));
    ("loginAttempts", VNum (Z.of_nat (loginAttempts a)));
    ("lockUntil", opt_value VDate (lockUntil a));
    ("createdBy", opt_value VId (createdBy a));
    ("twoFactorEnabled", VBool (twoFactorEnabled a));
    ("twoFactorSecret", opt_value VStr (twoFactorSecret a));
    ("createdAt", VDate (createdAt a));
    ("updatedAt", VDate (updatedAt a));
    ("__v", VNum (Z.of_nat (__v a))) ].

#[global] Instance model : Model t := {| to_doc := toBSON; doc_id := _id |}.

Definition set_lastLogin (l : option Date) (a : t) : t :=
  mk (_id a) (username a) (email a) (password a) (firstName a) (lastName a)
     (avatar a) (role a) (permissions a) (isActive a) l (loginAttempts a)
     (lockUntil a) (createdBy a) (twoFactorEnabled a) (twoFactorSecret a)
     (createdAt a) (updatedAt a) (__v a).

Definition set_loginAttempts (n : nat) (a : t) : t :=
  mk (_id a) (username a) (email a) (password a) (firstName a) (lastName a)
     (avatar a) (role a) (permissions a) (isActive a) (lastLogin a) n
     (lockUntil a) (createdBy a) (twoFactorEnabled a) (twoFactorSecret a)
     (createdAt a) (updatedAt a) (__v a).

Definition set_lockUntil (l : option Date) (a : t) : t :=
  mk (_id a) (username a) (email a) (password a) (firstName a) (lastName a)
     (avatar a) (role a) (permissions a) (isActive a) (lastLogin a)
     (loginAttempts a) l (createdBy a) (twoFactorEnabled a) (twoFactorSecret a)
     (createdAt a) (updatedAt a) (__v a).

Definition set_updatedAt (d : Date) (a : t) : t :=
  mk (_id a) (username a) (email a) (password a) (firstName a) (lastName a)
     (avatar a) (role a) (permissions a) (isActive a) (lastLogin a)
     (loginAttempts a) (lockUntil a) (createdBy a) (twoFactorEnabled a)
     (twoFactorSecret a) (createdAt a) d (__v a).

(** [2 * 60 * 60 * 1000] *)
Definition lockTime : Z := 2 * 60 * 60 * 1000.

(** [adminSchema.methods.incLoginAttempts]: the stored document once the
    [updateOne] the method issues is applied. A path that is [$unset]
    reads as its schema default. *)
Definition incLoginAttempts (now : Date) (a : t) : t :=
  if match lockUntil a with
     | Some l => bool_decide (l < now)
     | None => false
     end
  then set_updatedAt now (set_loginAttempts 1 (set_lockUntil None a))
  else
    let updated := set_loginAttempts (loginAttempts a + 1) a in
    let updated :=
      if Nat.leb 5 (loginAttempts a + 1) && negb (isLocked now a)
      then set_lockUntil (Some (now + lockTime)) updated
      else updated in
    set_updatedAt now updated.

(** [adminSchema.methods.resetLoginAttempts], likewise. *)
Definition resetLoginAttempts (now : Date) (a : t) : t :=
  set_updatedAt now
    (set_lastLogin (Some now) (set_lockUntil None (set_loginAttempts 0 a))).

(** [adminSchema.statics.findByEmailOrUsername]: the [$or] of two filters.
    The operands go through the setters of their paths ([lowercase] and
    [trim] for [email], [trim] for [username]) when the query is cast. *)
Definition findByEmailOrUsername (identifier : string) (coll : list t) : option t :=
  List.find
    (fun a =>
       selects [ (["email"], Eq (VStr (toLowerCase (trim (toLowerCase identifier))))) ] a
       || selects [ (["username"], Eq (VStr (trim identifier))) ] a)
    coll.

End Admin.

(* ===================================================================== *)
(** * models/Conversation.js *)
(* ===================================================================== *)

Module Conversation.

Record t := mk {
  _id : ObjectId;
  participants : list ObjectId;
  type : string;
  name : option string;
  description : option string;
  avatar : option string;
  lastMessage : option ObjectId;
  lastActivity : Date;
  createdBy : ObjectId;
  isActive : bool;
  createdAt : Date;
  updatedAt : Date;
  __v : nat
}.

Definition toObject (c : t) : list (string * Value) :=
  [ ("_id", VId (_id c));
    ("participants", VArr (VId <$> participants c));
    ("type", VStr (type c));
    ("name", opt_value VStr (name c));
    ("description", opt_value VStr (description c));
    ("avatar", opt_value VStr (avatar c));
    ("lastMessage", opt_value VId (lastMessage c));
    ("lastActivity", VDate (lastActivity c));
    ("createdBy", VId (createdBy c));
    ("isActive", VBool (isActive c));
    ("createdAt", VDate (createdAt c));
    ("updatedAt", VDate (updatedAt c));
    ("__v", VNum (Z.of_nat (__v c))) ].

#[global] Instance model : Model t := {| to_doc := toObject; doc_id := _id |}.

Definition set_participants (ps : list ObjectId) (c : t) : t :=
  mk (_id c) ps (type c) (name c) (description c) (avatar c) (lastMessage c)
     (lastActivity c) (createdBy c) (isActive c) (createdAt c) (updatedAt c) (__v c).

Definition set_isActive (b : bool) (c : t) : t :=
  mk (_id c) (participants c) (type c) (name c) (description c) (avatar c)
     (lastMessage c) (lastActivity c) (createdBy c) b (createdAt c) (updatedAt c)
     (__v c).

Definition set_lastActivity (d : Date) (c : t) : t :=
  mk (_id c) (participants c) (type c) (name c) (description c) (avatar c)
     (lastMessage c) d (createdBy c) (isActive c) (createdAt c) (updatedAt c)
     (__v c).

Definition set_lastMessage (m : option ObjectId) (c : t) : t :=
  mk (_id c) (participants c) (type c) (name c) (description c) (avatar c)
     m (lastActivity c) (createdBy c) (isActive c) (createdAt c) (updatedAt c)
     (__v c).

Definition set_updatedAt (d : Date) (c : t) : t :=
  mk (_id c) (participants c) (type c) (name c) (description c) (avatar c)
     (lastMessage c) (lastActivity c) (createdBy c) (isActive c) (createdAt c) d
     (__v c).

(** The schema validators: the [enum] of [type] and the two [maxlength]s. *)
Definition validate (c : t) : option string :=
  if negb (existsb (String.eqb (type c)) ["direct"; "group"])
  then Some "type is not a valid enum value"
  else if from_option (fun s => Nat.ltb 100 (str_len s)) false (name c)
  then Some "Conversation name cannot exceed 100 characters"
  else if from_option (fun s => Nat.ltb 500 (str_len s)) false (description c)
  then Some "Description cannot exceed 500 characters"
  else None.

(** [conversationSchema.pre('save', ...)] *)
Definition pre_save (c : t) : option string :=
  if String.eqb (type c) "direct" && negb (Nat.eqb (length (participants c)) 2)
  then Some "Direct conversations must have exactly 2 participants"
  else if String.eqb (type c) "group" && Nat.ltb (length (participants c)) 2
  then Some "Group conversations must have at least 2 participants"
  else None.

(** What [save()] rejects with: validation first, then the hook. *)
Definition save_error (c : t) : option string :=
  match validate c with
  | Some e => Some e
  | None => pre_save c
  end.

(** [new Conversation({ participants, type, name, description, createdBy })]
    with the schema defaults and the [trim] setters. *)
Definition new (id : ObjectId) (now : Date) (ps : list ObjectId) (ty : string)
    (nm descr : option string) (creator : ObjectId) : t :=
  mk id ps ty (trim <$> nm) (trim <$> descr) None None now creator true now now 0.

(** The query of [findDirectConversation]. *)
Definition directQuery (userId1 userId2 : ObjectId) : list (list string * Cond) :=
  [ (["type"], Eq (VStr "direct"));
    (["participants"], All [VId userId1; VId userId2]) ].

Definition findDirectConversation (userId1 userId2 : ObjectId)
    (coll : list t) : option t :=
  findOne (directQuery userId1 userId2) coll.

(** [{ _id: conversationId, participants: userId }] *)
Definition memberQuery (conversationId userId : ObjectId)
  : list (list string * Cond) :=
  [ (["_id"], Eq (VId conversationId));
    (["participants"], Eq (VId userId)) ].

(** [addParticipant], before [this.save()]; [None] when nothing is saved. *)
Definition addParticipant (userId : ObjectId) (c : t) : option t :=
  if existsb (Nat.eqb userId) (participants c) then None
  else Some (set_participants (participants c ++ [userId]) c).

(** [removeParticipant], before [this.save()]. *)
Definition removeParticipant (userId : ObjectId) (c : t) : t :=
  let c := set_participants
             (List.filter (fun p => negb (Nat.eqb p userId)) (participants c)) c in
  if Nat.eqb (length (participants c)) 0 then set_isActive false c else c.

(** [updateLastActivity], before [this.save()]. *)
Definition updateLastActivity (now : Date) (messageId : option ObjectId)
    (c : t) : t :=
  let c := set_lastActivity now c in
  match messageId with
  | Some m => set_lastMessage (Some m) c
  | None => c
  end.

(** The invariant the hook states: direct has exactly two participants,
    group at least two. *)
Definition participants_ok (c : t) : Prop :=
  (type c = "direct" -> length (participants c) = 2%nat) /\
  (type c = "group" -> (2 <= length (participants c))%nat).

Definition set_name (nm : option string) (c : t) : t :=
  mk (_id c) (participants c) (type c) nm (description c) (avatar c)
     (lastMessage c) (lastActivity c) (createdBy c) (isActive c) (createdAt c)
     (updatedAt c) (__v c).

Definition set_description (ds : option string) (c : t) : t :=
  mk (_id c) (participants c) (type c) (name c) ds (avatar c)
     (lastMessage c) (lastActivity c) (createdBy c) (isActive c) (createdAt c)
     (updatedAt c) (__v c).

(** The filter of [findUserConversations]. *)
Definition userQuery (userId : ObjectId) : list (list string * Cond) :=
  [ (["participants"], Eq (VId userId));
    (["isActive"], Eq (VBool true)) ].

(** [.sort({ lastActivity: -1 })]: latest activity first. *)
Fixpoint insert_by_activity (c : t) (l : list t) : list t :=
  match l with
  | [] => [c]
  | x :: l' =>
      if bool_decide (lastActivity x <= lastActivity c) then c :: l
      else x :: insert_by_activity c l'
  end.

Fixpoint sort_by_activity (l : list t) : list t :=
  match l with
  | [] => []
  | c :: l' => insert_by_activity c (sort_by_activity l')
  end.

(** [conversationSchema.statics.findUserConversations] *)
Definition findUserConversations (userId : ObjectId) (coll : list t) : list t :=
  sort_by_activity (find (userQuery userId) coll).

End Conversation.

(* ===================================================================== *)
(** * models/Message.js *)
(* ===================================================================== *)

Module Message.

Record ReadReceipt := mkReceipt { user : ObjectId; readAt : Date }.

Record t := mk {
  _id : ObjectId;
  conversation : ObjectId;
  sender : ObjectId;
  content : string;
  type : string;
  fileUrl : option string;
  fileName : option string;
  fileSize : option Z;
  readBy : list ReadReceipt;
  editedAt : option Date;
  isEdited : bool;
  isDeleted : bool;
  deletedAt : option Date;
  replyTo : option ObjectId;
  createdAt : Date;
  updatedAt : Date;
  __v : nat
}.

Definition receipt_doc (r : ReadReceipt) : Value :=
  VObj [ ("user", VId (user r)); ("readAt", VDate (readAt r)) ].

Definition toObject (m : t) : list (string * Value) :=
  [ ("_id", VId (_id m));
    ("conversation", VId (conversation m));
    ("sender", VId (sender m));
    ("content", VStr (content m));
    ("type", VStr (type m));
    ("fileUrl", opt_value VStr (fileUrl m));
    ("fileName", opt_value VStr (fileName m));
    ("fileSize", opt_value VNum (fileSize m));
    ("readBy", VArr (receipt_doc <$> readBy m));
    ("editedAt", opt_value VDate (editedAt m));
    ("isEdited", VBool (isEdited m));
    ("isDeleted", VBool (isDeleted m));
    ("deletedAt", opt_value VDate (deletedAt m));
    ("replyTo", opt_value VId (replyTo m));
    ("createdAt", VDate (createdAt m));
    ("updatedAt", VDate (updatedAt m));
    ("__v", VNum (Z.of_nat (__v m))) ].

#[global] Instance model : Model t := {| to_doc := toObject; doc_id := _id |}.

Definition set_readBy (rs : list ReadReceipt) (m : t) : t :=
  mk (_id m) (conversation m) (sender m) (content m) (type m) (fileUrl m)
     (fileName m) (fileSize m) rs (editedAt m) (isEdited m) (isDeleted m)
     (deletedAt m) (replyTo m) (createdAt m) (updatedAt m) (__v m).

Definition set_updatedAt (d : Date) (m : t) : t :=
  mk (_id m) (conversation m) (sender m) (content m) (type m) (fileUrl m)
     (fileName m) (fileSize m) (readBy m) (editedAt m) (isEdited m) (isDeleted m)
     (deletedAt m) (replyTo m) (createdAt m) d (__v m).

Definition set_content (text : string) (m : t) : t :=
  mk (_id m) (conversation m) (sender m) text (type m) (fileUrl m)
     (fileName m) (fileSize m) (readBy m) (editedAt m) (isEdited m) (isDeleted m)
     (deletedAt m) (replyTo m) (createdAt m) (updatedAt m) (__v m).

Definition placeholder : string := "This message was deleted".

(** The schema validators of a message. *)
Definition validate (m : t) : option string :=
  if Nat.eqb (str_len (content m)) 0
  then Some "Message content is required"
  else if Nat.ltb 2000 (str_len (content m))
  then Some "Message cannot exceed 2000 characters"
  else if negb (existsb (String.eqb (type m)) ["text"; "image"; "file"; "system"])
  then Some "type is not a valid enum value"
  else None.

(** [new Message({ conversation, sender, content, type, replyTo })] with the
    schema defaults and the [trim] setter of [content]. *)
Definition new (id : ObjectId) (now : Date) (conv snd : ObjectId)
    (text ty : string) (reply : option ObjectId) : t :=
  mk id conv snd (trim text) ty None None None [] None false false None reply
     now now 0.

(** virtual [isReadBy] *)
Definition isReadBy (m : t) (userId : ObjectId) : bool :=
  existsb (fun read => Nat.eqb (user read) userId) (readBy m).

(** [markAsRead], before [this.save()]; [None] when the reader is already
    recorded and the method resolves without saving. *)
Definition markAsRead (now : Date) (userId : ObjectId) (m : t) : option t :=
  let alreadyRead := existsb (fun read => Nat.eqb (user read) userId) (readBy m) in
  if negb alreadyRead
  then Some (set_readBy (readBy m ++ [mkReceipt userId now]) m)
  else None.

(** [editContent], before [this.save()]. *)
Definition editContent (now : Date) (newContent : string) (m : t) : t :=
  mk (_id m) (conversation m) (sender m) (trim newContent) (type m) (fileUrl m)
     (fileName m) (fileSize m) (readBy m) (Some now) true (isDeleted m)
     (deletedAt m) (replyTo m) (createdAt m) (updatedAt m) (__v m).

(** [softDelete], before [this.save()]. *)
Definition softDelete (now : Date) (m : t) : t :=
  mk (_id m) (conversation m) (sender m) placeholder (type m) (fileUrl m)
     (fileName m) (fileSize m) (readBy m) (editedAt m) (isEdited m) true
     (Some now) (replyTo m) (createdAt m) (updatedAt m) (__v m).

(** The body of [messageSchema.methods.toJSON], on the object [message]
    that [this.toObject()] gave. *)
Definition render (message : list (string * Value)) : list (string * Value) :=
  let message :=
    match get_field "isDeleted" message with
    | Some (VBool true) =>
        delete_field "fileSize"
          (delete_field "fileName"
             (delete_field "fileUrl"
                (set_field "content" (VStr placeholder) message)))
    | _ => message
    end in
  delete_field "__v" message.

(** [messageSchema.methods.toJSON] *)
Definition toJSON (m : t) : list (string * Value) := render (toObject m).

(** [populate(path, 'content sender')]: the selected fields, with [_id]. *)
Definition select (fields : list string) (m : t) : list (string * Value) :=
  List.filter (fun kv => String.eqb kv.1 "_id" || existsb (String.eqb kv.1) fields)
              (toObject m).

(** The query of [getUnreadCount]. *)
Definition unreadQuery (conversationId userId : ObjectId)
  : list (list string * Cond) :=
  [ (["conversation"], Eq (VId conversationId));
    (["sender"], Ne (VId userId));
    (["readBy"; "user"], Ne (VId userId));
    (["isDeleted"], Eq (VBool false)) ].

Definition getUnreadCount (conversationId userId : ObjectId)
    (coll : list t) : nat :=
  countDocuments (unreadQuery conversationId userId) coll.

(** The filter of [getConversationMessages]. *)
Definition listingQuery (conversationId : ObjectId) : list (list string * Cond) :=
  [ (["conversation"], Eq (VId conversationId));
    (["isDeleted"], Eq (VBool false)) ].

(** [{ _id: id, sender: userId, isDeleted: false }] of the edit and delete
    routes. *)
Definition ownQuery (id userId : ObjectId) : list (list string * Cond) :=
  [ (["_id"], Eq (VId id));
    (["sender"], Eq (VId userId));
    (["isDeleted"], Eq (VBool false)) ].

(** [.sort({ createdAt: -1 })]: newest first, insertion order among equal
    dates. *)
Fixpoint insert_desc (m : t) (l : list t) : list t :=
  match l with
  | [] => [m]
  | x :: l' =>
      if bool_decide (createdAt x <= createdAt m) then m :: l
      else x :: insert_desc m l'
  end.

Fixpoint sort_desc (l : list t) : list t :=
  match l with
  | [] => []
  | m :: l' => insert_desc m (sort_desc l')
  end.

(** [.limit(n)]: a limit of zero is no limit, and a negative one is sent
    by the driver as its absolute value. *)
Definition limit_to {A} (n : Z) (l : list A) : list A :=
  if (n =? 0)%Z then l else take (Z.abs_nat n) l.

(** [getConversationMessages], for the integers [page] and [limit]. The
    server refuses a negative [skip], and the query rejects. *)
Definition getConversationMessages (conversationId : ObjectId)
    (page limit : Z) (coll : list t) : string + list t :=
  let skip := (page - 1) * limit in
  if (skip <? 0)%Z then inl "Skip value must be non-negative"
  else inr (limit_to limit
              (drop (Z.to_nat skip)
                    (sort_desc (find (listingQuery conversationId) coll)))).

End Message.

(* ===================================================================== *)
(** * The store, and handlers as state-and-exception computations *)
(* ===================================================================== *)

Record DB := mkDB {
  users : list User.t;
  conversations : list Conversation.t;
  messages : list Message.t;
  nextId : ObjectId
}.

Definition set_users (us : list User.t) (d : DB) : DB :=
  mkDB us (conversations d) (messages d) (nextId d).
Definition set_conversations (cs : list Conversation.t) (d : DB) : DB :=
  mkDB (users d) cs (messages d) (nextId d).
Definition set_messages (ms : list Message.t) (d : DB) : DB :=
  mkDB (users d) (conversations d) ms (nextId d).
Definition set_nextId (n : ObjectId) (d : DB) : DB :=
  mkDB (users d) (conversations d) (messages d) n.

(** An [async] body over a state [S]: every [await] may throw, and what
    was written before the throw stays written. *)
Definition M (S A : Type) : Type := S -> S * (string + A).

Definition ret {S A} (a : A) : M S A := fun s => (s, inr a).

Definition bind {S A B} (m : M S A) (k : A -> M S B) : M S B :=
  fun s =>
    match m s with
    | (s', inr a) => k a s'
    | (s', inl e) => (s', inl e)
    end.

Definition throw {S A} (e : string) : M S A := fun s => (s, inl e).

Definition try_catch {S A} (m : M S A) (handler : string -> M S A) : M S A :=
  fun s =>
    match m s with
    | (s', inl e) => handler e s'
    | r => r
    end.

Definition get {S} : M S S := fun s => (s, inr s).
Definition modify {S} (f : S -> S) : M S unit := fun s => (f s, inr tt).

Notation "'let*' x ':=' m 'in' k" := (bind m (fun x => k))
  (at level 10, x pattern, m at level 100, k at level 200).
Notation "m ';;' k" := (bind m (fun _ => k))
  (at level 100, k at level 200).

(** Run a store computation inside a larger state. *)
Definition lift {S} (proj : S -> DB) (inj : DB -> S -> S) {A} (m : M DB A)
  : M S A :=
  fun s => let '(d, r) := m (proj s) in (inj d s, r).

Definition exec {S A} (m : M S A) (s : S) : S := (m s).1.
Definition result {S A} (m : M S A) (s : S) : string + A := (m s).2.

(** What a computation returns when it does not throw. *)
Definition answer {S A} (m : M S A) (s : S) : option A :=
  match result m s with
  | inr a => Some a
  | inl _ => None
  end.

(** [new mongoose.Types.ObjectId()] *)
Definition fresh : M DB ObjectId :=
  fun d => (set_nextId (S (nextId d)) d, inr (nextId d)).

(** Insert a new document or overwrite the stored one of the same [_id]. *)
Definition upsert {T} `{Model T} (x : T) (coll : list T) : list T :=
  if existsb (fun y => Nat.eqb (doc_id y) (doc_id x)) coll
  then replace x coll
  else coll ++ [x].

(** [conversation.save()] *)
Definition save_conversation (now : Date) (c : Conversation.t)
  : M DB Conversation.t :=
  match Conversation.save_error c with
  | Some e => throw e
  | None =>
      let c := Conversation.set_updatedAt now c in
      modify (fun d => set_conversations (upsert c (conversations d)) d) ;;
      ret c
  end.

(** [message.save()] *)
Definition save_message (now : Date) (m : Message.t) : M DB Message.t :=
  match Message.validate m with
  | Some e => throw e
  | None =>
      let m := Message.set_updatedAt now m in
      modify (fun d => set_messages (upsert m (messages d)) d) ;;
      ret m
  end.

(** A JSON response: status, message and the document it carries. *)
Record Response (A : Type) := respond {
  status : nat;
  message : string;
  data : option A
}.
Arguments respond {A} _ _ _.
Arguments status {A} _.
Arguments message {A} _.
Arguments data {A} _.

(* ===================================================================== *)
(** * middleware/validation.js *)
(* ===================================================================== *)

Module Validation.

(** [validateConversation]: a non-empty [participants] array, an optional
    [type] among the two kinds, an optional [name] of at most 100
    characters once trimmed. *)
Definition validateConversation (participants : list ObjectId)
    (type name : option string) : bool :=
  Nat.leb 1 (length participants) &&
  from_option (fun ty => existsb (String.eqb ty) ["direct"; "group"]) true type &&
  from_option (fun nm => Nat.leb (str_len (trim nm)) 100) true name.

(** [validateMessage]: [content] is trimmed and must then hold 1 to 2000
    characters, an optional [type] is one of the three kinds a client may
    send. The result is the sanitised content, or [None] for the 400 of
    [handleValidationErrors]. *)
Definition validateMessage (content type : option string) : option string :=
  let content := trim (default "" content) in
  if Nat.leb 1 (str_len content) && Nat.leb (str_len content) 2000 &&
     from_option (fun ty => existsb (String.eqb ty) ["text"; "image"; "file"])
                 true type
  then Some content
  else None.

End Validation.

(* ===================================================================== *)
(** * routes/conversations.js *)
(* ===================================================================== *)

Module Conversations.

(** [[...new Set(xs)]]: first occurrences, in order. *)
Fixpoint set_from (seen xs : list ObjectId) : list ObjectId :=
  match xs with
  | [] => []
  | x :: xs' =>
      if existsb (Nat.eqb x) seen then set_from seen xs'
      else x :: set_from (x :: seen) xs'
  end.

Definition new_Set (xs : list ObjectId) : list ObjectId := set_from [] xs.

(** [{ _id: { $in: ids } }] *)
Definition idsQuery (ids : list ObjectId) : list (list string * Cond) :=
  [ (["_id"], In (VId <$> ids)) ].

(** [POST /api/conversations] for the authenticated user [me]. *)
Definition create (now : Date) (me : ObjectId) (participants : list ObjectId)
    (type name description : option string) : M DB (Response Conversation.t) :=
  if negb (Validation.validateConversation participants type name)
  then ret (respond 400 "Validation failed" None)
  else
    try_catch
      (let type := default "direct" type in
       let name := trim <$> name in
       let allParticipants := new_Set (participants ++ [me]) in
       let* existingConversation :=
         match allParticipants with
         | [p0; p1] =>
             if String.eqb type "direct"
             then let* d := get in
                  ret (Conversation.findDirectConversation p0 p1 (conversations d))
             else ret None
         | _ => ret None
         end in
       match existingConversation with
       | Some c => ret (respond 200 "Conversation already exists" (Some c))
       | None =>
           let* d := get in
           let validParticipants := find (idsQuery allParticipants) (users d) in
           if negb (Nat.eqb (length validParticipants) (length allParticipants))
           then ret (respond 400 "One or more participants not found" None)
           else
             let* id := fresh in
             let conversation :=
               Conversation.new id now allParticipants type name description me in
             let* conversation := save_conversation now conversation in
             ret (respond 201 "Conversation created successfully"
                          (Some conversation))
       end)
      (fun _ => ret (respond 500 "Server error creating conversation" None)).

(** [DELETE /api/conversations/:id]: the caller leaves the conversation. *)
Definition leave (now : Date) (me id : ObjectId) : M DB (Response unit) :=
  try_catch
    (let* d := get in
     match findOne (Conversation.memberQuery id me) (conversations d) with
     | None => ret (respond 404 "Conversation not found" None)
     | Some conversation =>
         save_conversation now (Conversation.removeParticipant me conversation) ;;
         ret (respond 200 "Left conversation successfully" None)
     end)
    (fun _ => ret (respond 500 "Server error leaving conversation" None)).

(** [POST /api/conversations/:id/participants] *)
Definition addParticipant (now : Date) (me id userId : ObjectId)
  : M DB (Response Conversation.t) :=
  try_catch
    (let* d := get in
     match findOne (Conversation.memberQuery id me) (conversations d) with
     | None => ret (respond 404 "Conversation not found" None)
     | Some conversation =>
         match findById userId (users d) with
         | None => ret (respond 404 "User not found" None)
         | Some _ =>
             let* conversation :=
               match Conversation.addParticipant userId conversation with
               | Some c => save_conversation now c
               | None => ret conversation
               end in
             ret (respond 200 "Participant added successfully" (Some conversation))
         end
     end)
    (fun _ => ret (respond 500 "Server error adding participant" None)).

(** [GET /api/conversations]: the caller's conversations, each with its
    unread count. *)
Definition list_conversations (me : ObjectId)
  : M DB (Response (list (Conversation.t * nat))) :=
  try_catch
    (let* d := get in
     let conversations := Conversation.findUserConversations me (conversations d) in
     let conversationsWithUnread :=
       (fun conversation =>
          (conversation,
           Message.getUnreadCount (Conversation._id conversation) me (messages d)))
         <$> conversations in
     ret (respond 200 "" (Some conversationsWithUnread)))
    (fun _ => ret (respond 500 "Server error getting conversations" None)).

(** [PUT /api/conversations/:id]. A field of the body is [None] when it is
    [undefined], [Some None] when it is [null]; an assigned string goes
    through the [trim] setter of its path. *)
Definition update (now : Date) (me id : ObjectId)
    (name description : option (option string)) : M DB (Response Conversation.t) :=
  try_catch
    (let* d := get in
     match findOne (Conversation.memberQuery id me) (conversations d) with
     | None => ret (respond 404 "Conversation not found" None)
     | Some conversation =>
         let conversation :=
           match name with
           | Some name => Conversation.set_name (trim <$> name) conversation
           | None => conversation
           end in
         let conversation :=
           match description with
           | Some description =>
               Conversation.set_description (trim <$> description) conversation
           | None => conversation
           end in
         let* conversation := save_conversation now conversation in
         ret (respond 200 "Conversation updated successfully" (Some conversation))
     end)
    (fun _ => ret (respond 500 "Server error updating conversation" None)).

End Conversations.

(* ===================================================================== *)
(** * routes/groupMembers.js *)
(* ===================================================================== *)

Module GroupMembers.

(** [{ _id: { $in: userIds }, isActive: true }] *)
Definition activeQuery (userIds : list ObjectId) : list (list string * Cond) :=
  [ (["_id"], In (VId <$> userIds)); (["isActive"], Eq (VBool true)) ].

(** [populate('participants', ...)] on the conversation that was read: the
    array holds the documents of the participants that still have an
    account, in order; an id without account is dropped from it. These are
    the ids of that array. *)
Definition populated (d : DB) (c : Conversation.t) : list ObjectId :=
  List.filter (fun p => bool_decide (is_Some (findById p (users d))))
              (Conversation.participants c).

(** [conversation.save()] after [participants.push(...)] on the populated
    array: the validators and the hook see the document in memory,
    [conversation]; the update is the [$push] of the new ids with the other
    modified paths, and leaves the stored document as [written]. *)
Definition save_pushed (now : Date) (conversation written : Conversation.t)
  : M DB unit :=
  match Conversation.save_error conversation with
  | Some e => throw e
  | None =>
      modify (fun d =>
        set_conversations
          (upsert (Conversation.set_updatedAt now written) (conversations d)) d)
  end.

(** The [for] loop that pushes the users who are not members yet. *)
Fixpoint push_new (usersToAdd : list User.t) (c : Conversation.t)
  : Conversation.t * list User.t :=
  match usersToAdd with
  | [] => (c, [])
  | user :: rest =>
      if existsb (Nat.eqb (User._id user)) (Conversation.participants c)
      then push_new rest c
      else
        let c := Conversation.set_participants
                   (Conversation.participants c ++ [User._id user]) c in
        let '(c', added) := push_new rest c in
        (c', user :: added)
  end.

Fixpoint join_names (us : list User.t) : string :=
  match us with
  | [] => ""
  | [u] => User.username u
  | u :: rest => User.username u +:+ ", " +:+ join_names rest
  end.

(** [POST /api/conversations/:id/members]. The answer carries the number
    of users added. *)
Definition addMembers (now : Date) (me id : ObjectId) (userIds : list ObjectId)
  : M DB (Response nat) :=
  try_catch
    (if Nat.eqb (length userIds) 0
     then ret (respond 400 "User IDs array is required" None)
     else
       let* d := get in
       match findById id (conversations d) with
       | None => ret (respond 404 "Conversation not found" None)
       | Some stored =>
           (* populate('createdBy'): a creator that no longer exists is null *)
           match findById (Conversation.createdBy stored) (users d) with
           | None => throw "Cannot read properties of null"
           | Some creator =>
               let conversation :=
                 Conversation.set_participants (populated d stored) stored in
               let isParticipant :=
                 existsb (Nat.eqb me) (Conversation.participants conversation) in
               let isCreator := Nat.eqb (User._id creator) me in
               if negb isParticipant && negb isCreator
               then ret (respond 403
                   "You are not authorized to add members to this conversation" None)
               else if negb (String.eqb (Conversation.type conversation) "group")
               then ret (respond 400
                   "This operation is only allowed for group conversations" None)
               else
                 let usersToAdd := find (activeQuery userIds) (users d) in
                 if negb (Nat.eqb (length usersToAdd) (length userIds))
                 then ret (respond 400 "One or more users not found or inactive" None)
                 else
                   let '(conversation, addedUsers) := push_new usersToAdd conversation in
                   (if Nat.ltb 0 (length addedUsers)
                    then
                      let written :=
                        Conversation.set_participants
                          (Conversation.participants stored
                             ++ (User._id <$> addedUsers)) stored in
                      save_pushed now conversation written ;;
                      let* mid := fresh in
                      let* systemMessage :=
                        save_message now
                          (Message.new mid now (Conversation._id conversation) me
                             (join_names addedUsers +:+ " " +:+
                              (if Nat.eqb (length addedUsers) 1 then "was" else "were")
                              +:+ " added to the group")
                             "system" None) in
                      save_pushed now
                        (Conversation.updateLastActivity now
                           (Some (Message._id systemMessage)) conversation)
                        (Conversation.updateLastActivity now
                           (Some (Message._id systemMessage)) written)
                    else ret tt) ;;
                   ret (respond 200
                          (pretty (length addedUsers)
                             +:+ " member(s) added successfully")
                          (Some (length addedUsers)))
           end
       end)
    (fun _ => ret (respond 500 "Server error adding group members" None)).

(** [DELETE /api/conversations/:id/members/:userId]. [removeParticipant]
    assigns the filtered populated array, so what is saved are the ids of
    the participants that have an account, less the one removed. The
    answer carries the number of members left. *)
Definition removeMember (now : Date) (me id userId : ObjectId)
  : M DB (Response nat) :=
  try_catch
    (let* d := get in
     match findById id (conversations d) with
     | None => ret (respond 404 "Conversation not found" None)
     | Some stored =>
         let conversation :=
           Conversation.set_participants (populated d stored) stored in
         if negb (String.eqb (Conversation.type conversation) "group")
         then ret (respond 400
             "This operation is only allowed for group conversations" None)
         else
           match findById (Conversation.createdBy conversation) (users d) with
           | None => throw "Cannot read properties of null"
           | Some creator =>
               let isCreator := Nat.eqb (User._id creator) me in
               let isSelfRemoval := Nat.eqb me userId in
               if negb isCreator && negb isSelfRemoval
               then ret (respond 403 "You can only remove yourself from the group" None)
               else
                 match findById userId (users d) with
                 | None => ret (respond 404 "User not found" None)
                 | Some userToRemove =>
                     if negb (existsb (Nat.eqb userId)
                                (Conversation.participants conversation))
                     then ret (respond 400
                         "User is not a member of this conversation" None)
                     else
                       let* conversation :=
                         save_conversation now
                           (Conversation.removeParticipant userId conversation) in
                       let* mid := fresh in
                       let* systemMessage :=
                         save_message now
                           (Message.new mid now (Conversation._id conversation) me
                              (User.username userToRemove +:+
                               (if isSelfRemoval then " left the group"
                                else " was removed from the group"))
                              "system" None) in
                       let* conversation :=
                         save_conversation now
                           (Conversation.updateLastActivity now
                              (Some (Message._id systemMessage)) conversation) in
                       ret (respond 200
                              (if isSelfRemoval then "You have left the group"
                               else "Member removed successfully")
                              (Some (length (Conversation.participants conversation))))
                 end
           end
     end)
    (fun _ => ret (respond 500 "Server error removing group member" None)).

End GroupMembers.

(* ===================================================================== *)
(** * controllers/adminController.js *)
(* ===================================================================== *)

Module AdminController.

(** [Conversation.updateMany({ participants: userId },
                             { $pull: { participants: userId } })]:
    an update operator written by the store; no [save] hook runs. *)
Definition pull_participant (now : Date) (userId : ObjectId)
    (c : Conversation.t) : Conversation.t :=
  if selects [ (["participants"], Eq (VId userId)) ] c
  then Conversation.set_updatedAt now
         (Conversation.set_participants
            (List.filter (fun p => negb (Nat.eqb p userId))
                         (Conversation.participants c)) c)
  else c.

(** [deleteUser]. The first filter names [senderId], which is not a path
    of the message schema: taken as written it selects no document. *)
Definition deleteUser (now : Date) (userId : ObjectId) : M DB (Response unit) :=
  try_catch
    (let* d := get in
     match findById userId (users d) with
     | None => ret (respond 404 "User not found" None)
     | Some user =>
         modify (fun d =>
           set_messages (deleteMany [ (["senderId"], Eq (VId userId)) ] (messages d)) d) ;;
         modify (fun d =>
           set_conversations (pull_participant now userId <$> conversations d) d) ;;
         modify (fun d =>
           set_conversations
             (deleteMany [ (["participants"], Size 0) ] (conversations d)) d) ;;
         modify (fun d =>
           set_users (List.filter (fun u => negb (Nat.eqb (User._id u) userId))
                                  (users d)) d) ;;
         ret (respond 200 "User account deleted permanently" None)
     end)
    (fun _ => ret (respond 500 "Failed to delete user" None)).

End AdminController.

(* ===================================================================== *)
(** * middleware/adminAuth.js and routes/adminAuth.js *)
(* ===================================================================== *)

Module AdminAuth.

(** The payload of a token: [{ adminId, type: 'admin' }] for an admin,
    [{ userId }] for a user. *)
Record Payload := mkPayload {
  type : option string;
  adminId : option ObjectId;
  userId : option ObjectId
}.

(** What the middleware makes of the [Authorization] header with
    [jwt.verify]: no token, an error with its [name], or the payload. *)
Inductive Verified :=
| NoToken
| VerifyError (name : string)
| Decoded (decoded : Payload).

(** [generateAdminToken]: the payload that is signed. *)
Definition generateAdminToken (adminId : ObjectId) : Payload :=
  mkPayload (Some "admin") (Some adminId) None.

(** [authenticateAdmin]: a response, or [next()] with [req.admin]. *)
Definition authenticateAdmin (now : Date) (token : Verified) (admins : list Admin.t)
  : Response unit + Admin.t :=
  match token with
  | NoToken => inl (respond 401 "Access token required" None)
  | VerifyError name =>
      if String.eqb name "JsonWebTokenError"
      then inl (respond 401 "Invalid token" None)
      else if String.eqb name "TokenExpiredError"
      then inl (respond 401 "Token expired" None)
      else inl (respond 500 "Server error during authentication" None)
  | Decoded decoded =>
      if negb (from_option (String.eqb "admin") false (type decoded))
      then inl (respond 401 "Invalid admin token" None)
      else
        match adminId decoded ≫= fun i => findById i admins with
        | None => inl (respond 401 "Invalid token - admin not found" None)
        | Some admin =>
            if negb (Admin.isActive admin)
            then inl (respond 403 "Admin account has been deactivated" None)
            else if Admin.isLocked now admin
            then inl (respond 423 "Admin account is temporarily locked" None)
            else inr admin
        end
  end.

(** [doc.updateOne(update)]: the stored document of that [_id] becomes
    [updated]. *)
Definition updateOne (updated : Admin.t) : M (list Admin.t) unit :=
  modify (replace updated).

(** The handler of [POST /api/admin/auth/login]. [bcrypt_compare] is
    [bcrypt.compare(candidate, hash)]. The document in the response is the
    one that was read, before the update. *)
Definition login (bcrypt_compare : string -> string -> bool) (now : Date)
    (identifier password : string)
  : M (list Admin.t) (Response (list (string * Value) * Payload)) :=
  try_catch
    (let* admins := get in
     match Admin.findByEmailOrUsername identifier admins with
     | None => ret (respond 400 "Invalid credentials" None)
     | Some admin =>
         if negb (Admin.isActive admin)
         then ret (respond 403
           "Account has been deactivated. Please contact system administrator." None)
         else if Admin.isLocked now admin
         then ret (respond 423
           "Account is temporarily locked due to too many failed login attempts. Please try again later."
           None)
         else
           let isMatch := bcrypt_compare password (Admin.password admin) in
           if negb isMatch
           then
             updateOne (Admin.incLoginAttempts now admin) ;;
             ret (respond 400 "Invalid credentials" None)
           else
             updateOne (Admin.resetLoginAttempts now admin) ;;
             let token := generateAdminToken (Admin._id admin) in
             ret (respond 200 "Login successful"
                          (Some (Admin.toJSON now admin, token)))
     end)
    (fun _ => ret (respond 500 "Server error during login" None)).

End AdminAuth.

(* ===================================================================== *)
(** * routes/messages.js *)
(* ===================================================================== *)

(** [doc.populate(path, select)]: the reference at [path] becomes the
    selected fields of the document it names, or [null] when that document
    is gone. *)
Definition populate (path : string)
    (lookup : ObjectId -> option (list (string * Value)))
    (doc : list (string * Value)) : list (string * Value) :=
  match get_field path doc with
  | Some (VId i) => set_field path (from_option VObj VNull (lookup i)) doc
  | _ => doc
  end.

Definition populate_sender (d : DB) (doc : list (string * Value))
  : list (string * Value) :=
  populate "sender"
    (fun i => User.select ["username"; "email"; "avatar"] <$> findById i (users d))
    doc.

Definition populate_replyTo (d : DB) (doc : list (string * Value))
  : list (string * Value) :=
  populate "replyTo"
    (fun i => Message.select ["content"; "sender"] <$> findById i (messages d))
    doc.

Module Messages.

(** [15 * 60 * 1000] *)
Definition editWindow : Z := 15 * 60 * 1000.

(** [GET /api/messages/:conversationId]: the page of the listing, oldest
    first, as serialised by [res.json]. *)
Definition list_messages (me conversationId : ObjectId) (page limit : Z)
  : M DB (Response (list (list (string * Value)))) :=
  try_catch
    (let* d := get in
     match findOne (Conversation.memberQuery conversationId me) (conversations d) with
     | None => ret (respond 404 "Conversation not found" None)
     | Some _ =>
         let* messages :=
           match Message.getConversationMessages conversationId page limit
                                                 (messages d) with
           | inl e => throw e
           | inr messages => ret messages
           end in
         let chronologicalMessages := reverse messages in
         ret (respond 200 ""
                (Some ((fun m => Message.render
                                   (populate_replyTo d
                                      (populate_sender d (Message.toObject m))))
                         <$> chronologicalMessages)))
     end)
    (fun _ => ret (respond 500 "Server error getting messages" None)).

(** [PUT /api/messages/:id] *)
Definition edit (now : Date) (me id : ObjectId) (content : option string)
  : M DB (Response (list (string * Value))) :=
  try_catch
    (match content with
     | None => ret (respond 400 "Message content is required" None)
     | Some content =>
         if Nat.eqb (str_len content) 0 || Nat.eqb (str_len (trim content)) 0
         then ret (respond 400 "Message content is required" None)
         else
           let* d := get in
           match findOne (Message.ownQuery id me) (messages d) with
           | None =>
               ret (respond 404
                 "Message not found or you are not authorized to edit it" None)
           | Some message =>
               let fifteenMinutesAgo := now - editWindow in
               if bool_decide (Message.createdAt message < fifteenMinutesAgo)
               then ret (respond 400 "Message is too old to edit" None)
               else
                 let* message :=
                   save_message now
                     (Message.editContent now (trim content) message) in
                 let* d := get in
                 ret (respond 200 "Message edited successfully"
                        (Some (Message.render
                                 (populate_sender d (Message.toObject message)))))
           end
     end)
    (fun _ => ret (respond 500 "Server error editing message" None)).

(** [DELETE /api/messages/:id] *)
Definition delete (now : Date) (me id : ObjectId) : M DB (Response unit) :=
  try_catch
    (let* d := get in
     match findOne (Message.ownQuery id me) (messages d) with
     | None =>
         ret (respond 404
           "Message not found or you are not authorized to delete it" None)
     | Some message =>
         save_message now (Message.softDelete now message) ;;
         ret (respond 200 "Message deleted successfully" None)
     end)
    (fun _ => ret (respond 500 "Server error deleting message" None)).

(** The update that [save()] sends after [this.readBy.push(receipt)]: a
    [$push] of the receipt on the stored document of that [_id]. *)
Definition push_readBy (now : Date) (id : ObjectId) (receipt : Message.ReadReceipt)
    (coll : list Message.t) : list Message.t :=
  (fun m => if Nat.eqb (Message._id m) id
            then Message.set_updatedAt now
                   (Message.set_readBy (Message.readBy m ++ [receipt]) m)
            else m) <$> coll.

(** [message.markAsRead(userId)] with its [save]: the document in memory
    is checked and validated, the receipt is pushed on the stored one. *)
Definition markAsRead (now : Date) (userId : ObjectId) (message : Message.t)
  : M DB Message.t :=
  match Message.markAsRead now userId message with
  | Some m =>
      match Message.validate m with
      | Some e => throw e
      | None =>
          modify (fun d =>
            set_messages
              (push_readBy now (Message._id message) (Message.mkReceipt userId now)
                           (messages d)) d) ;;
          ret (Message.set_updatedAt now m)
      end
  | None => ret message
  end.

(** [POST /api/messages/:id/read] *)
Definition read (now : Date) (me id : ObjectId) : M DB (Response unit) :=
  try_catch
    (let* d := get in
     match findById id (messages d) with
     | None => ret (respond 404 "Message not found" None)
     | Some message =>
         match findOne (Conversation.memberQuery (Message.conversation message) me)
                       (conversations d) with
         | None => ret (respond 404 "Conversation not found" None)
         | Some _ =>
             markAsRead now me message ;;
             ret (respond 200 "Message marked as read" None)
         end
     end)
    (fun _ => ret (respond 500 "Server error marking message as read" None)).

(** [POST /api/messages] behind [validateMessage] *)
Definition send (now : Date) (me conversationId : ObjectId)
    (content type : option string) (replyTo : option ObjectId)
  : M DB (Response (list (string * Value))) :=
  match Validation.validateMessage content type with
  | None => ret (respond 400 "Validation failed" None)
  | Some content =>
      try_catch
        (let type := default "text" type in
         let* d := get in
         match findOne (Conversation.memberQuery conversationId me)
                       (conversations d) with
         | None => ret (respond 404 "Conversation not found" None)
         | Some conversation =>
             let* mid := fresh in
             let message :=
               Message.new mid now conversationId me content type replyTo in
             let* message := save_message now message in
             save_conversation now
               (Conversation.updateLastActivity now (Some (Message._id message))
                                                conversation) ;;
             let* d := get in
             let doc := populate_sender d (Message.toObject message) in
             let doc := match replyTo with
                        | Some _ => populate_replyTo d doc
                        | None => doc
                        end in
             ret (respond 201 "Message sent successfully" (Some (Message.render doc)))
         end)
        (fun _ => ret (respond 500 "Server error sending message" None))
  end.

End Messages.

(* ===================================================================== *)
(** * socket/socketHandlers.js *)
(* ===================================================================== *)

Module Gateway.

(** A connection as the authentication middleware hands it over:
    [socket.id], [socket.userId] and the document [socket.user]. *)
Record Socket := mkSocket {
  id : SocketId;
  userId : ObjectId;
  user : User.t
}.

(** A value of the [activeUsers] map. *)
Record Connection := mkConnection {
  socketId : SocketId;
  conn_user : User.t
}.

(** [`user_${id}`] and [`conversation_${id}`] *)
Inductive Room :=
| user_ (u : ObjectId)
| conversation_ (c : ObjectId).

#[global] Instance Room_eq_dec : EqDecision Room.
Proof. solve_decision. Defined.

Definition Room_to_sum (r : Room) : ObjectId + ObjectId :=
  match r with user_ u => inl u | conversation_ c => inr c end.

Definition Room_of_sum (s : ObjectId + ObjectId) : Room :=
  match s with inl u => user_ u | inr c => conversation_ c end.

#[global] Instance Room_countable : Countable Room.
Proof.
  apply (inj_countable' Room_to_sum Room_of_sum).
  intros []; reflexivity.
Defined.

Inductive Event :=
| user_online (userId : ObjectId) (username : string)
| user_joined_conversation (userId : ObjectId) (username : string)
    (conversationId : ObjectId)
| user_left_conversation (userId : ObjectId) (username : string)
    (conversationId : ObjectId)
| new_message (message : list (string * Value))
| user_typing (userId : ObjectId) (username : string) (conversationId : ObjectId)
| user_stopped_typing (userId : ObjectId) (username : string)
    (conversationId : ObjectId)
| messages_read (userId : ObjectId) (conversationId : ObjectId)
    (messageIds : list ObjectId)
| user_status_changed (userId : ObjectId) (username : string) (status : string)
| user_offline (userId : ObjectId) (username : string) (lastSeen : Date)
| error (message : string).

(** One [emit]: the connections it reaches and what it carries. *)
Record Emit := mkEmit {
  recipients : gset SocketId;
  event : Event
}.

Record World := mkWorld {
  db : DB;
  activeUsers : gmap ObjectId Connection;
  sockets : gmap SocketId Socket;
  rooms : gmap Room (gset SocketId);
  emitted : list Emit
}.

Definition set_db (d : DB) (w : World) : World :=
  mkWorld d (activeUsers w) (sockets w) (rooms w) (emitted w).
Definition set_activeUsers (a : gmap ObjectId Connection) (w : World) : World :=
  mkWorld (db w) a (sockets w) (rooms w) (emitted w).
Definition set_sockets (s : gmap SocketId Socket) (w : World) : World :=
  mkWorld (db w) (activeUsers w) s (rooms w) (emitted w).
Definition set_rooms (r : gmap Room (gset SocketId)) (w : World) : World :=
  mkWorld (db w) (activeUsers w) (sockets w) r (emitted w).
Definition set_emitted (e : list Emit) (w : World) : World :=
  mkWorld (db w) (activeUsers w) (sockets w) (rooms w) e.

Definition store {A} (m : M DB A) : M World A := lift db set_db m.

Definition members (r : Room) (w : World) : gset SocketId :=
  default ∅ (rooms w !! r).

Definition emit (to : World -> gset SocketId) (ev : Event) : M World unit :=
  modify (fun w => set_emitted (emitted w ++ [mkEmit (to w) ev]) w).

(** [socket.emit] *)
Definition socket_emit (socket : Socket) : Event -> M World unit :=
  emit (fun _ => {[ id socket ]}).

(** [socket.broadcast.emit] *)
Definition socket_broadcast_emit (socket : Socket) : Event -> M World unit :=
  emit (fun w => dom (sockets w) ∖ {[ id socket ]}).

(** [socket.to(room).emit] *)
Definition socket_to_emit (socket : Socket) (r : Room) : Event -> M World unit :=
  emit (fun w => members r w ∖ {[ id socket ]}).

(** [io.to(room).emit] *)
Definition io_to_emit (r : Room) : Event -> M World unit :=
  emit (members r).

(** [socket.join(room)] *)
Definition socket_join (socket : Socket) (r : Room) : M World unit :=
  modify (fun w => set_rooms (<[ r := {[ id socket ]} ∪ members r w ]> (rooms w)) w).

(** [socket.leave(room)] *)
Definition socket_leave (socket : Socket) (r : Room) : M World unit :=
  modify (fun w => set_rooms (<[ r := members r w ∖ {[ id socket ]} ]> (rooms w)) w).

(** [user.setOnlineStatus(isOnline, socketId)] on the stored account: the
    paths the method assigns are written, the others are left as stored. *)
Definition setOnlineStatus (now : Date) (userId : ObjectId) (online : bool)
    (sock : option SocketId) : M DB unit :=
  fun d =>
    if existsb (fun u => Nat.eqb (User._id u) userId) (users d)
    then (set_users
            ((fun u => if Nat.eqb (User._id u) userId
                       then User.setOnlineStatus now online sock u else u)
               <$> users d) d,
          inr tt)
    else (d, inl "No document found for query").

(** [handleConnection], up to the registration of the listeners. *)
Definition handleConnection (now : Date) (socket : Socket) : M World Socket :=
  let socket' :=
    mkSocket (id socket) (userId socket)
             (User.setOnlineStatus now true (Some (id socket)) (user socket)) in
  modify (fun w => set_sockets (<[ id socket := socket' ]> (sockets w)) w) ;;
  modify (fun w =>
    set_activeUsers
      (<[ userId socket := mkConnection (id socket) (user socket') ]> (activeUsers w))
      w) ;;
  (* not awaited: a rejection is not handled here *)
  try_catch (store (setOnlineStatus now (userId socket) true (Some (id socket))))
            (fun _ => ret tt) ;;
  socket_join socket (user_ (userId socket)) ;;
  socket_broadcast_emit socket
    (user_online (userId socket) (User.username (user socket))) ;;
  ret socket'.

(** [socket.on('join_conversation', ...)] *)
Definition join_conversation (socket : Socket) (conversationId : ObjectId)
  : M World unit :=
  try_catch
    (let* w := get in
     match findOne (Conversation.memberQuery conversationId (userId socket))
                   (conversations (db w)) with
     | Some conversation =>
         socket_join socket (conversation_ conversationId) ;;
         socket_to_emit socket (conversation_ conversationId)
           (user_joined_conversation (userId socket) (User.username (user socket))
                                     conversationId)
     | None => ret tt
     end)
    (fun _ => socket_emit socket (error "Failed to join conversation")).

(** [socket.on('leave_conversation', ...)] *)
Definition leave_conversation (socket : Socket) (conversationId : ObjectId)
  : M World unit :=
  try_catch
    (socket_leave socket (conversation_ conversationId) ;;
     socket_to_emit socket (conversation_ conversationId)
       (user_left_conversation (userId socket) (User.username (user socket))
                               conversationId))
    (fun _ => ret tt).

(** [socket.on('send_message', ...)] *)
Definition send_message (now : Date) (socket : Socket) (conversationId : ObjectId)
    (content : string) (type : option string) (replyTo : option ObjectId)
  : M World unit :=
  try_catch
    (let type := default "text" type in
     let* w := get in
     match findOne (Conversation.memberQuery conversationId (userId socket))
                   (conversations (db w)) with
     | None => socket_emit socket (error "Conversation not found")
     | Some conversation =>
         let* mid := store fresh in
         let message :=
           Message.new mid now conversationId (userId socket) content type replyTo in
         let* message := store (save_message now message) in
         store (save_conversation now
                  (Conversation.updateLastActivity now (Some (Message._id message))
                                                   conversation)) ;;
         let* w := get in
         let doc := populate_sender (db w) (Message.toObject message) in
         let doc := match replyTo with
                    | Some _ => populate_replyTo (db w) doc
                    | None => doc
                    end in
         io_to_emit (conversation_ conversationId) (new_message (Message.render doc))
     end)
    (fun _ => socket_emit socket (error "Failed to send message")).

(** [socket.on('typing_start', ...)] *)
Definition typing_start (socket : Socket) (conversationId : ObjectId)
  : M World unit :=
  try_catch
    (socket_to_emit socket (conversation_ conversationId)
       (user_typing (userId socket) (User.username (user socket)) conversationId))
    (fun _ => ret tt).

(** [socket.on('typing_stop', ...)] *)
Definition typing_stop (socket : Socket) (conversationId : ObjectId)
  : M World unit :=
  try_catch
    (socket_to_emit socket (conversation_ conversationId)
       (user_stopped_typing (userId socket) (User.username (user socket))
                            conversationId))
    (fun _ => ret tt).

(** [Promise.all(tasks)] over tasks that have been started: each one runs
    to its end whatever becomes of the others, and the whole rejects with
    the first rejection. *)
Fixpoint promise_all {S} (tasks : list (M S unit)) : M S unit :=
  match tasks with
  | [] => ret tt
  | task :: rest =>
      fun s =>
        let '(s1, r1) := task s in
        let '(s2, r2) := promise_all rest s1 in
        (s2, match r1 with inl e => inl e | inr _ => r2 end)
  end.

(** One task of [messageIds.map(async ...)], resumed with the document its
    [findById] returned. *)
Definition mark_task (now : Date) (userId : ObjectId) (found : option Message.t)
  : M DB unit :=
  match found with
  | Some message => Messages.markAsRead now userId message ;; ret tt
  | None => ret tt
  end.

(** The tasks mapped over [messageIds] under [Promise.all]. The map starts
    every task, and each task issues its [findById] at once, before any of
    them resumes: every task marks the document as it was stored when the
    handler reached the map, and the saves follow in the order of the
    list. *)
Definition mark_each (now : Date) (userId : ObjectId) (messageIds : list ObjectId)
  : M DB unit :=
  let* d := get in
  promise_all
    (mark_task now userId <$> ((fun messageId => findById messageId (messages d))
                                 <$> messageIds)).

(** [socket.on('mark_messages_read', ...)] *)
Definition mark_messages_read (now : Date) (socket : Socket)
    (conversationId : ObjectId) (messageIds : list ObjectId) : M World unit :=
  try_catch
    (let* w := get in
     match findOne (Conversation.memberQuery conversationId (userId socket))
                   (conversations (db w)) with
     | None => socket_emit socket (error "Conversation not found")
     | Some conversation =>
         store (mark_each now (userId socket) messageIds) ;;
         socket_to_emit socket (conversation_ conversationId)
           (messages_read (userId socket) conversationId messageIds)
     end)
    (fun _ => socket_emit socket (error "Failed to mark messages as read")).

(** [socket.on('update_status', ...)] *)
Definition update_status (socket : Socket) (status : string) : M World unit :=
  try_catch
    (socket_broadcast_emit socket
       (user_status_changed (userId socket) (User.username (user socket)) status))
    (fun _ => ret tt).

(** What socket.io has done when ['disconnect'] fires: the connection is
    out of every room and out of the server's list. *)
Definition close (socket : Socket) : M World unit :=
  modify (fun w =>
    set_sockets (base.delete (id socket) (sockets w))
      (set_rooms ((fun s => s ∖ {[ id socket ]}) <$> rooms w) w)).

(** [socket.on('disconnect', ...)] *)
Definition disconnect (now : Date) (socket : Socket) : M World unit :=
  close socket ;;
  try_catch
    (modify (fun w =>
       set_activeUsers (base.delete (userId socket) (activeUsers w)) w) ;;
     store (setOnlineStatus now (userId socket) false None) ;;
     socket_broadcast_emit socket
       (user_offline (userId socket) (User.username (user socket)) now))
    (fun _ => ret tt).

(** [isUserOnline] *)
Definition isUserOnline (userId : ObjectId) (w : World) : bool :=
  bool_decide (is_Some (activeUsers w !! userId)).

(** [sendToUser]: the connection the registry holds, if any. *)
Definition lookup_connection (userId : ObjectId) (w : World) : option Connection :=
  activeUsers w !! userId.

(** What a client may send on an open connection. *)
Inductive ClientEvent :=
| JoinConversation (conversationId : ObjectId)
| LeaveConversation (conversationId : ObjectId)
| SendMessage (conversationId : ObjectId) (content : string)
    (type : option string) (replyTo : option ObjectId)
| TypingStart (conversationId : ObjectId)
| TypingStop (conversationId : ObjectId)
| MarkMessagesRead (conversationId : ObjectId) (messageIds : list ObjectId)
| UpdateStatus (status : string)
| Disconnect.

Definition on (now : Date) (socket : Socket) (ev : ClientEvent) : M World unit :=
  match ev with
  | JoinConversation c => join_conversation socket c
  | LeaveConversation c => leave_conversation socket c
  | SendMessage c content type replyTo => send_message now socket c content type replyTo
  | TypingStart c => typing_start socket c
  | TypingStop c => typing_stop socket c
  | MarkMessagesRead c ids => mark_messages_read now socket c ids
  | UpdateStatus s => update_status socket s
  | Disconnect => disconnect now socket
  end.

(** The conversation an event is about, when it is about one. *)
Definition event_conversation (ev : Event) : option ObjectId :=
  match ev with
  | user_joined_conversation _ _ c => Some c
  | user_left_conversation _ _ c => Some c
  | new_message doc =>
      match get_field "conversation" doc with
      | Some (VId c) => Some c
      | _ => None
      end
  | user_typing _ _ c => Some c
  | user_stopped_typing _ _ c => Some c
  | messages_read _ c _ => Some c
  | _ => None
  end.

(** An event arrives on the connection [sid], if it is still open. *)
Definition deliver (now : Date) (sid : SocketId) (ev : ClientEvent) : M World unit :=
  let* w := get in
  match sockets w !! sid with
  | Some socket => on now socket ev
  | None => ret tt
  end.

(** A run of the gateway: events handled one after the other. *)
Fixpoint run (trace : list (Date * SocketId * ClientEvent)) : M World unit :=
  match trace with
  | [] => ret tt
  | (now, sid, ev) :: rest => deliver now sid ev ;; run rest
  end.

End Gateway.

(* ===================================================================== *)
(** * routes/auth.js *)
(* ===================================================================== *)

Module Auth.

(** [userSchema.statics.findByEmailOrUsername]: the [$or] of two filters,
    whose operands go through the setters of their paths when the query is
    cast, as for the admins. *)
Definition findByEmailOrUsername (identifier : string) (coll : list User.t)
  : option User.t :=
  List.find
    (fun u =>
       selects [ (["email"], Eq (VStr (toLowerCase (trim (toLowerCase identifier))))) ] u
       || selects [ (["username"], Eq (VStr (trim identifier))) ] u)
    coll.

(** The two collections the handler works on. *)
Definition Accounts : Type := list Admin.t * DB.

Definition on_admins {A} (m : M (list Admin.t) A) : M Accounts A :=
  fun s => let '(admins, r) := m s.1 in ((admins, s.2), r).

Definition on_db {A} (m : M DB A) : M Accounts A :=
  fun s => let '(d, r) := m s.2 in ((s.1, d), r).

(** What a successful login answers with: the account as JSON with its
    [userType], the token and the [userType] again. *)
Definition Session : Type := list (string * Value) * AdminAuth.Payload * string.

(** The handler of [POST /api/auth/login], the unified login.
    [bcrypt_compare] is [bcrypt.compare(candidate, hash)]; [generateToken]
    is the function of that name of [middleware/auth.js]. An admin whose
    password does not match is counted a failed attempt, and the handler
    goes on to look for a user of that identifier. *)
Definition login (bcrypt_compare : string -> string -> bool)
    (generateToken : ObjectId -> AdminAuth.Payload) (now : Date)
    (identifier password : string) : M Accounts (Response Session) :=
  try_catch
    (let* s := get in
     let* answered :=
       match Admin.findByEmailOrUsername identifier s.1 with
       | Some admin =>
           if negb (Admin.isActive admin)
           then ret (Some (respond 403
             "Account has been deactivated. Please contact administrator." None))
           else if Admin.isLocked now admin
           then ret (Some (respond 423
             "Account is temporarily locked due to too many failed login attempts."
             None))
           else
             let isAdminMatch := bcrypt_compare password (Admin.password admin) in
             if isAdminMatch
             then
               on_admins (AdminAuth.updateOne (Admin.resetLoginAttempts now admin)) ;;
               let token := AdminAuth.generateAdminToken (Admin._id admin) in
               ret (Some (respond 200 "Admin login successful"
                            (Some (set_field "userType" (VStr "admin")
                                             (Admin.toJSON now admin),
                                   token, "admin"))))
             else
               on_admins (AdminAuth.updateOne (Admin.incLoginAttempts now admin)) ;;
               ret None
       | None => ret None
       end in
     match answered with
     | Some response => ret response
     | None =>
         let* s := get in
         match findByEmailOrUsername identifier (users s.2) with
         | None => ret (respond 400 "Invalid credentials" None)
         | Some user =>
             if negb (User.isActive user)
             then ret (respond 403
               "Account has been deactivated. Please contact administrator." None)
             else
               let isUserMatch := bcrypt_compare password (User.password user) in
               if negb isUserMatch
               then ret (respond 400 "Invalid credentials" None)
               else
                 on_db (Gateway.setOnlineStatus now (User._id user) true None) ;;
                 let user := User.setOnlineStatus now true None user in
                 let token := generateToken (User._id user) in
                 ret (respond 200 "User login successful"
                        (Some (set_field "userType" (VStr "user") (User.toJSON user),
                               token, "user")))
         end
     end)
    (fun _ => ret (respond 500 "Server error during login" None)).

End Auth.

(* ===================================================================== *)
(** * Notions used by the statements *)
(* ===================================================================== *)

(** The messages the unread count of [(c, u)] is about. *)
Definition unread (c u : ObjectId) (m : Message.t) : Prop :=
  Message.conversation m = c /\
  Message.sender m <> u /\
  (u ∉ (Message.user <$> Message.readBy m)) /\
  Message.isDeleted m = false.

#[global] Instance unread_dec c u m : Decision (unread c u m).
Proof. unfold unread. apply _. Defined.

(** Two accounts that agree on everything but the stored secrets. *)
Definition same_public_user (u1 u2 : User.t) : Prop :=
  User._id u1 = User._id u2 /\
  User.username u1 = User.username u2 /\
  User.email u1 = User.email u2 /\
  User.avatar u1 = User.avatar u2 /\
  User.isOnline u1 = User.isOnline u2 /\
  User.lastSeen u1 = User.lastSeen u2 /\
  User.isActive u1 = User.isActive u2 /\
  User.createdAt u1 = User.createdAt u2 /\
  User.updatedAt u1 = User.updatedAt u2.

Definition same_public_admin (a1 a2 : Admin.t) : Prop :=
  Admin._id a1 = Admin._id a2 /\
  Admin.username a1 = Admin.username a2 /\
  Admin.email a1 = Admin.email a2 /\
  Admin.firstName a1 = Admin.firstName a2 /\
  Admin.lastName a1 = Admin.lastName a2 /\
  Admin.avatar a1 = Admin.avatar a2 /\
  Admin.role a1 = Admin.role a2 /\
  Admin.permissions a1 = Admin.permissions a2 /\
  Admin.isActive a1 = Admin.isActive a2 /\
  Admin.lastLogin a1 = Admin.lastLogin a2 /\
  Admin.loginAttempts a1 = Admin.loginAttempts a2 /\
  Admin.lockUntil a1 = Admin.lockUntil a2 /\
  Admin.createdBy a1 = Admin.createdBy a2 /\
  Admin.twoFactorEnabled a1 = Admin.twoFactorEnabled a2 /\
  Admin.createdAt a1 = Admin.createdAt a2 /\
  Admin.updatedAt a1 = Admin.updatedAt a2.

(** The methods that write a message document, and the document each one
    leaves. *)
Inductive MessageOp :=
| MarkAsRead (now : Date) (userId : ObjectId)
| EditContent (now : Date) (newContent : string)
| SoftDelete (now : Date).

Definition apply_op (op : MessageOp) (m : Message.t) : Message.t :=
  match op with
  | MarkAsRead now u => default m (Message.markAsRead now u m)
  | EditContent now text => Message.editContent now text m
  | SoftDelete now => Message.softDelete now m
  end.

Definition apply_ops (ops : list MessageOp) (m : Message.t) : Message.t :=
  fold_left (fun m op => apply_op op m) ops m.

(** The whole result of the listing query, newest first, before [skip]
    and [limit] cut a page out of it. *)
Definition listing (c : ObjectId) (d : DB) : list Message.t :=
  Message.sort_desc (find (Message.listingQuery c) (messages d)).

(** Newest first. *)
Definition newer_first (x y : Message.t) : Prop :=
  Message.createdAt y <= Message.createdAt x.

(** A computation keeps a property of the state, thrown or not. *)
Definition preserves {S A} (P : S -> Prop) (m : M S A) : Prop :=
  forall s, P s -> P (exec m s).

(** Every stored conversation meets the participant constraint. *)
Definition participants_hold (d : DB) : Prop :=
  Forall Conversation.participants_ok (conversations d).

(** A request whose participants, with the caller, are the two users [a]
    and [b], in any order and any number of times. *)
Definition pair_request (a b me : ObjectId) (participants : list ObjectId) : Prop :=
  forall p, p ∈ participants ++ [me] <-> p = a \/ p = b.

(** [c] is a direct conversation that [a] and [b] both take part in. *)
Definition direct_of (a b : ObjectId) (c : Conversation.t) : Prop :=
  Conversation.type c = "direct" /\
  a ∈ Conversation.participants c /\
  b ∈ Conversation.participants c.

#[global] Instance direct_of_dec a b c : Decision (direct_of a b c).
Proof. unfold direct_of. apply _. Defined.

(** The number of direct conversations stored for a pair. *)
Definition direct_count (a b : ObjectId) (d : DB) : nat :=
  length (filter (direct_of a b) (conversations d)).

(** No pair of distinct users has two direct conversations. *)
Definition direct_unique (d : DB) : Prop :=
  forall a b, a <> b -> (direct_count a b d <= 1)%nat.

(** The ids in use are below the next one to be handed out. *)
Definition ids_fresh (d : DB) : Prop :=
  Forall (fun c => (Conversation._id c < nextId d)%nat) (conversations d).

(** A connection identifier is stored only on an account that is online. *)
Definition presence_ok (d : DB) : Prop :=
  Forall (fun u => is_Some (User.socketId u) -> User.isOnline u = true) (users d).

(** Who takes part in what: the [_id] and participants of every stored
    conversation. *)
Definition membership (d : DB) : list (ObjectId * list ObjectId) :=
  (fun c => (Conversation._id c, Conversation.participants c)) <$> conversations d.

(** [u] is a participant of the conversation [c]. *)
Definition participant (c u : ObjectId) (d : DB) : Prop :=
  is_Some (findOne (Conversation.memberQuery c u) (conversations d)).

(** Connections are filed under their own id, conversations have distinct
    ids. *)
Definition world_ok (w : Gateway.World) : Prop :=
  (forall sid s, Gateway.sockets w !! sid = Some s -> Gateway.id s = sid) /\
  NoDup (Conversation._id <$> conversations (Gateway.db w)).

(** How [sid] may come to be in the room of [c], seen from the world [w]:
    it is there already, or it is an open connection of a participant. *)
Definition allowed (w : Gateway.World) (c : ObjectId) (sid : SocketId) : Prop :=
  sid ∈ Gateway.members (Gateway.conversation_ c) w \/
  exists s, Gateway.sockets w !! sid = Some s /\ participant c (Gateway.userId s) (Gateway.db w).

(** What the gateway may have done between the worlds [w] and [w']: the
    participants of every conversation are as they were, no connection
    appeared, and a connection is in a conversation room, or was sent an
    event about that conversation, only if [allowed] in [w]. *)
Definition step_ok (w w' : Gateway.World) : Prop :=
  membership (Gateway.db w') = membership (Gateway.db w) /\
  (forall sid s, Gateway.sockets w' !! sid = Some s -> Gateway.sockets w !! sid = Some s) /\
  (forall c sid, sid ∈ Gateway.members (Gateway.conversation_ c) w' -> allowed w c sid) /\
  exists new,
    Gateway.emitted w' = Gateway.emitted w ++ new /\
    Forall (fun e => forall c sid,
                Gateway.event_conversation (Gateway.event e) = Some c ->
                sid ∈ Gateway.recipients e -> allowed w c sid) new.

(** [sid] is an open connection of the user [u]. *)
Definition socket_of (u : ObjectId) (w : Gateway.World) (sid : SocketId) : Prop :=
  exists s, Gateway.sockets w !! sid = Some s /\ Gateway.userId s = u.

(** What was emitted after the world [w0]. *)
Definition emitted_since (w0 w : Gateway.World) : list Gateway.Emit :=
  drop (length (Gateway.emitted w0)) (Gateway.emitted w).

(** An emission about the conversation [c] that reaches [sid]. *)
Definition reaches (c : ObjectId) (sid : SocketId) (e : Gateway.Emit) : Prop :=
  Gateway.event_conversation (Gateway.event e) = Some c /\ sid ∈ Gateway.recipients e.

(** What the connection [sid] gets of the conversation [c] between the
    worlds [w] and [w'], if it was in the room of [c]: it is still in the
    room, and every event about [c] emitted in between was sent to it. *)
Definition kept (c : ObjectId) (sid : SocketId) (w w' : Gateway.World) : Prop :=
  (sid ∈ Gateway.members (Gateway.conversation_ c) w ->
   sid ∈ Gateway.members (Gateway.conversation_ c) w') /\
  exists new,
    Gateway.emitted w' = Gateway.emitted w ++ new /\
    Forall (fun e => Gateway.event_conversation (Gateway.event e) = Some c ->
                     sid ∈ Gateway.members (Gateway.conversation_ c) w ->
                     sid ∈ Gateway.recipients e) new.

(** The receipts a message holds for one reader. *)
Definition receipts_of (u : ObjectId) (m : Message.t) : list Message.ReadReceipt :=
  List.filter (fun r => Nat.eqb (Message.user r) u) (Message.readBy m).

(** The messages of a conversation that a reader is shown. *)
Definition live (c : ObjectId) (m : Message.t) : Prop :=
  Message.conversation m = c /\ Message.isDeleted m = false.

#[global] Instance live_dec c m : Decision (live c m).
Proof. unfold live. apply _. Defined.

(** What one page shows; a page the query refuses shows nothing. *)
Definition page_of (c : ObjectId) (page limit : Z) (coll : list Message.t)
  : list Message.t :=
  match Message.getConversationMessages c page limit coll with
  | inr served => served
  | inl _ => []
  end.

(** The pages 1 to [n] of a conversation, one after the other. *)
Definition pages (c : ObjectId) (limit n : nat) (coll : list Message.t)
  : list Message.t :=
  mjoin ((fun page => page_of c (Z.of_nat page) (Z.of_nat limit) coll) <$> seq 1 n).

(** Two versions of a conversation that differ at most in name,
    description and update stamp. *)
Definition same_but_text (c c' : Conversation.t) : Prop :=
  Conversation._id c' = Conversation._id c /\
  Conversation.participants c' = Conversation.participants c /\
  Conversation.type c' = Conversation.type c /\
  Conversation.avatar c' = Conversation.avatar c /\
  Conversation.lastMessage c' = Conversation.lastMessage c /\
  Conversation.lastActivity c' = Conversation.lastActivity c /\
  Conversation.createdBy c' = Conversation.createdBy c /\
  Conversation.isActive c' = Conversation.isActive c /\
  Conversation.createdAt c' = Conversation.createdAt c.

(** Latest activity first. *)
Definition active_first (x y : Conversation.t) : Prop :=
  Conversation.lastActivity y <= Conversation.lastActivity x.

(** The conversations the list of [me] is about. *)
Definition shown (me : ObjectId) (c : Conversation.t) : Prop :=
  me ∈ Conversation.participants c /\ Conversation.isActive c = true.

#[global] Instance shown_dec me c : Decision (shown me c).
Proof. unfold shown. apply _. Defined.

(** The events a handler sends to the connection it runs for: an error,
    or the message that connection sent. *)
Definition is_reply (ev : Gateway.Event) : bool :=
  match ev with
  | Gateway.error _ | Gateway.new_message _ => true
  | _ => false
  end.

(** Logins tried one after the other with the same identifier, each at its
    time and with its password. *)
Fixpoint logins (bcrypt_compare : string -> string -> bool) (identifier : string)
    (tries : list (Date * string)) : M (list Admin.t) unit :=
  match tries with
  | [] => ret tt
  | (now, password) :: rest =>
      AdminAuth.login bcrypt_compare now identifier password ;;
      logins bcrypt_compare identifier rest
  end.

(** Two versions of an admin with the same identity: id, email, username,
    password and activation. *)
Definition same_identity (a a' : Admin.t) : Prop :=
  Admin._id a' = Admin._id a /\ Admin.email a' = Admin.email a /\
  Admin.username a' = Admin.username a /\ Admin.password a' = Admin.password a /\
  Admin.isActive a' = Admin.isActive a.

(** The calls of the REST interface that write conversations or messages,
    each with its caller, and a run of such calls one after the other. *)
Module Rest.

Inductive Call :=
| PostConversation (me : ObjectId) (participants : list ObjectId)
    (type name description : option string)
| PutConversation (me id : ObjectId) (name description : option (option string))
| DeleteConversation (me id : ObjectId)
| PostParticipant (me id userId : ObjectId)
| PostMembers (me id : ObjectId) (userIds : list ObjectId)
| DeleteMember (me id userId : ObjectId)
| PostMessage (me conversationId : ObjectId) (content type : option string)
    (replyTo : option ObjectId)
| PutMessage (me id : ObjectId) (content : option string)
| DeleteMessage (me id : ObjectId)
| PostRead (me id : ObjectId).

Definition handle (now : Date) (call : Call) : M DB unit :=
  match call with
  | PostConversation me participants type name description =>
      Conversations.create now me participants type name description ;; ret tt
  | PutConversation me id name description =>
      Conversations.update now me id name description ;; ret tt
  | DeleteConversation me id => Conversations.leave now me id ;; ret tt
  | PostParticipant me id userId =>
      Conversations.addParticipant now me id userId ;; ret tt
  | PostMembers me id userIds => GroupMembers.addMembers now me id userIds ;; ret tt
  | DeleteMember me id userId =>
      GroupMembers.removeMember now me id userId ;; ret tt
  | PostMessage me conversationId content type replyTo =>
      Messages.send now me conversationId content type replyTo ;; ret tt
  | PutMessage me id content => Messages.edit now me id content ;; ret tt
  | DeleteMessage me id => Messages.delete now me id ;; ret tt
  | PostRead me id => Messages.read now me id ;; ret tt
  end.

Fixpoint run (calls : list (Date * Call)) : M DB unit :=
  match calls with
  | [] => ret tt
  | (now, call) :: rest => handle now call ;; run rest
  end.

End Rest.

(** The shape the save-based routes keep the conversations in: every
    conversation meets the participant constraint, conversation ids are
    distinct and below the next id to be handed out, and no pair of users
    has two direct conversations. *)
Definition store_ok (d : DB) : Prop :=
  participants_hold d /\
  ids_fresh d /\
  NoDup (Conversation._id <$> conversations d) /\
  direct_unique d.

(* ===================================================================== *)
(** * Sample data *)
(* ===================================================================== *)

Module Sample.

Definition account (i : ObjectId) (name : string) : User.t :=
  User.mk i name (name +:+ "@example.com") ("$2a$12$" +:+ name)
          ("https://ui-avatars.com/api/?name=" +:+ name) false 0 None true 0 0 0.

Definition alice : User.t := account 1 "alice".
Definition bob : User.t := account 2 "bob".
Definition carol : User.t := account 3 "carol".

Definition root : Admin.t :=
  Admin.mk 7 "root" "root@example.com" "$2a$12$root" "Ada" "Root" "" "super_admin"
           ["user_management"; "admin_management"] true None 0 None None
           false None 0 0 0.

(** A direct conversation of alice and bob, a group of all three. *)
Definition direct_ab : Conversation.t :=
  Conversation.mk 10 [1; 2]%nat "direct" None None None None 100 1 true 100 100 0.

Definition group_abc : Conversation.t :=
  Conversation.mk 11 [1; 2; 3]%nat "group" (Some "team") None None None 100 1 true
                  100 100 0.

Definition text_message (i conv snd : ObjectId) (text : string) (at_ : Date)
  : Message.t :=
  Message.mk i conv snd text "text" None None None [] None false false None None
             at_ at_ 0.

Definition m20 : Message.t := text_message 20 10 1 "first" 1000.
Definition m21 : Message.t := text_message 21 10 2 "second" 2000.
Definition m22 : Message.t := text_message 22 10 1 "third" 3000.

Definition store0 : DB :=
  mkDB [alice; bob; carol] [direct_ab; group_abc] [m20; m21; m22] 100.

(** Content one character over the limit of the schema. *)
Fixpoint letters (n : nat) : string :=
  match n with
  | O => EmptyString
  | Datatypes.S n' => String (Ascii.ascii_of_nat 97) (letters n')
  end.

Definition too_long : string := letters 2001.

(** [m21], soft-deleted by bob a second after he sent it. *)
Definition store_deleted : DB :=
  exec (Messages.delete 3000 2 21) store0.

(** One connection per user, as the handshake hands them over. *)
Definition sa : Gateway.Socket := Gateway.mkSocket "sa" 1 alice.
Definition sb : Gateway.Socket := Gateway.mkSocket "sb" 2 bob.
Definition sc : Gateway.Socket := Gateway.mkSocket "sc" 3 carol.

Definition world0 : Gateway.World := Gateway.mkWorld store0 ∅ ∅ ∅ [].

(** The three connect. *)
Definition connected : Gateway.World :=
  exec (Gateway.handleConnection 4000 sa ;;
        Gateway.handleConnection 4000 sb ;;
        Gateway.handleConnection 4000 sc) world0.

(** The connections as the gateway holds them once connected. *)
Definition sa_open : Gateway.Socket :=
  Gateway.mkSocket "sa" 1 (User.setOnlineStatus 4000 true (Some "sa") alice).
Definition sb_open : Gateway.Socket :=
  Gateway.mkSocket "sb" 2 (User.setOnlineStatus 4000 true (Some "sb") bob).
Definition sc_open : Gateway.Socket :=
  Gateway.mkSocket "sc" 3 (User.setOnlineStatus 4000 true (Some "sc") carol).

(** Alice and bob join the room of their direct conversation, bob and
    carol the room of the group. *)
Definition in_rooms : Gateway.World :=
  exec (Gateway.run [ (4100, "sa", Gateway.JoinConversation 10);
                      (4100, "sb", Gateway.JoinConversation 10);
                      (4200, "sb", Gateway.JoinConversation 11);
                      (4200, "sc", Gateway.JoinConversation 11) ]) connected.

(** Carol then leaves the group over REST; her connection stays open. *)
Definition after_leave : Gateway.World :=
  exec (Gateway.store (Conversations.leave 4300 3 11)) in_rooms.

(** An administrator deletes alice's account while bob is connected. *)
Definition after_deleteUser : Gateway.World :=
  exec (Gateway.store (AdminController.deleteUser 4400 1)) in_rooms.

(** A fourth account, outside every conversation. *)
Definition dave : User.t := account 4 "dave".

Definition store_with_dave : DB :=
  mkDB [alice; bob; carol; dave] [direct_ab; group_abc] [m20; m21; m22] 100.

(** The sample hashes are the password behind a fixed prefix; this is what
    [bcrypt.compare] answers on them. *)
Definition compare (candidate hash : string) : bool :=
  String.eqb ("$2a$12$" +:+ candidate) hash.

(** [root], locked until the time 9000. *)
Definition root_locked : Admin.t := Admin.set_lockUntil (Some 9000) root.

End Sample.

(* ========================================================================= *)
(** * Proofs *)
(* ========================================================================= *)

(* ===================================================================== *)
(** * Queries *)
(* ===================================================================== *)

Section QueryFacts.

Lemma cond_eq_id (a b : ObjectId) : cond_eq (VId a) [VId b] = Nat.eqb b a.
Proof. unfold cond_eq, holds_value; simpl. by rewrite !orb_false_r. Qed.

Lemma cond_eq_bool (a b : bool) : cond_eq (VBool a) [VBool b] = Bool.eqb b a.
Proof. unfold cond_eq, holds_value; simpl. by rewrite !orb_false_r. Qed.

Lemma cond_eq_str (a b : string) : cond_eq (VStr a) [VStr b] = String.eqb b a.
Proof. unfold cond_eq, holds_value; simpl. by rewrite !orb_false_r. Qed.

Lemma existsb_value_ids (u : ObjectId) (l : list ObjectId) :
  existsb (value_eqb (VId u)) (VId <$> l) = existsb (Nat.eqb u) l.
Proof.
  induction l as [|x l IH]; [done|].
  rewrite fmap_cons. cbn [existsb value_eqb]. by rewrite IH.
Qed.

Lemma cond_eq_in_ids (u : ObjectId) (l : list ObjectId) :
  cond_eq (VId u) [VArr (VId <$> l)] = existsb (Nat.eqb u) l.
Proof.
  unfold cond_eq. cbn [existsb]. unfold holds_value. cbn [value_eqb orb].
  by rewrite existsb_value_ids, !orb_false_r.
Qed.

Lemma existsb_eqb_elem_of (u : ObjectId) (l : list ObjectId) :
  existsb (Nat.eqb u) l = bool_decide (u ∈ l).
Proof.
  symmetry. destruct (existsb (Nat.eqb u) l) eqn:E.
  - apply bool_decide_eq_true_2.
    apply existsb_exists in E as (x & Hin & Hx).
    apply Nat.eqb_eq in Hx; subst. by apply list_elem_of_In.
  - apply bool_decide_eq_false_2. intros Hin. apply list_elem_of_In in Hin.
    assert (existsb (Nat.eqb u) l = true); [|congruence].
    apply existsb_exists. exists u. split; [done|apply Nat.eqb_refl].
Qed.

End QueryFacts.

Lemma readers_resolve (rs : list Message.ReadReceipt) :
  flat_map (fun e : Value =>
              match e with
              | VObj fs => from_option (fun v : Value => [v]) [] (get_field "user" fs)
              | _ => []
              end) (Message.receipt_doc <$> rs)
  = (fun r => VId (Message.user r)) <$> rs.
Proof.
  induction rs as [|r rs IH]; [done|].
  rewrite !fmap_cons. cbn [flat_map]. rewrite IH. reflexivity.
Qed.

Lemma cond_eq_readers (u : ObjectId) (rs : list Message.ReadReceipt) :
  cond_eq (VId u) ((fun r => VId (Message.user r)) <$> rs)
  = existsb (fun r => Nat.eqb (Message.user r) u) rs.
Proof.
  unfold cond_eq. rewrite orb_false_r.
  induction rs as [|r rs IH]; [done|].
  rewrite fmap_cons. cbn [existsb]. rewrite IH.
  unfold holds_value; cbn [value_eqb]. by rewrite orb_false_r.
Qed.

Lemma unread_selects c u m :
  selects (Message.unreadQuery c u) m =
  Nat.eqb (Message.conversation m) c && negb (Nat.eqb (Message.sender m) u)
  && negb (existsb (fun r => Nat.eqb (Message.user r) u) (Message.readBy m))
  && negb (Message.isDeleted m).
Proof.
  unfold selects, matches, Message.unreadQuery. simpl.
  rewrite readers_resolve, cond_eq_readers, !cond_eq_id, cond_eq_bool.
  rewrite andb_true_r, !andb_assoc. by destruct (Message.isDeleted m).
Qed.

Lemma existsb_reader_elem_of u (rs : list Message.ReadReceipt) :
  existsb (fun r => Nat.eqb (Message.user r) u) rs
  = bool_decide (u ∈ (Message.user <$> rs)).
Proof.
  symmetry. destruct (existsb _ rs) eqn:E.
  - apply bool_decide_eq_true_2.
    apply existsb_exists in E as (x & Hin & Hx).
    apply Nat.eqb_eq in Hx; subst. apply list_elem_of_fmap.
    exists x. split; [done|by apply list_elem_of_In].
  - apply bool_decide_eq_false_2. intros Hin.
    apply list_elem_of_fmap in Hin as (x & -> & Hin). apply list_elem_of_In in Hin.
    assert (existsb (fun r => Nat.eqb (Message.user r) (Message.user x)) rs = true);
      [|congruence].
    apply existsb_exists. exists x. split; [done|apply Nat.eqb_refl].
Qed.

Lemma unread_selects_iff c u m :
  selects (Message.unreadQuery c u) m = true <-> unread c u m.
Proof.
  rewrite unread_selects, existsb_reader_elem_of. unfold unread.
  rewrite !andb_true_iff, !negb_true_iff, Nat.eqb_eq, Nat.eqb_neq,
    bool_decide_eq_false.
  tauto.
Qed.

Lemma length_filter_ext {A} (f : A -> bool) (P : A -> Prop) `{!forall x, Decision (P x)}
    (l : list A) :
  (forall x, f x = true <-> P x) ->
  length (List.filter f l) = length (filter P l).
Proof.
  intros Hf. induction l as [|x l IH]; simpl; [done|].
  rewrite filter_cons. destruct (decide (P x)) as [HP|HP].
  - apply Hf in HP. rewrite HP. simpl. by rewrite IH.
  - destruct (f x) eqn:E; [apply Hf in E; done|]. done.
Qed.

(** C2. The unread count of [(c, u)] is the number of stored messages of
    conversation [c] that [u] did not send, that hold no receipt of [u] and
    that are not soft-deleted. *)
Theorem getUnreadCount_counts (c u : ObjectId) (coll : list Message.t) :
  Message.getUnreadCount c u coll = length (filter (unread c u) coll).
Proof.
  unfold Message.getUnreadCount, countDocuments, find.
  apply length_filter_ext. intros m. apply unread_selects_iff.
Qed.
(* ===================================================================== *)
(** * Serialisation hides the stored secrets *)
(* ===================================================================== *)

Lemma user_toJSON_keys (u : User.t) :
  keys (User.toJSON u) =
  ["_id"; "username"; "email"; "avatar"; "isOnline"; "lastSeen"; "isActive";
   "createdAt"; "updatedAt"].
Proof. vm_compute. reflexivity. Qed.

Lemma admin_toJSON_keys (now : Date) (a : Admin.t) :
  keys (Admin.toJSON now a) =
  ["_id"; "username"; "email"; "firstName"; "lastName"; "avatar"; "role";
   "permissions"; "isActive"; "lastLogin"; "loginAttempts"; "lockUntil";
   "createdBy"; "twoFactorEnabled"; "createdAt"; "updatedAt"; "fullName";
   "isLocked"; "id"].
Proof. vm_compute. reflexivity. Qed.

Lemma user_toJSON_same_public (u1 u2 : User.t) :
  same_public_user u1 u2 -> User.toJSON u1 = User.toJSON u2.
Proof.
  destruct u1, u2. unfold same_public_user. simpl.
  intros (-> & -> & -> & -> & -> & -> & -> & -> & ->). vm_compute. reflexivity.
Qed.

Lemma admin_toJSON_same_public (now : Date) (a1 a2 : Admin.t) :
  same_public_admin a1 a2 -> Admin.toJSON now a1 = Admin.toJSON now a2.
Proof.
  destruct a1, a2. unfold same_public_admin. simpl.
  intros (-> & -> & -> & -> & -> & -> & -> & -> & -> & -> & -> & -> & -> & ->
          & -> & ->).
  vm_compute. reflexivity.
Qed.

Ltac not_a_key :=
  let H := fresh in
  intros H; apply list_elem_of_In in H; simpl in H; intuition discriminate.

(** C10. The JSON form of a user has no [password] and no [socketId] key,
    that of an admin no [password] and no [twoFactorSecret] key, and two
    records that differ only in those fields serialise to the same
    object. *)
Theorem toJSON_hides_secrets (now : Date) (u1 u2 : User.t) (a1 a2 : Admin.t) :
  same_public_user u1 u2 ->
  same_public_admin a1 a2 ->
  ("password" ∉ keys (User.toJSON u1)) /\
  ("socketId" ∉ keys (User.toJSON u1)) /\
  ("password" ∉ keys (Admin.toJSON now a1)) /\
  ("twoFactorSecret" ∉ keys (Admin.toJSON now a1)) /\
  User.toJSON u1 = User.toJSON u2 /\
  Admin.toJSON now a1 = Admin.toJSON now a2.
Proof.
  intros Hu Ha.
  rewrite user_toJSON_keys, admin_toJSON_keys.
  split_and!; try not_a_key.
  - by apply user_toJSON_same_public.
  - by apply admin_toJSON_same_public.
Qed.
(* ===================================================================== *)
(** * Read receipts *)
(* ===================================================================== *)

Section Receipts.

Implicit Types (m : Message.t) (u v : ObjectId) (op : MessageOp).

Lemma apply_mark_read now u m :
  Message.isReadBy m u = true -> apply_op (MarkAsRead now u) m = m.
Proof.
  intros H. unfold apply_op, Message.markAsRead.
  unfold Message.isReadBy in H. by rewrite H.
Qed.

Lemma apply_mark_unread now u m :
  Message.isReadBy m u = false ->
  Message.readBy (apply_op (MarkAsRead now u) m)
  = Message.readBy m ++ [Message.mkReceipt u now].
Proof.
  intros H. unfold apply_op, Message.markAsRead.
  unfold Message.isReadBy in H. by rewrite H.
Qed.

Lemma isReadBy_receipts u m :
  Message.isReadBy m u = false <-> receipts_of u m = [].
Proof.
  unfold Message.isReadBy, receipts_of.
  induction (Message.readBy m) as [|r rs IH]; simpl; [done|].
  destruct (Nat.eqb (Message.user r) u); simpl; [split; discriminate|exact IH].
Qed.

Lemma isReadBy_after_mark now u m :
  Message.isReadBy (apply_op (MarkAsRead now u) m) u = true.
Proof.
  destruct (Message.isReadBy m u) eqn:E.
  - by rewrite apply_mark_read.
  - unfold Message.isReadBy. rewrite apply_mark_unread by done.
    rewrite existsb_app. simpl. by rewrite Nat.eqb_refl, orb_true_r.
Qed.

(** No method drops or rewrites a receipt: the old list is a prefix of
    the new one. *)
Lemma apply_op_prefix op m :
  Message.readBy m `prefix_of` Message.readBy (apply_op op m).
Proof.
  destruct op as [now u|now text|now]; simpl; try done.
  unfold Message.markAsRead.
  destruct (existsb _ (Message.readBy m)); simpl; [done|].
  by apply prefix_app_r.
Qed.

Lemma apply_ops_prefix ops m :
  Message.readBy m `prefix_of` Message.readBy (apply_ops ops m).
Proof.
  revert m. induction ops as [|op ops IH]; intros m; simpl; [done|].
  etrans; [apply apply_op_prefix|apply IH].
Qed.

(** Once [u] is recorded, nothing changes what is recorded for [u]. *)
Lemma apply_op_receipts_kept op u m :
  Message.isReadBy m u = true ->
  receipts_of u (apply_op op m) = receipts_of u m /\
  Message.isReadBy (apply_op op m) u = true.
Proof.
  intros Hu. destruct op as [now v|now text|now]; simpl; try done.
  unfold Message.markAsRead.
  destruct (existsb _ (Message.readBy m)) eqn:Ev; simpl; [done|].
  unfold receipts_of, Message.isReadBy in *. simpl.
  rewrite List.filter_app, existsb_app, Hu. simpl.
  destruct (Nat.eqb_spec v u) as [->|Hne]; [congruence|].
  by rewrite app_nil_r.
Qed.

Lemma apply_ops_receipts_kept ops u m :
  Message.isReadBy m u = true ->
  receipts_of u (apply_ops ops m) = receipts_of u m /\
  Message.isReadBy (apply_ops ops m) u = true.
Proof.
  revert m. induction ops as [|op ops IH]; intros m Hu; simpl; [done|].
  destruct (apply_op_receipts_kept op u m Hu) as [Heq Hu'].
  destruct (IH _ Hu') as [Heq' Hu'']. split; [congruence|done].
Qed.

(** The documents the program builds never hold two receipts of one
    reader. *)
Lemma apply_op_receipts_le op u m :
  (length (receipts_of u m) <= 1)%nat ->
  (length (receipts_of u (apply_op op m)) <= 1)%nat.
Proof.
  intros Hle. destruct op as [now v|now text|now]; simpl; try done.
  unfold Message.markAsRead.
  destruct (existsb _ (Message.readBy m)) eqn:Ev; simpl; [done|].
  unfold receipts_of in *. simpl. rewrite List.filter_app, length_app. simpl.
  destruct (Nat.eqb_spec v u) as [->|Hne]; simpl; [|lia].
  assert (List.filter (fun r => Nat.eqb (Message.user r) u) (Message.readBy m) = [])
    as ->; [|simpl; lia].
  apply (isReadBy_receipts u m). exact Ev.
Qed.

Lemma apply_ops_receipts_le ops u m :
  (length (receipts_of u m) <= 1)%nat ->
  (length (receipts_of u (apply_ops ops m)) <= 1)%nat.
Proof.
  revert m. induction ops as [|op ops IH]; intros m Hle; simpl; [done|].
  apply IH. by apply apply_op_receipts_le.
Qed.

Lemma mark_gives_one_receipt now u m :
  (length (receipts_of u m) <= 1)%nat ->
  length (receipts_of u (apply_op (MarkAsRead now u) m)) = 1%nat.
Proof.
  intros Hle. destruct (Message.isReadBy m u) eqn:E.
  - rewrite apply_mark_read by done.
    destruct (receipts_of u m) as [|r [|r' rs]] eqn:Er; simpl in *; [|done|lia].
    apply isReadBy_receipts in Er. congruence.
  - unfold receipts_of. rewrite apply_mark_unread by done.
    rewrite List.filter_app, length_app. simpl. rewrite Nat.eqb_refl. simpl.
    apply (isReadBy_receipts u m) in E. unfold receipts_of in E. by rewrite E.
Qed.

End Receipts.

(* ===================================================================== *)
(** * Collections *)
(* ===================================================================== *)

Section CollectionFacts.
Context {T : Type} `{Model T}.
Implicit Types (x y : T) (l : list T) (i : ObjectId).

Lemma findById_id i l x : findById i l = Some x -> doc_id x = i.
Proof.
  unfold findById. intros Hf. apply List.find_some in Hf as [_ Hx].
  by apply Nat.eqb_eq in Hx.
Qed.

Lemma findById_In i l x : findById i l = Some x -> List.In x l.
Proof. unfold findById. intros Hf. by apply List.find_some in Hf as [? _]. Qed.

Lemma findById_exists i l x :
  findById i l = Some x -> existsb (fun y => Nat.eqb (doc_id y) i) l = true.
Proof.
  intros Hf. apply existsb_exists. exists x. split.
  - by eapply findById_In.
  - apply Nat.eqb_eq. by eapply findById_id.
Qed.

Lemma findById_replace_same i l x y :
  findById i l = Some y -> doc_id x = i -> findById i (replace x l) = Some x.
Proof.
  unfold findById, replace. intros Hf <-.
  induction l as [|z l IH]; csimpl in *; [done|].
  destruct (Nat.eqb_spec (doc_id z) (doc_id x)) as [Heq|Hne].
  - by rewrite Nat.eqb_refl.
  - apply Nat.eqb_neq in Hne. rewrite Hne. by apply IH.
Qed.

Lemma findById_replace_other i l x :
  doc_id x <> i -> findById i (replace x l) = findById i l.
Proof.
  unfold findById, replace. intros Hne.
  induction l as [|z l IH]; csimpl; [done|].
  destruct (Nat.eqb_spec (doc_id z) (doc_id x)) as [Heq|Hne'].
  - apply Nat.eqb_neq in Hne. rewrite Hne.
    assert (Nat.eqb (doc_id z) i = false) as ->; [|done].
    by rewrite Heq.
  - by rewrite IH.
Qed.

Lemma upsert_found l x y :
  findById (doc_id x) l = Some y -> upsert x l = replace x l.
Proof. intros Hf. unfold upsert. by rewrite (findById_exists _ _ _ Hf). Qed.

Lemma upsert_new l x :
  Forall (fun y => doc_id y <> doc_id x) l -> upsert x l = l ++ [x].
Proof.
  intros Hall. unfold upsert.
  destruct (existsb _ l) eqn:E; [|done].
  apply existsb_exists in E as (y & Hin & Hy). apply Nat.eqb_eq in Hy.
  rewrite Forall_forall in Hall. apply list_elem_of_In in Hin.
  by destruct (Hall y Hin).
Qed.

Lemma replace_length l x : length (replace x l) = length l.
Proof. unfold replace. by rewrite length_fmap. Qed.

Lemma replace_ids l x : doc_id <$> replace x l = doc_id <$> l.
Proof.
  unfold replace. rewrite <- list_fmap_compose. apply list_fmap_ext.
  intros ? z _. simpl. by destruct (Nat.eqb_spec (doc_id z) (doc_id x)).
Qed.

Lemma find_replace_dropped (q : list (list string * Cond))
    (z' : T) (coll : list T) :
  selects q z' = false ->
  find q (replace z' coll) =
  List.filter (fun z => negb (Nat.eqb (doc_id z) (doc_id z'))) (find q coll).
Proof.
  intros Hsel. unfold find, replace.
  induction coll as [|z l IH]; [done|].
  rewrite fmap_cons. cbn [List.filter].
  destruct (Nat.eqb_spec (doc_id z) (doc_id z')) as [Heq|Hne].
  - rewrite Hsel. destruct (selects q z); cbn [List.filter]; [|exact IH].
    rewrite Heq, Nat.eqb_refl. cbn [negb]. exact IH.
  - destruct (selects q z); cbn [List.filter]; [|exact IH].
    apply Nat.eqb_neq in Hne. rewrite Hne. cbn [negb]. by rewrite IH.
Qed.

Lemma replace_fmap_same {B} (f : T -> B) (z z0 : T) (coll : list T) :
  List.In z0 coll -> doc_id z = doc_id z0 ->
  NoDup (doc_id <$> coll) -> f z = f z0 ->
  f <$> replace z coll = f <$> coll.
Proof.
  intros Hin Hid Hnd Hf. unfold replace.
  rewrite <- list_fmap_compose. apply list_fmap_ext. intros i x Hx. simpl.
  destruct (Nat.eqb_spec (doc_id x) (doc_id z)) as [Heq|Hne]; [|done].
  assert (x = z0) as ->; [|done].
  apply list_elem_of_In, list_elem_of_lookup in Hin as [j Hj].
  assert (i = j) as ->; [|congruence].
  eapply NoDup_lookup; [exact Hnd| |].
  - rewrite list_lookup_fmap, Hx. reflexivity.
  - rewrite list_lookup_fmap, Hj. simpl. congruence.
Qed.

End CollectionFacts.

Ltac run_monad :=
  unfold exec, result, bind, ret, throw, try_catch, get, modify, lift in *;
  simpl in *.

Section ReadRoute.

Lemma validate_set_readBy rs m :
  Message.validate (Message.set_readBy rs m) = Message.validate m.
Proof. reflexivity. Qed.

Lemma isReadBy_set_updatedAt d m u :
  Message.isReadBy (Message.set_updatedAt d m) u = Message.isReadBy m u.
Proof. reflexivity. Qed.

Lemma findById_push_readBy i now id r (coll : list Message.t) :
  findById i (Messages.push_readBy now id r coll)
  = (fun m => if Nat.eqb (Message._id m) id
              then Message.set_updatedAt now
                     (Message.set_readBy (Message.readBy m ++ [r]) m)
              else m) <$> findById i coll.
Proof.
  unfold findById, Messages.push_readBy.
  induction coll as [|x coll IH]; [done|].
  rewrite fmap_cons. cbn [List.find].
  assert (doc_id (if Nat.eqb (Message._id x) id
                  then Message.set_updatedAt now
                         (Message.set_readBy (Message.readBy x ++ [r]) x)
                  else x) = doc_id x) as -> by (by destruct (Nat.eqb _ id)).
  destruct (Nat.eqb (doc_id x) i); [done|exact IH].
Qed.

Lemma push_readBy_replace now id r (coll : list Message.t) m :
  NoDup (Message._id <$> coll) -> findById id coll = Some m ->
  Messages.push_readBy now id r coll
  = replace (Message.set_updatedAt now
               (Message.set_readBy (Message.readBy m ++ [r]) m)) coll.
Proof.
  intros Hnd Hm. unfold Messages.push_readBy, replace.
  apply list_fmap_ext. intros k x Hk. cbn [doc_id Message.model Message._id
    Message.set_updatedAt Message.set_readBy].
  pose proof (findById_id _ _ _ Hm) as Hid. simpl in Hid. rewrite Hid.
  destruct (Nat.eqb_spec (Message._id x) id) as [Heq|]; [|done].
  assert (x = m) as ->; [|done].
  apply findById_In, list_elem_of_In, list_elem_of_lookup in Hm as [j Hj].
  assert (k = j) as ->; [|congruence].
  eapply NoDup_lookup; [exact Hnd| |]; rewrite list_lookup_fmap.
  - by rewrite Hk.
  - rewrite Hj. simpl. congruence.
Qed.

(** What [POST /api/messages/:id/read] writes, if anything. *)
Lemma read_cases now1 me id (d : DB) :
  (forall now, exec (Messages.read now me id) d = d) \/
  exists m, findById id (messages d) = Some m /\
    is_Some (findOne (Conversation.memberQuery (Message.conversation m) me)
                     (conversations d)) /\
    Message.isReadBy m me = false /\
    Message.validate m = None /\
    exec (Messages.read now1 me id) d
    = set_messages (Messages.push_readBy now1 id (Message.mkReceipt me now1)
                                         (messages d)) d.
Proof.
  unfold Messages.read, Messages.markAsRead. run_monad.
  destruct (findById id (messages d)) as [m|] eqn:Hm; simpl; [|by left].
  destruct (findOne _ (conversations d)) as [c|] eqn:Hc; simpl; [|by left].
  unfold Message.markAsRead.
  destruct (existsb _ (Message.readBy m)) eqn:Hread; simpl; [by left|].
  destruct (Message.validate m) eqn:Hv.
  - left. intros now. by rewrite validate_set_readBy, Hv.
  - right. exists m. split_and!; [done|by eexists|exact Hread|done|].
    rewrite validate_set_readBy, Hv.
    run_monad. pose proof (findById_id _ _ _ Hm) as Hid0. simpl in Hid0.
    by rewrite Hid0.
Qed.

(** [POST /api/messages/:id/read] twice leaves the store as once. *)
Lemma read_twice now1 now2 me id (d : DB) :
  exec (Messages.read now2 me id) (exec (Messages.read now1 me id) d)
  = exec (Messages.read now1 me id) d.
Proof.
  destruct (read_cases now1 me id d) as [Hsame|(m & Hm & [c Hc] & Hread & Hv & ->)].
  - by rewrite !Hsame.
  - unfold Messages.read, Messages.markAsRead. run_monad.
    rewrite findById_push_readBy, Hm. simpl.
    pose proof (findById_id _ _ _ Hm) as Hid0. simpl in Hid0.
    rewrite Hid0, Nat.eqb_refl. simpl. rewrite Hc. simpl.
    unfold Message.markAsRead. simpl.
    by rewrite existsb_app; simpl; rewrite Nat.eqb_refl, orb_true_r.
Qed.

End ReadRoute.

(** Marks that follow one another, each on the document as the one before
    left it. Take any message the program can hold: a new message after
    any operations [ops0]. Marking it read by [u] leaves exactly one
    receipt of [u]; whatever operations follow (marking again by [u] or by
    others, edits, soft deletion), the receipts of [u] are that same one,
    marking by [u] again saves nothing, and receipts are only ever
    appended. The read route called twice leaves the store as called
    once. *)
Lemma markAsRead_idempotent
    (id conv snd : ObjectId) (text ty : string) (reply : option ObjectId)
    (now0 : Date) (ops0 : list MessageOp)
    (u : ObjectId) (now : Date) (ops : list MessageOp) (now' : Date)
    (d : DB) (me mid : ObjectId) (now1 now2 : Date) :
  let m := apply_ops ops0 (Message.new id now0 conv snd text ty reply) in
  let m1 := apply_op (MarkAsRead now u) m in
  let m2 := apply_ops ops m1 in
  length (receipts_of u m1) = 1%nat /\
  receipts_of u m2 = receipts_of u m1 /\
  Message.markAsRead now' u m2 = None /\
  Message.readBy m `prefix_of` Message.readBy m1 /\
  Message.readBy m1 `prefix_of` Message.readBy m2 /\
  exec (Messages.read now2 me mid) (exec (Messages.read now1 me mid) d)
  = exec (Messages.read now1 me mid) d.
Proof.
  intros m m1 m2.
  assert (length (receipts_of u m) <= 1)%nat as Hle.
  { subst m. apply apply_ops_receipts_le. simpl. lia. }
  pose proof (isReadBy_after_mark now u m) as Hread. fold m1 in Hread.
  destruct (apply_ops_receipts_kept ops u m1 Hread) as [Hkept Hread2].
  fold m2 in Hkept, Hread2.
  split_and!.
  - by apply mark_gives_one_receipt.
  - exact Hkept.
  - unfold Message.markAsRead. unfold Message.isReadBy in Hread2.
    by rewrite Hread2.
  - apply apply_op_prefix.
  - apply apply_ops_prefix.
  - apply read_twice.
Qed.
(* ===================================================================== *)
(** * Trimming *)
(* ===================================================================== *)

Section Trim.

Lemma trimStart_no_lead s : no_lead (trimStart s).
Proof.
  induction s as [|c r IH]; simpl; [done|].
  destruct (is_space c) eqn:E; [exact IH|exact E].
Qed.

Lemma trimStart_id s : no_lead s -> trimStart s = s.
Proof. destruct s as [|c r]; simpl; [done|]. by intros ->. Qed.

Lemma trimEnd_no_lead s : no_lead s -> no_lead (trimEnd s).
Proof.
  destruct s as [|c r]; simpl; [done|]. intros Hc.
  destruct (trimEnd r); simpl; [by rewrite Hc|done].
Qed.

Lemma trimEnd_idem s : trimEnd (trimEnd s) = trimEnd s.
Proof.
  induction s as [|c r IH]; simpl; [done|].
  destruct (trimEnd r) as [|c' r'] eqn:E.
  - destruct (is_space c) eqn:Ec; simpl; [done|]. by rewrite Ec.
  - simpl in *. by rewrite IH.
Qed.

Lemma trim_idem s : trim (trim s) = trim s.
Proof.
  unfold trim.
  rewrite (trimStart_id (trimEnd (trimStart s)))
    by apply trimEnd_no_lead, trimStart_no_lead.
  apply trimEnd_idem.
Qed.

Lemma str_len_0 s : Nat.eqb (str_len s) 0 = true <-> s = "".
Proof. destruct s; simpl; split; done. Qed.

End Trim.

(* ===================================================================== *)
(** * Editing a message *)
(* ===================================================================== *)

Section Edit.

Lemma own_selects id me m :
  selects (Message.ownQuery id me) m =
  Nat.eqb (Message._id m) id && Nat.eqb (Message.sender m) me
  && negb (Message.isDeleted m).
Proof.
  unfold selects, matches, Message.ownQuery. simpl.
  rewrite !cond_eq_id, cond_eq_bool, andb_true_r, !andb_assoc.
  by destruct (Message.isDeleted m).
Qed.

Lemma findOne_own id me (coll : list Message.t) m :
  findOne (Message.ownQuery id me) coll = Some m ->
  List.In m coll /\ Message._id m = id /\ Message.sender m = me /\
  Message.isDeleted m = false.
Proof.
  unfold findOne. intros Hf. apply List.find_some in Hf as [Hin Hsel].
  rewrite own_selects, !andb_true_iff, negb_true_iff, !Nat.eqb_eq in Hsel.
  tauto.
Qed.

Lemma findOne_findById {T} `{Model T} q (coll : list T) x :
  NoDup (doc_id <$> coll) ->
  findOne q coll = Some x -> findById (doc_id x) coll = Some x.
Proof.
  unfold findOne, findById. intros Hnd Hf.
  apply List.find_some in Hf as [Hin _].
  induction coll as [|y coll IH]; csimpl in *; [done|].
  apply NoDup_cons in Hnd as [Hy Hnd].
  destruct (Nat.eqb_spec (doc_id y) (doc_id x)) as [Heq|Hne].
  - destruct Hin as [->|Hin]; [done|]. exfalso. apply Hy.
    rewrite Heq. apply list_elem_of_fmap. exists x. split; [done|].
    by apply list_elem_of_In.
  - destruct Hin as [->|Hin]; [done|]. by apply IH.
Qed.

Lemma validate_edit now text m :
  Message.validate m = None ->
  text <> "" -> (str_len text <= 2000)%nat -> trim text = text ->
  Message.validate (Message.editContent now text m) = None.
Proof.
  unfold Message.validate. simpl. intros Hv Hne Hlen ->.
  destruct (Nat.eqb (str_len (Message.content m)) 0); [done|].
  destruct (Nat.ltb 2000 (str_len (Message.content m))); [done|].
  destruct (negb _) eqn:Ety; [done|].
  assert (Nat.eqb (str_len text) 0 = false) as ->.
  { apply not_true_is_false. by rewrite str_len_0. }
  assert (Nat.ltb 2000 (str_len text) = false) as ->; [|done].
  apply Nat.ltb_ge. lia.
Qed.

(** C8, as the code has it. For a message found by the ownership query (the
    caller's own, not soft-deleted) and new content that is not blank and has
    at most 2000 characters once trimmed: the edit is accepted exactly when at
    most 15 minutes have passed since creation. An accepted edit stores the
    trimmed content, [isEdited] and [editedAt], and what it stores does not
    depend on the content it replaces. *)
Theorem edit_within_window (d : DB) (now : Date) (me id : ObjectId)
    (content : string) (m : Message.t) :
  findOne (Message.ownQuery id me) (messages d) = Some m ->
  Message.validate m = None ->
  trim content <> "" ->
  (str_len (trim content) <= 2000)%nat ->
  let elapsed := now - Message.createdAt m in
  let m' := Message.set_updatedAt now (Message.editContent now (trim content) m) in
  (elapsed <= Messages.editWindow ->
     status <$> answer (Messages.edit now me id (Some content)) d = Some 200%nat /\
     exec (Messages.edit now me id (Some content)) d
     = set_messages (replace m' (messages d)) d /\
     Message.content m' = trim content /\
     Message.isEdited m' = true /\
     Message.editedAt m' = Some now /\
     forall old, Message.editContent now (trim content) (Message.set_content old m)
                 = Message.editContent now (trim content) m) /\
  (Messages.editWindow < elapsed ->
     status <$> answer (Messages.edit now me id (Some content)) d = Some 400%nat /\
     exec (Messages.edit now me id (Some content)) d = d).
Proof.
  intros Hfind Hvalid Hblank Hlen elapsed m'.
  assert (Nat.eqb (str_len content) 0 || Nat.eqb (str_len (trim content)) 0 = false)
    as Hguard.
  { apply orb_false_iff. split; apply not_true_is_false; rewrite str_len_0.
    - intros ->. by apply Hblank.
    - done. }
  pose proof (findOne_own _ _ _ _ Hfind) as (Hin & Hid & Hsender & Hdel).
  split.
  - intros Hwin. unfold answer, Messages.edit. run_monad. rewrite Hguard, Hfind. simpl.
    rewrite bool_decide_eq_false_2 by (subst elapsed; lia).
    unfold save_message.
    rewrite validate_edit; [|done|done|done|apply trim_idem]. run_monad.
    assert (upsert m' (messages d) = replace m' (messages d)) as Hup.
    { unfold upsert. replace (existsb _ (messages d)) with true; [done|].
      symmetry. apply existsb_exists. exists m. split; [done|].
      simpl. apply Nat.eqb_refl. }
    split_and!; try done.
    + subst m'. by rewrite Hup.
    + simpl. apply trim_idem.
  - intros Hlate. unfold answer, Messages.edit. run_monad. rewrite Hguard, Hfind. simpl.
    by rewrite bool_decide_eq_true_2 by (subst elapsed; lia).
Qed.

End Edit.
(* ===================================================================== *)
(** * Soft deletion and the listing *)
(* ===================================================================== *)

Section SoftDelete.

Implicit Types (m x y : Message.t) (l : list Message.t).

Lemma listing_selects c m :
  selects (Message.listingQuery c) m =
  Nat.eqb (Message.conversation m) c && negb (Message.isDeleted m).
Proof.
  unfold selects, matches, Message.listingQuery. simpl.
  rewrite cond_eq_id, cond_eq_bool, andb_true_r.
  by destruct (Message.isDeleted m).
Qed.

Lemma insert_desc_head m l :
  Forall (fun y => Message.createdAt y <= Message.createdAt m) l ->
  Message.insert_desc m l = m :: l.
Proof.
  destruct l as [|x l]; simpl; [done|]. intros Hall.
  apply Forall_cons in Hall as [Hx _]. by rewrite bool_decide_eq_true_2.
Qed.

Lemma insert_desc_elem_of m l y :
  y ∈ Message.insert_desc m l <-> y = m \/ y ∈ l.
Proof.
  induction l as [|x l IH]; simpl.
  - by rewrite elem_of_cons.
  - destruct (bool_decide _); [by rewrite elem_of_cons|].
    rewrite !elem_of_cons, IH. tauto.
Qed.

Lemma insert_desc_sorted m l :
  StronglySorted newer_first l -> StronglySorted newer_first (Message.insert_desc m l).
Proof.
  induction 1 as [|x l Hs IH Hx]; simpl.
  - repeat constructor.
  - destruct (bool_decide_reflect (Message.createdAt x <= Message.createdAt m))
      as [Hle|Hgt].
    + constructor; [by constructor|].
      constructor; [exact Hle|].
      eapply Forall_impl; [exact Hx|]. unfold newer_first. intros; lia.
    + constructor; [exact IH|].
      apply Forall_forall. intros y Hy. apply insert_desc_elem_of in Hy as [->|Hy].
      * unfold newer_first. lia.
      * rewrite Forall_forall in Hx. by apply Hx.
Qed.

Lemma sort_desc_sorted l : StronglySorted newer_first (Message.sort_desc l).
Proof.
  induction l as [|m l IH]; simpl; [constructor|]. by apply insert_desc_sorted.
Qed.

Lemma filter_insert_desc (p : Message.t -> bool) m l :
  StronglySorted newer_first l ->
  List.filter p (Message.insert_desc m l) =
  if p m then Message.insert_desc m (List.filter p l) else List.filter p l.
Proof.
  induction 1 as [|x l Hs IH Hx]; simpl.
  - by destruct (p m).
  - destruct (bool_decide_reflect (Message.createdAt x <= Message.createdAt m))
      as [Hle|Hgt]; simpl.
    + destruct (p m) eqn:Em; [|done].
      symmetry. apply (insert_desc_head m (List.filter p (x :: l))).
      apply Forall_forall. intros y Hy.
      apply list_elem_of_In, List.filter_In in Hy as [Hy _].
      destruct Hy as [<-|Hy]; [done|].
      rewrite Forall_forall in Hx. apply list_elem_of_In in Hy.
      specialize (Hx y Hy). unfold newer_first in Hx. lia.
    + rewrite IH. destruct (p x) eqn:Ex, (p m) eqn:Em; simpl; try done.
      by rewrite bool_decide_eq_false_2.
Qed.

(** Sorting and filtering commute: dropping documents does not reorder the
    others. *)
Lemma filter_sort_desc (p : Message.t -> bool) l :
  List.filter p (Message.sort_desc l) = Message.sort_desc (List.filter p l).
Proof.
  induction l as [|m l IH]; simpl; [done|].
  rewrite filter_insert_desc by apply sort_desc_sorted.
  rewrite IH. by destruct (p m).
Qed.

Lemma validate_softDelete now m :
  Message.validate m = None -> Message.validate (Message.softDelete now m) = None.
Proof.
  unfold Message.validate. simpl.
  destruct (Nat.eqb (str_len (Message.content m)) 0); [done|].
  by destruct (Nat.ltb 2000 (str_len (Message.content m))).
Qed.

(** C7, as the code has it. Soft-deleting a message keeps its row where it
    was, with its [_id] and creation time; the JSON view of the row shows
    the placeholder and has no [fileUrl], [fileName] or [fileSize]. The
    message listing leaves soft-deleted rows out: after the deletion the
    listing of every conversation is the former listing without that
    message, the others in their former order. *)
Theorem softDelete_keeps_row_hides_message (d : DB) (now : Date)
    (me id : ObjectId) (m : Message.t) :
  NoDup (Message._id <$> messages d) ->
  findOne (Message.ownQuery id me) (messages d) = Some m ->
  Message.validate m = None ->
  let d' := exec (Messages.delete now me id) d in
  let m' := Message.set_updatedAt now (Message.softDelete now m) in
  messages d' = replace m' (messages d) /\
  findById id (messages d') = Some m' /\
  Message._id <$> messages d' = Message._id <$> messages d /\
  Message.createdAt <$> messages d' = Message.createdAt <$> messages d /\
  get_field "content" (Message.toJSON m') = Some (VStr Message.placeholder) /\
  ("fileUrl" ∉ keys (Message.toJSON m')) /\
  ("fileName" ∉ keys (Message.toJSON m')) /\
  ("fileSize" ∉ keys (Message.toJSON m')) /\
  (forall c, listing c d' =
             List.filter (fun x => negb (Nat.eqb (Message._id x) id)) (listing c d)) /\
  (forall c page limit served,
     Message.getConversationMessages c page limit (messages d') = inr served ->
     m' ∉ served).
Proof.
  intros Hnd Hfind Hvalid d' m'.
  pose proof (findOne_own _ _ _ _ Hfind) as (Hin & Hid & Hsender & Hdel).
  assert (messages d' = replace m' (messages d)) as Hd'.
  { subst d'. unfold Messages.delete. run_monad. rewrite Hfind. simpl.
    unfold save_message. rewrite validate_softDelete by done. run_monad.
    unfold upsert. replace (existsb _ (messages d)) with true; [done|].
    symmetry. apply existsb_exists. exists m. split; [done|].
    simpl. apply Nat.eqb_refl. }
  assert (forall c, selects (Message.listingQuery c) m' = false) as Hout.
  { intros c. rewrite listing_selects. simpl. apply andb_false_r. }
  assert (forall c, listing c d' =
             List.filter (fun x => negb (Nat.eqb (Message._id x) id)) (listing c d))
    as Hlisting.
  { intros c. unfold listing. rewrite Hd', filter_sort_desc.
    rewrite (find_replace_dropped _ m') by apply Hout.
    simpl. by rewrite Hid. }
  split_and!; try done.
  - rewrite Hd'. apply findById_replace_same with (y := m); [|by simpl].
    rewrite <- Hid.
    exact (findOne_findById (Message.ownQuery id me) (messages d) m Hnd Hfind).
  - rewrite Hd'. exact (replace_ids (messages d) m').
  - rewrite Hd'. by apply (replace_fmap_same Message.createdAt m' m).
  - subst m'. not_a_key.
  - subst m'. not_a_key.
  - subst m'. not_a_key.
  - intros c page limit served Hserved Hm'.
    unfold Message.getConversationMessages in Hserved.
    fold (listing c d') in Hserved.
    destruct ((page - 1) * limit <? 0)%Z; [done|]. injection Hserved as <-.
    assert (m' ∈ listing c d') as Hl.
    { unfold Message.limit_to in Hm'.
      destruct (limit =? 0)%Z.
      - by eapply subseteq_drop.
      - by eapply subseteq_drop, subseteq_take. }
    rewrite Hlisting in Hl.
    apply list_elem_of_In, List.filter_In in Hl as [_ Hl].
    simpl in Hl. by rewrite Hid, Nat.eqb_refl in Hl.
Qed.

End SoftDelete.
(* ===================================================================== *)
(** * Computations that keep an invariant *)
(* ===================================================================== *)

Section Preserves.
Context {S : Type} (P : S -> Prop).

Lemma preserves_ret {A} (a : A) : preserves P (ret a).
Proof. by intros s. Qed.

Lemma preserves_throw {A} (e : string) : preserves P (@throw S A e).
Proof. by intros s. Qed.

Lemma preserves_get : preserves P get.
Proof. by intros s. Qed.

Lemma preserves_bind {A B} (m : M S A) (k : A -> M S B) :
  preserves P m -> (forall a, preserves P (k a)) -> preserves P (bind m k).
Proof.
  intros Hm Hk s Hs. specialize (Hm s Hs). unfold exec, bind in *.
  destruct (m s) as [s' [e|a]]; simpl in *; [done|]. by apply Hk.
Qed.

Lemma preserves_try_catch {A} (m : M S A) (h : string -> M S A) :
  preserves P m -> (forall e, preserves P (h e)) -> preserves P (try_catch m h).
Proof.
  intros Hm Hh s Hs. specialize (Hm s Hs). unfold exec, try_catch in *.
  destruct (m s) as [s' [e|a]]; simpl in *; [|done]. by apply Hh.
Qed.

Lemma preserves_modify (f : S -> S) :
  (forall s, P s -> P (f s)) -> preserves P (modify f).
Proof. intros Hf s Hs. by apply Hf. Qed.

End Preserves.

Lemma preserves_lift {S} (proj : S -> DB) (inj : DB -> S -> S) (P : S -> Prop)
    (Q : DB -> Prop) {A} (m : M DB A) :
  (forall s, P s -> Q (proj s)) ->
  (forall s d, P s -> Q d -> P (inj d s)) ->
  preserves Q m -> preserves P (lift proj inj m).
Proof.
  intros Hproj Hinj Hm s Hs. unfold exec, lift.
  specialize (Hm (proj s) (Hproj s Hs)). unfold exec in Hm.
  destruct (m (proj s)) as [d r]. simpl in *. by apply Hinj.
Qed.

(** Walk through a handler: binds, catches and the branches of its tests. *)
Ltac preserves_step :=
  first
    [ apply preserves_ret
    | apply preserves_throw
    | apply preserves_get
    | apply preserves_bind; [|intros ?]
    | apply preserves_try_catch; [|intros ?]
    | match goal with
      | |- preserves _ (match ?x with _ => _ end) => destruct x eqn:?
      | |- preserves _ (if ?x then _ else _) => destruct x eqn:?
      | |- preserves _ (let '(_, _) := ?x in _) => destruct x eqn:?
      end ].

(* ===================================================================== *)
(** * The participant constraint *)
(* ===================================================================== *)

Section Participants.

Lemma save_error_participants_ok c :
  Conversation.save_error c = None -> Conversation.participants_ok c.
Proof.
  unfold Conversation.save_error, Conversation.validate, Conversation.pre_save,
    Conversation.participants_ok.
  intros Hsave. split; intros Hty; rewrite Hty in Hsave; simpl in Hsave.
  - destruct (from_option _ false (Conversation.name c)); [done|].
    destruct (from_option _ false (Conversation.description c)); [done|].
    destruct (Nat.eqb_spec (length (Conversation.participants c)) 2); [done|].
    done.
  - destruct (from_option _ false (Conversation.name c)); [done|].
    destruct (from_option _ false (Conversation.description c)); [done|].
    destruct (Nat.ltb_spec (length (Conversation.participants c)) 2); [done|].
    done.
Qed.

Lemma upsert_Forall {T} `{Model T} (Q : T -> Prop) (x : T) (coll : list T) :
  Q x -> Forall Q coll -> Forall Q (upsert x coll).
Proof.
  intros Hx Hall. unfold upsert, replace. destruct (existsb _ coll).
  - apply Forall_fmap. eapply Forall_impl; [exact Hall|].
    intros y Hy. simpl. by destruct (Nat.eqb _ _).
  - apply Forall_app. split; [done|by constructor].
Qed.

(** [save()] is where the constraint is enforced: whatever it writes meets it. *)
Lemma save_conversation_holds now c :
  preserves participants_hold (save_conversation now c).
Proof.
  intros d Hd. unfold save_conversation.
  destruct (Conversation.save_error c) eqn:Hsave; [done|].
  unfold exec, bind, modify, ret; simpl. unfold participants_hold in *. simpl.
  apply upsert_Forall; [|done].
  by apply (save_error_participants_ok (Conversation.set_updatedAt now c)).
Qed.

Lemma save_message_holds now m : preserves participants_hold (save_message now m).
Proof.
  intros d Hd. unfold save_message.
  by destruct (Message.validate m); unfold exec, bind, modify, ret; simpl.
Qed.

Lemma fresh_holds : preserves participants_hold fresh.
Proof. by intros d Hd. Qed.

Ltac holds :=
  repeat first
    [ apply save_conversation_holds
    | apply save_message_holds
    | apply fresh_holds
    | preserves_step ].

Lemma create_holds now me participants type name description :
  preserves participants_hold
    (Conversations.create now me participants type name description).
Proof. unfold Conversations.create. holds. Qed.

Lemma leave_holds now me id :
  preserves participants_hold (Conversations.leave now me id).
Proof. unfold Conversations.leave. holds. Qed.

Lemma addParticipant_holds now me id userId :
  preserves participants_hold (Conversations.addParticipant now me id userId).
Proof. unfold Conversations.addParticipant. holds. Qed.

(** The loop of [addMembers] only appends participants. *)
Lemma push_new_grows (us : list User.t) (c : Conversation.t) :
  let r := GroupMembers.push_new us c in
  Conversation._id r.1 = Conversation._id c /\
  Conversation.type r.1 = Conversation.type c /\
  Conversation.participants r.1
  = Conversation.participants c ++ (User._id <$> r.2).
Proof.
  revert c. induction us as [|u us IH]; intros c; simpl.
  - by rewrite app_nil_r.
  - destruct (existsb _ (Conversation.participants c)); [apply IH|].
    specialize (IH (Conversation.set_participants
                      (Conversation.participants c ++ [User._id u]) c)).
    destruct (GroupMembers.push_new us _) as [c' added]. simpl in *.
    destruct IH as (-> & -> & ->). by rewrite <- app_assoc.
Qed.

Lemma populated_shorter (d : DB) (c : Conversation.t) :
  (length (GroupMembers.populated d c) <= length (Conversation.participants c))%nat.
Proof. apply List.filter_length_le. Qed.

(** The save of a group after a push: the hook passed on the array in
    memory, and the array that is stored is no shorter. *)
Lemma save_pushed_holds now (c written : Conversation.t) :
  Conversation.type c = "group" ->
  Conversation.type written = "group" ->
  (length (Conversation.participants c)
   <= length (Conversation.participants written))%nat ->
  preserves participants_hold (GroupMembers.save_pushed now c written).
Proof.
  intros Hty Hty' Hlen d Hd. unfold GroupMembers.save_pushed.
  destruct (Conversation.save_error c) eqn:Hsave; [done|].
  unfold exec, modify; simpl. unfold participants_hold in *. simpl.
  apply upsert_Forall; [|done].
  destruct (save_error_participants_ok c Hsave) as [_ Hgroup].
  specialize (Hgroup Hty).
  split; simpl; intros Hw; [congruence|lia].
Qed.

Lemma addMembers_holds now me id userIds :
  preserves participants_hold (GroupMembers.addMembers now me id userIds).
Proof.
  unfold GroupMembers.addMembers.
  apply preserves_try_catch; [|intros ?; apply preserves_ret].
  destruct (Nat.eqb (length userIds) 0); [apply preserves_ret|].
  apply preserves_bind; [apply preserves_get|]. intros d.
  destruct (findById id (conversations d)) as [stored|]; [|apply preserves_ret].
  destruct (findById _ (users d)) as [creator|]; [|apply preserves_throw].
  destruct (_ && _); [apply preserves_ret|].
  cbn [Conversation.type Conversation.set_participants].
  destruct (String.eqb_spec (Conversation.type stored) "group") as [Hty|];
    [|apply preserves_ret].
  cbn [negb].
  destruct (negb (Nat.eqb _ _)); [apply preserves_ret|].
  pose proof (push_new_grows (find (GroupMembers.activeQuery userIds) (users d))
                (Conversation.set_participants (GroupMembers.populated d stored)
                                               stored)) as Hgrow.
  destruct (GroupMembers.push_new _ _) as [c1 added]. simpl in Hgrow.
  destruct Hgrow as (Hid1 & Hty1 & Hps1).
  pose proof (populated_shorter d stored) as Hshort.
  apply preserves_bind; [|intros ?; apply preserves_ret].
  destruct (Nat.ltb 0 (length added)); [|apply preserves_ret].
  apply preserves_bind; [|intros _].
  { apply save_pushed_holds; [congruence|done|].
    simpl. rewrite Hps1, !length_app. lia. }
  apply preserves_bind; [apply fresh_holds|intros mid].
  apply preserves_bind; [apply save_message_holds|intros systemMessage].
  apply save_pushed_holds.
  - simpl. congruence.
  - by simpl.
  - simpl. rewrite Hps1, !length_app. lia.
Qed.

Lemma removeMember_holds now me id userId :
  preserves participants_hold (GroupMembers.removeMember now me id userId).
Proof. unfold GroupMembers.removeMember. holds. Qed.

Lemma save_error_wrong_count c :
  (Conversation.type c = "direct" /\ length (Conversation.participants c) <> 2%nat) \/
  (Conversation.type c = "group" /\ (length (Conversation.participants c) < 2)%nat) ->
  is_Some (Conversation.save_error c).
Proof.
  unfold Conversation.save_error, Conversation.pre_save.
  intros Hbad. destruct (Conversation.validate c); [by eexists|].
  destruct Hbad as [[-> Hlen]|[-> Hlen]]; simpl.
  - apply Nat.eqb_neq in Hlen. rewrite Hlen. by eexists.
  - apply Nat.ltb_lt in Hlen. rewrite Hlen. by eexists.
Qed.

(** Creation with the wrong number of participants stores nothing and
    answers with an error. *)
Lemma create_refuses_wrong_count (d : DB) now me participants type name description :
  let all := Conversations.new_Set (participants ++ [me]) in
  let call := Conversations.create now me participants type name description in
  (default "direct" type = "direct" /\ length all <> 2%nat) \/
  (default "direct" type = "group" /\ (length all < 2)%nat) ->
  conversations (exec call d) = conversations d /\
  exists r, answer call d = Some r /\ data r = None /\ (400 <= status r)%nat.
Proof.
  intros all call Hbad. subst call.
  destruct (save_error_wrong_count
              (Conversation.new (nextId d) now all (default "direct" type)
                                (trim <$> name) description me) Hbad) as [e He].
  unfold answer, Conversations.create.
  destruct (negb _); [split; [done|]; eexists; split_and!; [done..|simpl; lia]|].
  unfold save_conversation, fresh. fold all. run_monad.
  destruct Hbad as [[Ht Hlen]|[Ht Hlen]]; rewrite Ht in *;
    destruct all as [|p0 [|p1 [|p2 rest]]]; simpl in *; try done; try lia;
    (destruct (negb _);
     [split; [done|]; eexists; split_and!; [done..|simpl; lia]|]);
    simpl; rewrite He; simpl;
    (split; [done|]; eexists; split_and!; [done..|simpl; lia]).
Qed.

(** C6. [deleteUser] pulls the user out of every conversation with an
    update operator, past the [save] hook: after deleting alice, her direct
    conversation with bob is still stored, of type [direct], with bob as its
    only participant. *)
Theorem deleteUser_breaks_participants :
  let d := Sample.store0 in
  let d' := exec (AdminController.deleteUser 5000 1) d in
  participants_hold d /\
  status <$> answer (AdminController.deleteUser 5000 1) d = Some 200%nat /\
  exists c, findById 10%nat (conversations d') = Some c /\
            Conversation.type c = "direct" /\
            Conversation.participants c = [2%nat] /\
            ~ Conversation.participants_ok c /\
            ~ participants_hold d'.
Proof.
  split_and!.
  - unfold participants_hold. simpl.
    repeat constructor; simpl; intros; (done || lia).
  - reflexivity.
  - eexists. split; [vm_compute; reflexivity|].
    split_and!; try reflexivity.
    + intros [Hdirect _]. specialize (Hdirect eq_refl). simpl in Hdirect. lia.
    + unfold participants_hold. intros Hall. vm_compute in Hall.
      apply Forall_cons in Hall as [[Hdirect _] _].
      specialize (Hdirect eq_refl). simpl in Hdirect. lia.
Qed.

End Participants.
(* ===================================================================== *)
(** * Direct conversations are created once *)
(* ===================================================================== *)

Section DirectOnce.

Implicit Types (c : Conversation.t) (d : DB) (a b : ObjectId).

Lemma direct_selects a b c :
  selects (Conversation.directQuery a b) c =
  String.eqb (Conversation.type c) "direct"
  && (existsb (Nat.eqb a) (Conversation.participants c)
      && existsb (Nat.eqb b) (Conversation.participants c)).
Proof.
  unfold selects, matches, Conversation.directQuery. simpl.
  by rewrite cond_eq_str, !cond_eq_in_ids, !andb_true_r.
Qed.

Lemma direct_selects_sym a b c :
  selects (Conversation.directQuery a b) c = selects (Conversation.directQuery b a) c.
Proof. rewrite !direct_selects. f_equal. apply andb_comm. Qed.

Lemma findDirect_sym a b (coll : list Conversation.t) :
  Conversation.findDirectConversation a b coll =
  Conversation.findDirectConversation b a coll.
Proof.
  unfold Conversation.findDirectConversation, findOne.
  induction coll as [|c coll IH]; [done|].
  cbn [List.find]. by rewrite (direct_selects_sym a b c), IH.
Qed.

(** The query of [findDirectConversation] selects the direct
    conversations of the pair, and only those. *)
Lemma direct_selects_iff a b c :
  selects (Conversation.directQuery a b) c = true <-> direct_of a b c.
Proof.
  rewrite direct_selects, !andb_true_iff, String.eqb_eq, !existsb_eqb_elem_of,
    !bool_decide_eq_true. done.
Qed.

Lemma direct_count_query a b d :
  direct_count a b d
  = countDocuments (Conversation.directQuery a b) (conversations d).
Proof.
  unfold direct_count, countDocuments, find. symmetry.
  apply length_filter_ext. intros c. apply direct_selects_iff.
Qed.

Lemma direct_count_sym a b d : direct_count a b d = direct_count b a d.
Proof.
  rewrite !direct_count_query. unfold countDocuments, find. f_equal.
  apply List.filter_ext. intros c. apply direct_selects_sym.
Qed.

Lemma set_from_spec seen xs x :
  x ∈ Conversations.set_from seen xs <-> x ∈ xs /\ x ∉ seen.
Proof.
  revert seen. induction xs as [|y xs IH]; intros seen; simpl.
  - split; [by intros ?%elem_of_nil|by intros [?%elem_of_nil _]].
  - rewrite existsb_eqb_elem_of. case_bool_decide as Hy.
    + rewrite IH, elem_of_cons. split; [tauto|]. intros [[->|?] ?]; tauto.
    + rewrite !elem_of_cons, IH, elem_of_cons. split.
      * intros [->|[? ?]]; tauto.
      * intros [[->|?] ?]; [by left|]. destruct (decide (x = y)); [by left|tauto].
Qed.

Lemma set_from_NoDup seen xs : NoDup (Conversations.set_from seen xs).
Proof.
  revert seen. induction xs as [|y xs IH]; intros seen; simpl; [constructor|].
  destruct (existsb _ seen); [apply IH|].
  constructor; [|apply IH]. rewrite set_from_spec, elem_of_cons. tauto.
Qed.

(** [[...new Set(xs)]] has the elements of [xs], each once. *)
Lemma new_Set_spec xs x : x ∈ Conversations.new_Set xs <-> x ∈ xs.
Proof.
  unfold Conversations.new_Set. rewrite set_from_spec.
  split; [tauto|]. intros ?. split; [done|apply not_elem_of_nil].
Qed.

(** A list that holds two distinct elements, each once, and nothing else. *)
Lemma pair_list (l : list ObjectId) a b :
  a <> b -> NoDup l -> (forall p, p ∈ l <-> p = a \/ p = b) ->
  l = [a; b] \/ l = [b; a].
Proof.
  intros Hab Hnd Hl. apply Permutation_length_2_inv.
  symmetry. apply NoDup_Permutation; [done| |].
  - apply NoDup_cons. split; [|apply NoDup_singleton].
    by intros ->%list_elem_of_singleton.
  - intros p. rewrite Hl, !elem_of_cons, elem_of_nil. tauto.
Qed.

Lemma pair_request_new_Set a b me ps :
  a <> b -> pair_request a b me ps ->
  Conversations.new_Set (ps ++ [me]) = [a; b] \/
  Conversations.new_Set (ps ++ [me]) = [b; a].
Proof.
  intros Hab Hreq. apply pair_list; [done|apply set_from_NoDup|].
  intros p. rewrite new_Set_spec. apply Hreq.
Qed.

(** Two distinct members of a list of length two are its members. *)
Lemma two_members (l : list ObjectId) a b :
  a <> b -> a ∈ l -> b ∈ l -> length l = 2%nat ->
  forall p, p ∈ l <-> p = a \/ p = b.
Proof.
  intros Hab Ha Hb Hlen p.
  destruct l as [|x [|y [|? ?]]]; simpl in Hlen; try lia.
  rewrite !elem_of_cons, !elem_of_nil in *.
  destruct Ha as [->|[->|[]]], Hb as [->|[->|[]]]; try done; tauto.
Qed.

Lemma ids_selects (ids : list ObjectId) (u : User.t) :
  selects (Conversations.idsQuery ids) u = existsb (Nat.eqb (User._id u)) ids.
Proof.
  unfold selects, matches, Conversations.idsQuery. simpl. rewrite andb_true_r.
  induction ids as [|i ids IH]; [done|].
  rewrite fmap_cons. cbn [existsb]. by rewrite IH, cond_eq_id.
Qed.

Lemma count_user_id i (us : list User.t) :
  NoDup (User._id <$> us) ->
  length (List.filter (fun u => Nat.eqb (User._id u) i) us)
  = if bool_decide (i ∈ User._id <$> us) then 1%nat else 0%nat.
Proof.
  induction us as [|x us IH]; intros Hnd.
  - rewrite bool_decide_eq_false_2; [done|]. rewrite fmap_nil. apply not_elem_of_nil.
  - rewrite fmap_cons in *. apply NoDup_cons in Hnd as [Hx Hnd].
    specialize (IH Hnd). cbn [List.filter].
    destruct (Nat.eqb_spec (User._id x) i) as [Heq|Hne].
    + cbn [length]. rewrite IH, <- Heq.
      rewrite (bool_decide_eq_false_2 _ Hx).
      rewrite bool_decide_eq_true_2; [done|by left].
    + rewrite IH. apply (f_equal (fun b : bool => if b then 1%nat else 0%nat)).
      apply bool_decide_ext. rewrite elem_of_cons.
      split; [by right|]. by intros [?|?]; [congruence|].
Qed.

Lemma filter_or_length {A} (p q : A -> bool) (l : list A) :
  (forall x, p x = true -> q x = true -> False) ->
  length (List.filter (fun x => p x || q x) l)
  = (length (List.filter p l) + length (List.filter q l))%nat.
Proof.
  intros Hpq. induction l as [|x l IH]; simpl; [done|].
  specialize (Hpq x).
  destruct (p x), (q x); simpl; rewrite IH; first [lia | by destruct Hpq].
Qed.

Lemma findById_elem_of i (us : list User.t) :
  is_Some (findById i us) -> i ∈ User._id <$> us.
Proof.
  intros [u Hu]. apply list_elem_of_fmap. exists u. split.
  - symmetry. apply (findById_id _ _ _ Hu).
  - apply list_elem_of_In. by eapply findById_In.
Qed.

(** Both users of a pair are found by the [$in] query on their ids. *)
Lemma pair_found a b (us : list User.t) :
  a <> b -> NoDup (User._id <$> us) ->
  is_Some (findById a us) -> is_Some (findById b us) ->
  length (find (Conversations.idsQuery [a; b]) us) = 2%nat.
Proof.
  intros Hab Hnd Ha Hb. unfold find.
  rewrite (List.filter_ext _ (fun u => Nat.eqb (User._id u) a || Nat.eqb (User._id u) b)).
  2:{ intros u. rewrite ids_selects. simpl. by rewrite orb_false_r. }
  rewrite filter_or_length.
  2:{ intros u Hua Hub. apply Nat.eqb_eq in Hua, Hub. congruence. }
  rewrite !count_user_id by done.
  by rewrite !bool_decide_eq_true_2 by by apply findById_elem_of.
Qed.

Lemma find_app_none {A} (p : A -> bool) (l : list A) (x : A) :
  List.find p l = None -> p x = true -> List.find p (l ++ [x]) = Some x.
Proof.
  induction l as [|y l IH]; simpl; intros Hnone Hx; [by rewrite Hx|].
  destruct (p y); [done|]. by apply IH.
Qed.

Lemma filter_find_none {A} (p : A -> bool) (l : list A) :
  List.find p l = None -> List.filter p l = [].
Proof.
  induction l as [|y l IH]; simpl; [done|].
  destruct (p y); [done|]. exact IH.
Qed.

Lemma find_some_filter {A} (p : A -> bool) (l : list A) (x : A) :
  List.find p l = Some x -> (1 <= length (List.filter p l))%nat.
Proof.
  induction l as [|y l IH]; simpl; [done|].
  destruct (p y); simpl; [lia|]. exact IH.
Qed.

Lemma new_conversation_saves id now a b ty nm ds me :
  a <> b -> default "direct" ty = "direct" ->
  from_option (fun s => (str_len (trim s) <= 100)%nat) True nm ->
  from_option (fun s => (str_len (trim s) <= 500)%nat) True ds ->
  Conversation.save_error
    (Conversation.new id now [a; b] (default "direct" ty) (trim <$> nm) ds me) = None.
Proof.
  intros Hab -> Hnm Hds.
  unfold Conversation.save_error, Conversation.validate, Conversation.pre_save.
  simpl.
  assert (from_option (fun s => Nat.ltb 100 (str_len s)) false
            (trim <$> (trim <$> nm)) = false) as ->.
  { destruct nm as [s|]; simpl in *; [|done].
    rewrite trim_idem. apply Nat.ltb_ge. lia. }
  assert (from_option (fun s => Nat.ltb 500 (str_len s)) false (trim <$> ds) = false)
    as ->; [|done].
  destruct ds as [s|]; simpl in *; [|done]. apply Nat.ltb_ge. lia.
Qed.

(** C1. Two users [a] and [b] that exist, and two valid requests for a
    direct conversation whose participants, with the caller, are the pair
    in either order. The first call returns a conversation [c]: it is of
    type direct, [a] and [b] take part in it (and nobody else, when every
    stored conversation met the participant constraint), and it is stored.
    The second call answers "Conversation already exists" with that same
    conversation and writes nothing; and if the store held at most one
    direct conversation of the pair before, it holds exactly one after. *)
Theorem create_direct_twice (d : DB) (a b : ObjectId)
    (now1 : Date) (me1 : ObjectId) (ps1 : list ObjectId) (ty1 nm1 ds1 : option string)
    (now2 : Date) (me2 : ObjectId) (ps2 : list ObjectId) (ty2 nm2 ds2 : option string) :
  a <> b ->
  NoDup (User._id <$> users d) ->
  is_Some (findById a (users d)) ->
  is_Some (findById b (users d)) ->
  Forall (fun c => Conversation._id c <> nextId d) (conversations d) ->
  pair_request a b me1 ps1 ->
  pair_request a b me2 ps2 ->
  default "direct" ty1 = "direct" ->
  default "direct" ty2 = "direct" ->
  Validation.validateConversation ps1 ty1 nm1 = true ->
  Validation.validateConversation ps2 ty2 nm2 = true ->
  from_option (fun s => (str_len (trim s) <= 500)%nat) True ds1 ->
  let first := Conversations.create now1 me1 ps1 ty1 nm1 ds1 in
  let second := Conversations.create now2 me2 ps2 ty2 nm2 ds2 in
  let d1 := exec first d in
  exists c,
    data <$> answer first d = Some (Some c) /\
    direct_of a b c /\
    (participants_hold d ->
     forall p, p ∈ Conversation.participants c <-> p = a \/ p = b) /\
    c ∈ conversations d1 /\
    answer second d1 = Some (respond 200 "Conversation already exists" (Some c)) /\
    exec second d1 = d1 /\
    ((direct_count a b d <= 1)%nat -> direct_count a b d1 = 1%nat).
Proof.
  intros Hab Hnd Ha Hb Hfresh Hreq1 Hreq2 Hty1 Hty2 Hv1 Hv2 Hds1 first second d1.
  apply (pair_request_new_Set a b me1 ps1 Hab) in Hreq1.
  apply (pair_request_new_Set a b me2 ps2 Hab) in Hreq2.
  (* the second call, on any store that holds a direct conversation of the pair *)
  assert (forall d' c,
             Conversation.findDirectConversation a b (conversations d') = Some c ->
             answer second d'
             = Some (respond 200 "Conversation already exists" (Some c)) /\
             exec second d' = d') as Hsecond.
  { intros d' c Hc. subst second. unfold answer, Conversations.create.
    rewrite Hv2. run_monad. rewrite Hty2. simpl.
    destruct Hreq2 as [-> | ->]; simpl.
    - by rewrite Hc.
    - by rewrite (findDirect_sym b a), Hc. }
  assert (from_option (fun s => (str_len (trim s) <= 100)%nat) True nm1) as Hnm1.
  { unfold Validation.validateConversation in Hv1.
    apply andb_true_iff in Hv1 as [_ Hv1].
    destruct nm1 as [s|]; simpl in *; [|done]. by apply Nat.leb_le. }
  destruct (Conversation.findDirectConversation a b (conversations d)) as [c|] eqn:Hc.
  - (* the pair already has its conversation *)
    assert (d1 = d /\ data <$> answer first d = Some (Some c)) as [Hd1 Hans].
    { subst d1 first. unfold answer, Conversations.create.
      rewrite Hv1. run_monad. rewrite Hty1. simpl.
      destruct Hreq1 as [-> | ->]; simpl.
      - by rewrite Hc.
      - by rewrite (findDirect_sym b a), Hc. }
    exists c. rewrite Hd1. destruct (Hsecond d c Hc) as [? ?].
    pose proof Hc as Hstored. apply List.find_some in Hstored as [Hin Hsel].
    apply list_elem_of_In in Hin. apply direct_selects_iff in Hsel.
    split_and!; try done.
    + intros Hhold. unfold participants_hold in Hhold.
      rewrite Forall_forall in Hhold. destruct (Hhold c Hin) as [Hlen _].
      destruct Hsel as (Hty & Hac & Hbc). by apply two_members; [..|apply Hlen].
    + intros Hle. rewrite direct_count_query in *.
      unfold countDocuments, find in *.
      apply find_some_filter in Hc. lia.
  - (* it is created, at the end of the collection *)
    set (ps := Conversations.new_Set (ps1 ++ [me1])).
    set (c := Conversation.set_updatedAt now1
                (Conversation.new (nextId d) now1 ps (default "direct" ty1)
                                  (trim <$> nm1) ds1 me1)).
    assert (ps = [a; b] \/ ps = [b; a]) as Hps by exact Hreq1.
    assert (selects (Conversation.directQuery a b) c = true) as Hsel.
    { rewrite direct_selects. subst c. simpl. rewrite Hty1. simpl.
      destruct Hps as [-> | ->]; simpl; rewrite !Nat.eqb_refl; simpl;
        by rewrite ?orb_true_r. }
    assert (d1 = set_conversations (conversations d ++ [c])
                   (set_nextId (Datatypes.S (nextId d)) d)
            /\ data <$> answer first d = Some (Some c)) as [Hd1 Hans].
    { subst d1 first. unfold answer, Conversations.create.
      rewrite Hv1. run_monad. rewrite Hty1. simpl. fold ps.
      assert (length (find (Conversations.idsQuery ps) (users d)) = 2%nat) as Hlen.
      { destruct Hps as [-> | ->]; [by apply pair_found|].
        apply pair_found; first [done | congruence]. }
      assert (Conversation.save_error
                (Conversation.new (nextId d) now1 ps (default "direct" ty1)
                                  (trim <$> nm1) ds1 me1) = None) as Hsave.
      { destruct Hps as [-> | ->]; apply new_conversation_saves;
          first [done | congruence]. }
      rewrite Hty1 in Hsave.
      destruct Hps as [Hps | Hps]; rewrite Hps in *; simpl;
        rewrite ?(findDirect_sym b a), Hc; simpl; rewrite Hlen; simpl;
        unfold save_conversation; rewrite Hsave; run_monad;
        rewrite upsert_new by exact Hfresh;
        subst c; rewrite Hty1, Hps; done. }
    exists c.
    assert (Conversation.findDirectConversation a b (conversations d1) = Some c) as Hc1.
    { rewrite Hd1. simpl. by apply find_app_none. }
    destruct (Hsecond d1 c Hc1) as [? ?].
    split_and!; try done.
    { by apply direct_selects_iff. }
    { intros _ p. subst c. simpl. fold ps.
      destruct Hps as [-> | ->]; rewrite !elem_of_cons, elem_of_nil; tauto. }
    { rewrite Hd1. simpl. apply elem_of_app. right. by left. }
    intros _. rewrite Hd1, direct_count_query. unfold countDocuments, find.
    cbn [conversations set_conversations].
    rewrite List.filter_app, length_app. cbn [List.filter]. rewrite Hsel.
    unfold Conversation.findDirectConversation, findOne in Hc.
    by rewrite (filter_find_none _ _ Hc).
Qed.

Lemma direct_count_app a b d d' c :
  conversations d' = conversations d ++ [c] ->
  direct_count a b d'
  = (direct_count a b d
     + if selects (Conversation.directQuery a b) c then 1 else 0)%nat.
Proof.
  intros Hd'. rewrite !direct_count_query. unfold countDocuments, find. rewrite Hd'.
  rewrite List.filter_app, length_app. cbn [List.filter].
  by destruct (selects _ c).
Qed.

(** The last step of a creation: the new conversation is saved under a
    fresh id. If it is a direct one, its two participants had no direct
    conversation yet. *)
Lemma save_new_keeps_unique now all ty nm ds me d :
  ids_fresh d -> direct_unique d ->
  (ty = "direct" -> forall p0 p1, all = [p0; p1] ->
     Conversation.findDirectConversation p0 p1 (conversations d) = None) ->
  let d1 :=
    exec (save_conversation now
            (Conversation.new (nextId d) now all ty nm ds me))
         (set_nextId (Datatypes.S (nextId d)) d) in
  ids_fresh d1 /\ direct_unique d1.
Proof.
  intros Hfresh Huniq Hnone d1. subst d1. unfold save_conversation.
  destruct (Conversation.save_error _) eqn:Hsave.
  { split; [|exact Huniq]. unfold ids_fresh in *. simpl.
    eapply Forall_impl; [exact Hfresh|]. simpl. intros; lia. }
  run_monad. rewrite upsert_new.
  2:{ eapply Forall_impl; [exact Hfresh|]. simpl. intros; lia. }
  set (c := Conversation.set_updatedAt now _).
  split.
  - unfold ids_fresh in *. simpl. apply Forall_app. split.
    + eapply Forall_impl; [exact Hfresh|]. simpl. intros; lia.
    + constructor; [simpl; lia|done].
  - intros a b Hab.
    rewrite (direct_count_app a b d _ c) by reflexivity.
    destruct (selects (Conversation.directQuery a b) c) eqn:Hsel;
      [|specialize (Huniq a b Hab); lia].
    rewrite direct_selects in Hsel. subst c. simpl in Hsel.
    apply andb_true_iff in Hsel as [Hty Hmem].
    apply String.eqb_eq in Hty. subst ty.
    apply andb_true_iff in Hmem as [Ha Hb].
    rewrite existsb_eqb_elem_of in Ha, Hb.
    apply bool_decide_eq_true in Ha, Hb.
    apply save_error_participants_ok in Hsave as [Hlen _].
    specialize (Hlen eq_refl). simpl in Hlen.
    destruct all as [|p0 [|p1 [|? ?]]]; simpl in Hlen; try lia.
    specialize (Hnone eq_refl p0 p1 eq_refl).
    assert (direct_count p0 p1 d = 0%nat) as Hzero.
    { rewrite direct_count_query. unfold countDocuments, find.
      unfold Conversation.findDirectConversation, findOne in Hnone.
      by rewrite (filter_find_none _ _ Hnone). }
    assert (direct_count a b d = 0%nat) as ->; [|lia].
    rewrite !elem_of_cons, !elem_of_nil in Ha, Hb.
    destruct Ha as [->|[->|[]]], Hb as [->|[->|[]]]; try done.
    by rewrite direct_count_sym.
Qed.

(** Creation never gives a pair a second direct conversation. *)
Lemma create_keeps_direct_unique now me participants type name description :
  preserves (fun d => ids_fresh d /\ direct_unique d)
            (Conversations.create now me participants type name description).
Proof.
  intros d [Hfresh Huniq]. unfold Conversations.create.
  destruct (negb _); [done|]. run_monad.
  set (all := Conversations.new_Set (participants ++ [me])).
  set (ty := default "direct" type).
  assert (forall existing,
             (existing = None ->
              ty = "direct" -> forall p0 p1, all = [p0; p1] ->
              Conversation.findDirectConversation p0 p1 (conversations d) = None) ->
             let r :=
               match existing with
               | Some c =>
                   (d, inr (respond 200 "Conversation already exists" (Some c)))
               | None =>
                   if negb (Nat.eqb (length (find (Conversations.idsQuery all) (users d)))
                                    (length all))
                   then (d, inr (respond 400 "One or more participants not found" None))
                   else
                     let (s', s0) :=
                       save_conversation now
                         (Conversation.new (nextId d) now all ty (trim <$> name)
                                           description me)
                         (set_nextId (Datatypes.S (nextId d)) d) in
                     match s0 with
                     | inl e => (s', inl e)
                     | inr a =>
                         (s', inr (respond 201 "Conversation created successfully"
                                           (Some a)))
                     end
               end in
             ids_fresh r.1 /\ direct_unique r.1) as Htail.
  { intros [c|] Hnone; simpl; [done|].
    destruct (negb _); simpl; [done|].
    pose proof (save_new_keeps_unique now all ty (trim <$> name) description me d
                  Hfresh Huniq (Hnone eq_refl)) as Hkeep.
    unfold exec in Hkeep. simpl in Hkeep.
    destruct (save_conversation _ _ _) as [s' [e|a]]; simpl in *; exact Hkeep. }
  destruct all as [|p0 [|p1 [|p2 rest]]] eqn:Hall; simpl.
  - specialize (Htail None). simpl in Htail.
    destruct (negb _); simpl in *; [done|].
    destruct (save_conversation _ _ _) as [s' [e|a]]; simpl in *;
      apply Htail; intros; discriminate.
  - specialize (Htail None). simpl in Htail.
    destruct (negb _); simpl in *; [done|].
    destruct (save_conversation _ _ _) as [s' [e|a]]; simpl in *;
      apply Htail; intros; discriminate.
  - destruct (String.eqb ty "direct") eqn:Hty; simpl.
    + specialize (Htail (Conversation.findDirectConversation p0 p1 (conversations d))).
      simpl in Htail.
      destruct (Conversation.findDirectConversation p0 p1 (conversations d)) eqn:Hf;
        simpl in *; [done|].
      destruct (negb _); simpl in *; [done|].
      destruct (save_conversation _ _ _) as [s' [e|a]]; simpl in *;
        apply Htail; intros _ _ ? ? [= <- <-]; done.
    + specialize (Htail None). simpl in Htail.
      destruct (negb _); simpl in *; [done|].
      destruct (save_conversation _ _ _) as [s' [e|a]]; simpl in *;
        apply Htail; intros _ Hd; subst ty; rewrite Hd in Hty; discriminate.
  - specialize (Htail None). simpl in Htail.
    destruct (negb _); simpl in *; [done|].
    destruct (save_conversation _ _ _) as [s' [e|a]]; simpl in *;
      apply Htail; intros; discriminate.
Qed.

End DirectOnce.
(* ===================================================================== *)
(** * The gateway: presence *)
(* ===================================================================== *)

Section Presence.
Import Gateway.

Lemma setOnlineStatus_found now u online sock (d : DB) account :
  findById u (users d) = Some account ->
  exec (setOnlineStatus now u online sock) d
  = set_users ((fun x => if Nat.eqb (User._id x) u
                         then User.setOnlineStatus now online sock x else x)
                 <$> users d) d /\
  result (setOnlineStatus now u online sock) d = inr tt.
Proof.
  intros Hf. unfold exec, result, setOnlineStatus.
  pose proof (findById_exists _ _ _ Hf) as He. simpl in He.
  by rewrite He.
Qed.

Lemma findById_fmap_status now u online sock (us : list User.t) account :
  findById u us = Some account ->
  findById u ((fun x => if Nat.eqb (User._id x) u
                        then User.setOnlineStatus now online sock x else x) <$> us)
  = Some (User.setOnlineStatus now online sock account).
Proof.
  unfold findById. induction us as [|x us IH]; csimpl; [done|].
  destruct (Nat.eqb_spec (User._id x) u) as [Heq|Hne]; simpl.
  - rewrite Heq, Nat.eqb_refl. by intros [= ->].
  - apply Nat.eqb_neq in Hne. rewrite Hne. exact IH.
Qed.

Lemma presence_ok_status now u (d : DB) :
  presence_ok d ->
  presence_ok
    (set_users ((fun x => if Nat.eqb (User._id x) u
                          then User.setOnlineStatus now false None x else x)
                  <$> users d) d).
Proof.
  unfold presence_ok. simpl. intros Hall. apply Forall_fmap.
  eapply Forall_impl; [exact Hall|]. intros x Hx. simpl.
  destruct (Nat.eqb (User._id x) u); [|exact Hx].
  simpl. by intros [? ?].
Qed.

(** C9. A connection of [u] closes, [u]'s account being stored. After the
    handler the registry has no entry for [u]; the stored account is
    offline, stamped with the time of the disconnection and without
    connection identifier; one [user_offline] event went to every other
    open connection; and no stored account holds a connection identifier
    while offline. *)
Theorem disconnect_goes_offline (w : World) (now : Date) (socket : Socket)
    (account : User.t) :
  findById (userId socket) (users (db w)) = Some account ->
  presence_ok (db w) ->
  let w' := exec (disconnect now socket) w in
  lookup_connection (userId socket) w' = None /\
  isUserOnline (userId socket) w' = false /\
  (exists account',
      findById (userId socket) (users (db w')) = Some account' /\
      User.isOnline account' = false /\
      User.lastSeen account' = now /\
      User.socketId account' = None) /\
  emitted w' = emitted w ++
    [mkEmit (dom (sockets w) ∖ {[ id socket ]})
            (user_offline (userId socket) (User.username (user socket)) now)] /\
  presence_ok (db w').
Proof.
  intros Hacc Hok w'.
  destruct (setOnlineStatus_found now (userId socket) false None (db w) account Hacc)
    as [Hexec Hres].
  assert (w' = mkWorld
                 (set_users ((fun x => if Nat.eqb (User._id x) (userId socket)
                                       then User.setOnlineStatus now false None x
                                       else x) <$> users (db w)) (db w))
                 (base.delete (userId socket) (activeUsers w))
                 (base.delete (id socket) (sockets w))
                 ((fun s => s ∖ {[ id socket ]}) <$> rooms w)
                 (emitted w ++
                    [mkEmit (dom (base.delete (id socket) (sockets w)) ∖ {[ id socket ]})
                       (user_offline (userId socket) (User.username (user socket))
                                     now)])) as ->.
  { subst w'. unfold disconnect, close, store, socket_broadcast_emit, emit.
    unfold exec, result in *. run_monad.
    destruct (setOnlineStatus now (userId socket) false None (db w)) as [d' r].
    simpl in *. by subst. }
  simpl. split_and!.
  - unfold lookup_connection. simpl. apply lookup_delete_eq.
  - unfold isUserOnline. simpl. apply bool_decide_eq_false_2.
    rewrite lookup_delete_eq. by intros [? ?].
  - eexists. split; [by apply findById_fmap_status|]. done.
  - do 3 f_equal. rewrite dom_delete_L. apply set_eq. intros x.
    rewrite !elem_of_difference. tauto.
  - by apply presence_ok_status.
Qed.

End Presence.
(* ===================================================================== *)
(** * The gateway: sending a message *)
(* ===================================================================== *)

Section Send.
Import Gateway.

Lemma member_selects c u (x : Conversation.t) :
  selects (Conversation.memberQuery c u) x =
  Nat.eqb (Conversation._id x) c && existsb (Nat.eqb u) (Conversation.participants x).
Proof.
  unfold selects, matches, Conversation.memberQuery. simpl.
  by rewrite cond_eq_id, cond_eq_in_ids, andb_true_r.
Qed.

Lemma findOne_member c u (coll : list Conversation.t) conv :
  findOne (Conversation.memberQuery c u) coll = Some conv ->
  List.In conv coll /\ Conversation._id conv = c /\
  u ∈ Conversation.participants conv.
Proof.
  unfold findOne. intros Hf. apply List.find_some in Hf as [Hin Hsel].
  rewrite member_selects, andb_true_iff, Nat.eqb_eq, existsb_eqb_elem_of in Hsel.
  destruct Hsel as [Hid Hmem]. apply bool_decide_eq_true in Hmem. done.
Qed.

Lemma validate_new_message id now c u content ty reply :
  trim content <> "" -> (str_len (trim content) <= 2000)%nat ->
  existsb (String.eqb ty) ["text"; "image"; "file"; "system"] = true ->
  Message.validate (Message.new id now c u content ty reply) = None.
Proof.
  intros Hne Hlen Hty. unfold Message.validate, Message.new.
  cbn [Message.content Message.type].
  assert (Nat.eqb (str_len (trim content)) 0 = false) as ->.
  { apply not_true_is_false. by rewrite str_len_0. }
  assert (Nat.ltb 2000 (str_len (trim content)) = false) as ->.
  { apply Nat.ltb_ge. lia. }
  by rewrite Hty.
Qed.

Lemma save_error_updateLastActivity now mid conv :
  Conversation.save_error
    (Conversation.updateLastActivity now (Some mid) conv)
  = Conversation.save_error conv.
Proof. reflexivity. Qed.

Lemma get_field_set_same k v (doc : list (string * Value)) :
  get_field k (set_field k v doc) = Some v.
Proof.
  induction doc as [|[k' v'] doc IH]; simpl.
  - by rewrite String.eqb_refl.
  - destruct (String.eqb_spec k k') as [->|Hne]; simpl.
    + by rewrite String.eqb_refl.
    + apply String.eqb_neq in Hne. by rewrite Hne.
Qed.

Lemma get_field_set_other k k' v (doc : list (string * Value)) :
  k <> k' -> get_field k (set_field k' v doc) = get_field k doc.
Proof.
  intros Hne. induction doc as [|[k0 v0] doc IH]; simpl.
  - apply String.eqb_neq in Hne. by rewrite Hne.
  - destruct (String.eqb_spec k' k0) as [->|Hne']; simpl.
    + apply String.eqb_neq in Hne. by rewrite Hne.
    + by rewrite IH.
Qed.

Lemma get_field_delete_other k k' (doc : list (string * Value)) :
  k <> k' -> get_field k (delete_field k' doc) = get_field k doc.
Proof.
  intros Hne. induction doc as [|[k0 v0] doc IH]; simpl; [done|].
  destruct (String.eqb_spec k' k0) as [->|Hne']; simpl.
  - apply String.eqb_neq in Hne. by rewrite Hne.
  - by rewrite IH.
Qed.

Lemma get_field_populate_other k path lookup (doc : list (string * Value)) :
  k <> path -> get_field k (populate path lookup doc) = get_field k doc.
Proof.
  intros Hne. unfold populate.
  destruct (get_field path doc) as [[]|]; try done.
  by apply get_field_set_other.
Qed.

Lemma get_field_populate_same path lookup (doc : list (string * Value)) i :
  get_field path doc = Some (VId i) ->
  get_field path (populate path lookup doc)
  = Some (from_option VObj VNull (lookup i)).
Proof. intros Hi. unfold populate. rewrite Hi. apply get_field_set_same. Qed.

(** The view of a document that is not soft-deleted keeps every field but
    [__v]. *)
Lemma get_field_render k (doc : list (string * Value)) :
  get_field "isDeleted" doc = Some (VBool false) -> k <> "__v" ->
  get_field k (Message.render doc) = get_field k doc.
Proof.
  intros Hdel Hk. unfold Message.render. rewrite Hdel.
  by apply get_field_delete_other.
Qed.

Lemma findById_select_id i (us : list User.t) account fields :
  findById i us = Some account ->
  get_field "_id" (User.select fields account) = Some (VId i).
Proof.
  intros Hf. apply findById_id in Hf. simpl in Hf. subst i. reflexivity.
Qed.

Lemma existsb_string_elem_of (x : string) (l : list string) :
  existsb (String.eqb x) l = bool_decide (x ∈ l).
Proof.
  induction l as [|y l IH].
  - symmetry. apply bool_decide_eq_false_2, not_elem_of_nil.
  - cbn [existsb]. rewrite IH. destruct (String.eqb_spec x y) as [->|Hne]; simpl.
    + symmetry. apply bool_decide_eq_true_2. by left.
    + apply bool_decide_ext. rewrite elem_of_cons. split; [by right|].
      by intros [?|?].
Qed.

(** What the schema refuses in a new message: content that is empty once
    trimmed or longer than 2000 characters, or a kind outside the four. *)
Lemma validate_new_message_refused id now c u content ty reply :
  trim content = "" \/ (2000 < str_len (trim content))%nat \/
  ty ∉ ["text"; "image"; "file"; "system"] ->
  Message.validate (Message.new id now c u content ty reply) <> None.
Proof.
  unfold Message.validate, Message.new. cbn [Message.content Message.type].
  intros [Hempty|[Hlong|Hkind]].
  - by rewrite Hempty.
  - destruct (Nat.eqb _ 0); [done|].
    apply Nat.ltb_lt in Hlong. by rewrite Hlong.
  - destruct (Nat.eqb _ 0); [done|]. destruct (Nat.ltb 2000 _); [done|].
    rewrite existsb_string_elem_of, bool_decide_eq_false_2 by done. done.
Qed.

(** C4, as the code has it. [u] is connected and takes part in the stored
    conversation [C]. When the content, trimmed, is not empty and has at
    most 2000 characters, the kind is among the four and [C] can be saved
    (ids being unique in the store and the new id unused), a new message
    is stored with sender [u], conversation [C] and the trimmed content;
    [C] points to it and carries the time of the call as last activity;
    and one [new_message] event carrying that message, its sender
    populated, goes to every connection in [C]'s room, the sender's
    included; nothing else changes in the rooms. When the schema refuses
    the content or the kind, no user, conversation or message is written
    and the one event emitted is an error to the sender's connection. *)
Theorem send_message_delivers (w : World) (now : Date) (socket : Socket)
    (C : ObjectId) (content : string) (ty : option string)
    (replyTo : option ObjectId) (conv : Conversation.t) :
  findOne (Conversation.memberQuery C (userId socket)) (conversations (db w))
  = Some conv ->
  let w' := exec (send_message now socket C content ty replyTo) w in
  let kinds := ["text"; "image"; "file"; "system"] in
  let populated_sender :=
    opt_value (fun account => VObj (User.select ["username"; "email"; "avatar"] account))
              (findById (userId socket) (users (db w))) in
  (trim content <> "" ->
   (str_len (trim content) <= 2000)%nat ->
   default "text" ty ∈ kinds ->
   Conversation.save_error conv = None ->
   NoDup (Conversation._id <$> conversations (db w)) ->
   Forall (fun m => Message._id m <> nextId (db w)) (messages (db w)) ->
   exists m conv' doc,
     messages (db w') = messages (db w) ++ [m] /\
     Message._id m = nextId (db w) /\
     Message.sender m = userId socket /\
     Message.conversation m = C /\
     Message.content m = trim content /\
     findById C (conversations (db w')) = Some conv' /\
     Conversation.lastMessage conv' = Some (Message._id m) /\
     Conversation.lastActivity conv' = now /\
     Conversation.participants conv' = Conversation.participants conv /\
     emitted w' = emitted w ++
       [mkEmit (members (conversation_ C) w) (new_message doc)] /\
     get_field "_id" doc = Some (VId (Message._id m)) /\
     get_field "conversation" doc = Some (VId C) /\
     get_field "content" doc = Some (VStr (trim content)) /\
     get_field "sender" doc = Some populated_sender /\
     (forall account,
        findById (userId socket) (users (db w)) = Some account ->
        get_field "_id" (User.select ["username"; "email"; "avatar"] account)
        = Some (VId (userId socket))) /\
     (forall sid, sid ∈ members (conversation_ C) w ->
                  sid ∈ members (conversation_ C) w') /\
     rooms w' = rooms w /\
     sockets w' = sockets w) /\
  (trim content = "" \/ (2000 < str_len (trim content))%nat \/
   default "text" ty ∉ kinds ->
   users (db w') = users (db w) /\
   conversations (db w') = conversations (db w) /\
   messages (db w') = messages (db w) /\
   rooms w' = rooms w /\
   sockets w' = sockets w /\
   emitted w' = emitted w ++
     [mkEmit {[ id socket ]} (error "Failed to send message")]).
Proof.
  intros Hfind w' kinds populated_sender. split.
  2:{ intros Hbad.
      apply (validate_new_message_refused (nextId (db w)) now C (userId socket)
               content (default "text" ty) replyTo) in Hbad.
      subst w'. unfold send_message, store, io_to_emit, socket_emit, emit.
      unfold exec, bind, try_catch, get, lift, fresh. cbn [fst snd].
      rewrite Hfind. unfold save_message.
      cbn [db set_db nextId set_nextId].
      destruct (Message.validate _); [|done]. by destruct w. }
  intros Hne Hlen Hty Hsave Hnd Hfresh.
  assert (existsb (String.eqb (default "text" ty)) kinds = true) as Hty'.
  { rewrite existsb_string_elem_of. by apply bool_decide_eq_true_2. }
  pose proof (findOne_member _ _ _ _ Hfind) as (Hin & Hid & Hmem).
  set (m := Message.set_updatedAt now
              (Message.new (nextId (db w)) now C (userId socket) content
                           (default "text" ty) replyTo)).
  set (conv' := Conversation.set_updatedAt now
                  (Conversation.updateLastActivity now (Some (nextId (db w))) conv)).
  set (d' := mkDB (users (db w)) (replace conv' (conversations (db w)))
                  (messages (db w) ++ [m]) (Datatypes.S (nextId (db w)))).
  set (doc0 := populate_sender d' (Message.toObject m)).
  set (doc := Message.render
                match replyTo with
                | Some _ => populate_replyTo d' doc0
                | None => doc0
                end).
  assert (w' = mkWorld d' (activeUsers w) (sockets w) (rooms w)
                 (emitted w ++
                    [mkEmit (members (conversation_ C) w) (new_message doc)]))
    as ->.
  { subst w'. unfold send_message, store, io_to_emit, emit.
    unfold exec, bind, try_catch, get, lift, fresh. cbn [fst snd].
    rewrite Hfind. unfold save_message.
    rewrite (validate_new_message _ _ _ _ _ _ _ Hne Hlen Hty').
    unfold bind, modify, ret. cbn [db set_db messages set_messages set_nextId nextId].
    rewrite upsert_new by exact Hfresh.
    unfold save_conversation. cbn [Message._id Message.set_updatedAt Message.new].
    rewrite save_error_updateLastActivity, Hsave.
    unfold bind, modify, ret.
    cbn [db set_db conversations set_conversations users messages nextId].
    rewrite (upsert_found _ conv' conv).
    2:{ simpl. rewrite Hid, <- Hid.
        exact (findOne_findById _ _ conv Hnd Hfind). }
    reflexivity. }
  assert (get_field "isDeleted"
            match replyTo with
            | Some _ => populate_replyTo d' doc0
            | None => doc0
            end = Some (VBool false)) as Hdel.
  { destruct replyTo; unfold populate_replyTo, doc0, populate_sender;
      rewrite ?get_field_populate_other by done; reflexivity. }
  exists m, conv', doc. cbn [db emitted rooms sockets messages].
  split_and!; try reflexivity.
  - subst d'. cbn [conversations].
    apply findById_replace_same with (y := conv); [|by simpl].
    rewrite <- Hid. exact (findOne_findById _ _ conv Hnd Hfind).
  - subst doc. rewrite get_field_render by done.
    destruct replyTo; unfold populate_replyTo, doc0, populate_sender;
      rewrite ?get_field_populate_other by done; reflexivity.
  - subst doc. rewrite get_field_render by done.
    destruct replyTo; unfold populate_replyTo, doc0, populate_sender;
      rewrite ?get_field_populate_other by done; reflexivity.
  - subst doc. rewrite get_field_render by done.
    destruct replyTo; unfold populate_replyTo, doc0, populate_sender;
      rewrite ?get_field_populate_other by done; reflexivity.
  - subst doc. rewrite get_field_render by done.
    assert (get_field "sender" doc0 = Some populated_sender) as Hs.
    { unfold doc0, populate_sender.
      rewrite (get_field_populate_same _ _ _ (userId socket)) by reflexivity.
      subst populated_sender d'. cbn [users].
      by destruct (findById (userId socket) (users (db w))). }
    destruct replyTo; [|exact Hs].
    unfold populate_replyTo. by rewrite get_field_populate_other.
  - intros account Hacc. by eapply findById_select_id.
  - done.
Qed.

End Send.
(* ===================================================================== *)
(** * The gateway: rooms and who is sent what *)
(* ===================================================================== *)

Section Rooms.
Import Gateway.

Implicit Types (w : World) (d : DB) (c u : ObjectId) (sid : SocketId).

Lemma participant_iff c u d :
  participant c u d <->
  exists ps, (c, ps) ∈ membership d /\ u ∈ ps.
Proof.
  unfold participant, findOne, membership. split.
  - intros [x Hx]. apply List.find_some in Hx as [Hin Hsel].
    rewrite member_selects, andb_true_iff, Nat.eqb_eq, existsb_eqb_elem_of in Hsel.
    destruct Hsel as [<- Hu]. apply bool_decide_eq_true in Hu.
    exists (Conversation.participants x). split; [|done].
    apply list_elem_of_fmap. exists x. split; [done|by apply list_elem_of_In].
  - intros (ps & Hin & Hu). apply list_elem_of_fmap in Hin as (x & Heq & Hx).
    injection Heq as -> ->.
    destruct (List.find _ (conversations d)) as [y|] eqn:E; [by eexists|].
    exfalso. apply list_elem_of_In in Hx.
    pose proof (List.find_none _ _ E x Hx) as Hsel.
    rewrite member_selects, Nat.eqb_refl, existsb_eqb_elem_of in Hsel.
    simpl in Hsel. by apply bool_decide_eq_false in Hsel.
Qed.

Lemma participant_same c u d d' :
  membership d' = membership d -> participant c u d' <-> participant c u d.
Proof. intros Hm. by rewrite !participant_iff, Hm. Qed.

Lemma membership_ids d : (membership d).*1 = Conversation._id <$> conversations d.
Proof. unfold membership. by rewrite <- list_fmap_compose. Qed.

Lemma allowed_back w w' c sid :
  membership (db w') = membership (db w) ->
  (forall sid s, sockets w' !! sid = Some s -> sockets w !! sid = Some s) ->
  (forall c sid, sid ∈ members (conversation_ c) w' -> allowed w c sid) ->
  allowed w' c sid -> allowed w c sid.
Proof.
  intros Hm Hs Hr [Hin|(s & Hreg & Hp)]; [by apply Hr|].
  right. exists s. split; [by apply Hs|]. by apply (participant_same _ _ _ _ Hm).
Qed.

Lemma step_ok_refl w : step_ok w w.
Proof.
  split_and!; try done.
  - intros c sid Hin. by left.
  - exists []. by rewrite app_nil_r.
Qed.

Lemma step_ok_trans w w' w'' : step_ok w w' -> step_ok w' w'' -> step_ok w w''.
Proof.
  intros (Hm & Hs & Hr & new & He & Hnew) (Hm' & Hs' & Hr' & new' & He' & Hnew').
  split_and!.
  - congruence.
  - intros sid s Hreg. by apply Hs, Hs'.
  - intros c sid Hin. apply (allowed_back w w'); try done. by apply Hr'.
  - exists (new ++ new'). split; [by rewrite He', He, app_assoc|].
    apply Forall_app. split; [done|].
    eapply Forall_impl; [exact Hnew'|]. intros e He0 c sid Hc Hsid.
    apply (allowed_back w w'); try done. by eapply He0.
Qed.

Lemma world_ok_step w w' : world_ok w -> step_ok w w' -> world_ok w'.
Proof.
  intros [Hkey Hnd] (Hm & Hs & _). split.
  - intros sid s Hreg. by apply Hkey, Hs.
  - by rewrite <- membership_ids, Hm, membership_ids.
Qed.

(** A handler that touched the store without changing who takes part in
    what, left rooms and connections alone and emitted [new]. *)
Lemma step_ok_frame w d' au new :
  membership d' = membership (db w) ->
  Forall (fun e => forall c sid,
              event_conversation (event e) = Some c ->
              sid ∈ recipients e -> allowed w c sid) new ->
  step_ok w (mkWorld d' au (sockets w) (rooms w) (emitted w ++ new)).
Proof.
  intros Hm Hnew. split_and!; try done.
  - intros c sid Hin. by left.
  - by exists new.
Qed.

Lemma error_only w socket msg :
  Forall (fun e => forall c sid,
              event_conversation (event e) = Some c ->
              sid ∈ recipients e -> allowed w c sid)
         [mkEmit {[ id socket ]} (error msg)].
Proof. constructor; [|done]. by intros c sid. Qed.

Lemma to_room_only w (rcpt : gset SocketId) c ev :
  event_conversation ev = Some c ->
  rcpt ⊆ members (conversation_ c) w ->
  Forall (fun e => forall c sid,
              event_conversation (event e) = Some c ->
              sid ∈ recipients e -> allowed w c sid)
         [mkEmit rcpt ev].
Proof.
  intros Hev Hsub. constructor; [|done]. simpl. intros c' sid Hc' Hsid.
  assert (c' = c) as -> by congruence. left. by apply Hsub.
Qed.

(** What the store computations of the handlers leave alone. *)
Lemma fresh_conversations cs : preserves (fun d => conversations d = cs) fresh.
Proof. by intros d Hd. Qed.

Lemma save_message_conversations cs now m :
  preserves (fun d => conversations d = cs) (save_message now m).
Proof.
  intros d Hd. unfold save_message.
  by destruct (Message.validate m); unfold exec, bind, modify, ret; simpl.
Qed.

Lemma preserves_promise_all {S} (P : S -> Prop) (tasks : list (M S unit)) :
  Forall (preserves P) tasks -> preserves P (promise_all tasks).
Proof.
  induction 1 as [|task rest Htask _ IH]; [by intros s|].
  intros s Hs. specialize (Htask s Hs). unfold exec in *. simpl.
  destruct (task s) as [s1 r1]. simpl in *.
  specialize (IH s1 Htask). unfold exec in IH.
  destruct (promise_all rest s1) as [s2 r2]. exact IH.
Qed.

Lemma markAsRead_conversations cs now u m :
  preserves (fun d => conversations d = cs) (Messages.markAsRead now u m).
Proof.
  unfold Messages.markAsRead.
  repeat first [ preserves_step | by apply preserves_modify ].
Qed.

Lemma mark_each_conversations cs now u ids :
  preserves (fun d => conversations d = cs) (mark_each now u ids).
Proof.
  unfold mark_each. apply preserves_bind; [apply preserves_get|]. intros d.
  apply preserves_promise_all, Forall_fmap, Forall_forall. intros found _.
  unfold mark_task, compose.
  repeat first [ apply markAsRead_conversations | preserves_step ].
Qed.

Lemma setOnlineStatus_conversations cs now u online sock :
  preserves (fun d => conversations d = cs) (setOnlineStatus now u online sock).
Proof.
  intros d Hd. unfold exec, setOnlineStatus. by destruct (existsb _ (users d)).
Qed.

Lemma membership_conversations d d' :
  conversations d' = conversations d -> membership d' = membership d.
Proof. unfold membership. by intros ->. Qed.

Lemma event_conversation_new_message (d : DB) m replyTo :
  Message.isDeleted m = false ->
  event_conversation
    (new_message
       (Message.render
          match replyTo : option ObjectId with
          | Some _ => populate_replyTo d (populate_sender d (Message.toObject m))
          | None => populate_sender d (Message.toObject m)
          end))
  = Some (Message.conversation m).
Proof.
  intros Hdel. unfold event_conversation.
  rewrite get_field_render; [| |done].
  - destruct replyTo; unfold populate_replyTo, populate_sender;
      rewrite ?get_field_populate_other by done; reflexivity.
  - destruct replyTo; unfold populate_replyTo, populate_sender;
      rewrite ?get_field_populate_other by done; simpl; by rewrite Hdel.
Qed.

Lemma join_step w socket c :
  sockets w !! id socket = Some socket ->
  step_ok w (exec (join_conversation socket c) w).
Proof.
  intros Hreg. unfold join_conversation, socket_join, socket_to_emit, emit.
  run_monad.
  destruct (findOne _ (conversations (db w))) as [conv|] eqn:Hfind; simpl;
    [|apply step_ok_refl].
  split_and!; simpl; try done.
  - intros c' sid. unfold members. simpl.
    destruct (decide (c' = c)) as [->|Hne].
    + rewrite lookup_insert_eq. simpl.
      rewrite elem_of_union, elem_of_singleton. intros [->|Hin]; [|by left].
      right. exists socket. split; [done|]. by exists conv.
    + rewrite lookup_insert_ne by congruence. by left.
  - eexists [_]. split; [done|]. constructor; [|done]. simpl.
    intros c' sid [= <-]. unfold members. simpl. rewrite lookup_insert_eq. simpl.
    rewrite elem_of_difference, elem_of_union, !elem_of_singleton.
    intros [[->|Hin] Hne]; [done|by left].
Qed.

Lemma leave_step w socket c :
  step_ok w (exec (leave_conversation socket c) w).
Proof.
  unfold leave_conversation, socket_leave, socket_to_emit, emit. run_monad.
  split_and!; simpl; try done.
  - intros c' sid. unfold members. simpl.
    destruct (decide (c' = c)) as [->|Hne].
    + rewrite lookup_insert_eq. simpl. rewrite elem_of_difference.
      intros [Hin _]. by left.
    + rewrite lookup_insert_ne by congruence. by left.
  - eexists [_]. split; [done|]. constructor; [|done]. simpl.
    intros c' sid [= <-]. unfold members. simpl. rewrite lookup_insert_eq. simpl.
    rewrite !elem_of_difference. intros [[Hin _] _]. by left.
Qed.

Lemma typing_start_step w socket c : step_ok w (exec (typing_start socket c) w).
Proof.
  unfold typing_start, socket_to_emit, emit. run_monad.
  destruct w as [d au ss rs em]. apply (step_ok_frame (mkWorld d au ss rs em)).
  - done.
  - apply to_room_only with (c := c); [done|]. apply subseteq_difference_l. done.
Qed.

Lemma typing_stop_step w socket c : step_ok w (exec (typing_stop socket c) w).
Proof.
  unfold typing_stop, socket_to_emit, emit. run_monad.
  destruct w as [d au ss rs em]. apply (step_ok_frame (mkWorld d au ss rs em)).
  - done.
  - apply to_room_only with (c := c); [done|]. apply subseteq_difference_l. done.
Qed.

Lemma update_status_step w socket status :
  step_ok w (exec (update_status socket status) w).
Proof.
  unfold update_status, socket_broadcast_emit, emit. run_monad.
  destruct w as [d au ss rs em]. apply (step_ok_frame (mkWorld d au ss rs em)).
  - done.
  - constructor; [|done]. by intros c sid.
Qed.

Lemma mark_step w now socket c ids :
  step_ok w (exec (mark_messages_read now socket c ids) w).
Proof.
  unfold mark_messages_read, store, socket_to_emit, socket_emit, emit.
  unfold exec, bind, try_catch, get, lift, modify. cbn [fst snd].
  destruct w as [d au ss rs em]. cbn [db].
  destruct (findOne _ (conversations d)) as [conv|] eqn:Hfind.
  - pose proof (mark_each_conversations (conversations d) now (userId socket) ids
                  d eq_refl) as Hcs.
    unfold exec in Hcs.
    change (db (mkWorld d au ss rs em)) with d.
    destruct (mark_each now (userId socket) ids d) as [d' [e|[]]]; simpl in *.
    + apply (step_ok_frame (mkWorld d au ss rs em)).
      * by apply membership_conversations.
      * apply error_only.
    + apply (step_ok_frame (mkWorld d au ss rs em)).
      * by apply membership_conversations.
      * apply to_room_only with (c := c); [done|]. apply subseteq_difference_l. done.
  - simpl. apply (step_ok_frame (mkWorld d au ss rs em)); [done|apply error_only].
Qed.

Lemma send_step w now socket c content ty replyTo :
  world_ok w ->
  step_ok w (exec (send_message now socket c content ty replyTo) w).
Proof.
  intros [_ Hnd].
  unfold send_message, store, io_to_emit, socket_emit, emit.
  unfold exec, bind, try_catch, get, lift, fresh. cbn [fst snd].
  destruct w as [d au ss rs em]. cbn [db] in *.
  destruct (findOne _ (conversations d)) as [conv|] eqn:Hfind.
  2:{ simpl. apply (step_ok_frame (mkWorld d au ss rs em)); [done|apply error_only]. }
  pose proof (findOne_member _ _ _ _ Hfind) as (Hin & Hid & Hmem).
  unfold save_message.
  destruct (Message.validate _) eqn:Hv.
  { simpl. apply (step_ok_frame (mkWorld d au ss rs em)); [done|apply error_only]. }
  unfold bind, modify, ret. cbn [db set_db].
  unfold save_conversation.
  cbn [Message._id Message.set_updatedAt Message.new].
  rewrite save_error_updateLastActivity.
  destruct (Conversation.save_error conv) eqn:Hs.
  { simpl. apply (step_ok_frame (mkWorld d au ss rs em)); [done|apply error_only]. }
  unfold bind, modify, ret. cbn [db set_db fst snd].
  set (conv' := Conversation.set_updatedAt now
                  (Conversation.updateLastActivity now (Some (nextId d)) conv)).
  cbn [conversations set_conversations set_messages set_nextId].
  rewrite (upsert_found _ conv' conv).
  2:{ exact (findOne_findById _ _ conv Hnd Hfind). }
  apply (step_ok_frame (mkWorld d au ss rs em)).
  - unfold membership. cbn [conversations].
    by apply (replace_fmap_same _ conv' conv).
  - apply to_room_only with (c := c); [|done].
    by rewrite event_conversation_new_message.
Qed.

Lemma disconnect_step w now socket :
  step_ok w (exec (disconnect now socket) w).
Proof.
  unfold disconnect, close, store, socket_broadcast_emit, emit.
  unfold exec, bind, try_catch, get, lift, modify. cbn [fst snd].
  destruct w as [d au ss rs em]. cbn [db set_db set_activeUsers set_sockets set_rooms].
  pose proof (setOnlineStatus_conversations (conversations d) now (userId socket)
                false None d eq_refl) as Hcs.
  unfold exec in Hcs.
  change (db (mkWorld d au (base.delete (id socket) ss)
                      ((fun s => s ∖ {[ id socket ]}) <$> rs) em)) with d.
  assert (forall c sid,
             sid ∈ members (conversation_ c)
                     (mkWorld d au (base.delete (id socket) ss)
                              ((fun s => s ∖ {[ id socket ]}) <$> rs) em) ->
             sid ∈ members (conversation_ c) (mkWorld d au ss rs em)) as Hrooms.
  { intros c sid. unfold members. simpl. rewrite lookup_fmap.
    destruct (rs !! conversation_ c); simpl; [|done].
    rewrite elem_of_difference. by intros [? _]. }
  destruct (setOnlineStatus now (userId socket) false None d) as [d' [e|[]]];
    simpl in *.
  - split_and!; simpl.
    + by apply membership_conversations.
    + intros sid s Hs. by apply lookup_delete_Some in Hs as [_ ?].
    + intros c sid Hin. left. by apply Hrooms.
    + exists []. by rewrite app_nil_r.
  - split_and!; simpl.
    + by apply membership_conversations.
    + intros sid s Hs. by apply lookup_delete_Some in Hs as [_ ?].
    + intros c sid Hin. left. by apply Hrooms.
    + eexists [_]. split; [done|]. constructor; [|done]. by intros c sid.
Qed.

(** One handled event. *)
Lemma deliver_step w now sid ev :
  world_ok w -> step_ok w (exec (deliver now sid ev) w).
Proof.
  intros Hok. unfold deliver. unfold exec, bind, get. cbn [fst snd].
  destruct (sockets w !! sid) as [socket|] eqn:Hreg; [|apply step_ok_refl].
  assert (sockets w !! id socket = Some socket) as Hreg'.
  { destruct Hok as [Hkey _]. by rewrite (Hkey sid socket Hreg). }
  destruct ev; simpl.
  - by apply join_step.
  - apply leave_step.
  - by apply send_step.
  - apply typing_start_step.
  - apply typing_stop_step.
  - apply mark_step.
  - apply update_status_step.
  - apply disconnect_step.
Qed.

Lemma try_catch_returns {S} (m : M S unit) (h : string -> M S unit) (s : S) :
  (forall e s', (h e s').2 = inr tt) -> (try_catch m h s).2 = inr tt.
Proof.
  intros Hh. unfold try_catch.
  destruct (m s) as [s' [e|[]]]; [apply Hh|done].
Qed.

(** No handler lets an exception out: the next event is handled. *)
Lemma deliver_returns w now sid ev : result (deliver now sid ev) w = inr tt.
Proof.
  unfold deliver, result, bind, get. cbn [fst snd].
  destruct (sockets w !! sid) as [socket|]; [|done].
  destruct ev; cbn [on]; apply try_catch_returns; intros; reflexivity.
Qed.

Lemma run_cons w now sid ev rest :
  exec (run ((now, sid, ev) :: rest)) w
  = exec (run rest) (exec (deliver now sid ev) w).
Proof.
  pose proof (deliver_returns w now sid ev) as Hr.
  unfold exec, result in *. simpl. unfold bind.
  destruct (deliver now sid ev w) as [w1 r]. simpl in *. by subst r.
Qed.

(** Any run of the gateway. *)
Lemma run_step trace w : world_ok w -> step_ok w (exec (run trace) w).
Proof.
  revert w. induction trace as [|[[now sid] ev] rest IH]; intros w Hok.
  - apply step_ok_refl.
  - rewrite run_cons.
    pose proof (deliver_step w now sid ev Hok) as Hstep.
    eapply step_ok_trans; [exact Hstep|].
    apply IH. by eapply world_ok_step.
Qed.

Lemma not_participant c u d :
  ~ participant c u d ->
  findOne (Conversation.memberQuery c u) (conversations d) = None.
Proof.
  unfold participant. intros Hp.
  destruct (findOne _ (conversations d)); [|done]. destruct Hp. by eexists.
Qed.

(** ** A connection that is in a room *)

Lemma kept_refl c sid w : kept c sid w w.
Proof. split; [done|]. exists []. by rewrite app_nil_r. Qed.

Lemma kept_trans c sid w w' w'' :
  kept c sid w w' -> kept c sid w' w'' -> kept c sid w w''.
Proof.
  intros (Hin & new & He & Hnew) (Hin' & new' & He' & Hnew'). split; [auto|].
  exists (new ++ new'). split; [by rewrite He', He, app_assoc|].
  apply Forall_app. split; [done|].
  eapply Forall_impl; [exact Hnew'|]. simpl. auto.
Qed.

(** A handler that left the rooms alone and emitted [new]. *)
Lemma kept_frame c sid w d' au ss new :
  Forall (fun e => event_conversation (event e) = Some c ->
                   sid ∈ members (conversation_ c) w ->
                   sid ∈ recipients e) new ->
  kept c sid w (mkWorld d' au ss (rooms w) (emitted w ++ new)).
Proof. intros Hnew. split; [done|]. by exists new. Qed.

Lemma kept_error c sid w (rcpt : gset SocketId) msg :
  Forall (fun e => event_conversation (event e) = Some c ->
                   sid ∈ members (conversation_ c) w ->
                   sid ∈ recipients e) [mkEmit rcpt (error msg)].
Proof. by constructor. Qed.

(** An event about [c'] sent to the room of [c'], the sender apart. *)
Lemma kept_to_room c sid w (skip : gset SocketId) c' ev :
  event_conversation ev = Some c' -> sid ∉ skip ->
  Forall (fun e => event_conversation (event e) = Some c ->
                   sid ∈ members (conversation_ c) w ->
                   sid ∈ recipients e)
         [mkEmit (members (conversation_ c') w ∖ skip) ev].
Proof.
  intros Hev Hskip. constructor; [|done]. simpl. intros Hc Hin.
  assert (c' = c) as -> by congruence. by apply elem_of_difference.
Qed.

(** The handler of any event on another connection. *)
Lemma on_kept w now socket ev c sid :
  id socket <> sid -> kept c sid w (exec (on now socket ev) w).
Proof.
  intros Hother.
  assert (sid ∉ ({[ id socket ]} : gset SocketId)) as Hskip.
  { by intros ->%elem_of_singleton. }
  destruct ev as [c'|c'|c' content ty replyTo|c'|c'|c' ids|status|]; cbn [on].
  - (* join *)
    unfold join_conversation, socket_join, socket_to_emit, emit. run_monad.
    destruct (findOne _ (conversations (db w))); simpl; [|apply kept_refl].
    split; simpl.
    + unfold members. simpl. destruct (decide (c' = c)) as [->|Hne].
      * rewrite lookup_insert_eq. simpl. intros Hin.
        apply elem_of_union. by right.
      * by rewrite lookup_insert_ne by congruence.
    + eexists [_]. split; [done|]. constructor; [|done]. simpl.
      intros [= ->]. unfold members. simpl. rewrite lookup_insert_eq. simpl.
      intros Hin. apply elem_of_difference. split; [|done].
      apply elem_of_union. by right.
  - (* leave *)
    unfold leave_conversation, socket_leave, socket_to_emit, emit. run_monad.
    split; simpl.
    + unfold members. simpl. destruct (decide (c' = c)) as [->|Hne].
      * rewrite lookup_insert_eq. simpl. intros Hin.
        by apply elem_of_difference.
      * by rewrite lookup_insert_ne by congruence.
    + eexists [_]. split; [done|]. constructor; [|done]. simpl.
      intros [= ->]. unfold members. simpl. rewrite lookup_insert_eq. simpl.
      intros Hin. by rewrite !elem_of_difference.
  - (* send *)
    unfold send_message, store, io_to_emit, socket_emit, emit.
    unfold exec, bind, try_catch, get, lift, fresh. cbn [fst snd].
    destruct w as [d au ss rs em]. cbn [db] in *.
    destruct (findOne _ (conversations d)) as [conv|].
    2:{ simpl. apply (kept_frame c sid (mkWorld d au ss rs em)), kept_error. }
    unfold save_message.
    destruct (Message.validate _) eqn:Hv.
    { simpl. apply (kept_frame c sid (mkWorld d au ss rs em)), kept_error. }
    unfold bind, modify, ret. cbn [db set_db].
    unfold save_conversation.
    destruct (Conversation.save_error _).
    { simpl. apply (kept_frame c sid (mkWorld d au ss rs em)), kept_error. }
    unfold bind, modify, ret. cbn [db set_db fst snd].
    apply (kept_frame c sid (mkWorld d au ss rs em)).
    constructor; [|done]. cbn [event recipients].
    rewrite event_conversation_new_message by done.
    simpl. by intros [= ->].
  - (* typing *)
    unfold typing_start, socket_to_emit, emit. run_monad.
    destruct w as [d au ss rs em].
    by apply (kept_frame c sid (mkWorld d au ss rs em)), kept_to_room.
  - unfold typing_stop, socket_to_emit, emit. run_monad.
    destruct w as [d au ss rs em].
    by apply (kept_frame c sid (mkWorld d au ss rs em)), kept_to_room.
  - (* mark *)
    unfold mark_messages_read, store, socket_to_emit, socket_emit, emit.
    unfold exec, bind, try_catch, get, lift, modify. cbn [fst snd].
    destruct w as [d au ss rs em]. cbn [db].
    destruct (findOne _ (conversations d)) as [conv|].
    2:{ simpl. apply (kept_frame c sid (mkWorld d au ss rs em)), kept_error. }
    change (db (mkWorld d au ss rs em)) with d.
    destruct (mark_each now (userId socket) ids d) as [d' [e|[]]];
      unfold set_db; simpl.
    + apply (kept_frame c sid (mkWorld d au ss rs em)), kept_error.
    + apply (kept_frame c sid (mkWorld d au ss rs em) d' au ss
               [mkEmit (members (conversation_ c') (mkWorld d au ss rs em)
                          ∖ {[ id socket ]})
                       (messages_read (userId socket) c' ids)]).
      by apply kept_to_room.
  - (* status *)
    unfold update_status, socket_broadcast_emit, emit. run_monad.
    destruct w as [d au ss rs em].
    apply (kept_frame c sid (mkWorld d au ss rs em)). by constructor.
  - (* disconnect *)
    unfold disconnect, close, store, socket_broadcast_emit, emit.
    unfold exec, bind, try_catch, get, lift, modify. cbn [fst snd].
    destruct w as [d au ss rs em].
    cbn [db set_db set_activeUsers set_sockets set_rooms].
    change (db (mkWorld d au (base.delete (id socket) ss)
                        ((fun s => s ∖ {[ id socket ]}) <$> rs) em)) with d.
    assert (sid ∈ members (conversation_ c) (mkWorld d au ss rs em) ->
            forall d' au' ss' em',
              sid ∈ members (conversation_ c)
                      (mkWorld d' au' ss' ((fun s => s ∖ {[ id socket ]}) <$> rs) em'))
      as Hrooms.
    { unfold members. simpl. intros Hin ? ? ? ?. rewrite lookup_fmap.
      destruct (rs !! conversation_ c); simpl in *; [|done].
      by apply elem_of_difference. }
    destruct (setOnlineStatus now (userId socket) false None d) as [d' [e|[]]];
      simpl.
    + split; [intros Hin; by apply Hrooms|]. exists []. by rewrite app_nil_r.
    + split; [intros Hin; by apply Hrooms|].
      eexists [_]. split; [done|]. by constructor.
Qed.

(** Any run of the gateway in which no event is handled on [sid]. *)
Lemma run_kept trace w c sid :
  world_ok w ->
  Forall (fun t => t.1.2 <> sid) trace ->
  kept c sid w (exec (run trace) w).
Proof.
  revert w. induction trace as [|[[now sid'] ev] rest IH]; intros w Hok Hothers.
  - apply kept_refl.
  - apply Forall_cons in Hothers as [Hsid' Hothers]. simpl in Hsid'.
    rewrite run_cons.
    eapply kept_trans; [|apply IH; [|done]].
    + unfold deliver. unfold exec, bind, get. cbn [fst snd].
      destruct (sockets w !! sid') as [socket|] eqn:Hreg; [|apply kept_refl].
      apply on_kept. destruct Hok as [Hkey _]. by rewrite (Hkey sid' socket Hreg).
    + eapply world_ok_step; [done|]. by apply deliver_step.
Qed.

(** C5, as the code has it. [u] is connected and is not a participant of
    [c]. Sending to [c] and marking messages of [c] read each emit one
    error event to the caller and change nothing else; joining [c] changes
    nothing and emits nothing. If no connection of [u] is in the room of
    [c] at that point, then whatever events the gateway handles afterwards,
    no connection of [u] is in that room and no event about [c] is sent to
    one. A connection that is in the room of [c], of [u] or of anyone,
    stays in it and is sent every event about [c] as long as no event is
    handled on that connection itself. *)
Theorem nonparticipant_is_refused (w : World) (now : Date) (socket : Socket)
    (c : ObjectId) (content : string) (ty : option string)
    (replyTo : option ObjectId) (ids : list ObjectId) :
  ~ participant c (userId socket) (db w) ->
  exec (send_message now socket c content ty replyTo) w
  = set_emitted (emitted w ++
                   [mkEmit {[ id socket ]} (error "Conversation not found")]) w /\
  exec (mark_messages_read now socket c ids) w
  = set_emitted (emitted w ++
                   [mkEmit {[ id socket ]} (error "Conversation not found")]) w /\
  exec (join_conversation socket c) w = w /\
  (world_ok w ->
   (forall sid, socket_of (userId socket) w sid ->
                sid ∉ members (conversation_ c) w) ->
   forall trace,
     let w' := exec (run trace) (exec (join_conversation socket c) w) in
     forall sid, socket_of (userId socket) w sid ->
       (sid ∉ members (conversation_ c) w') /\
       forall e, e ∈ emitted_since w w' -> ~ reaches c sid e) /\
  (world_ok w ->
   forall sid, socket_of (userId socket) w sid ->
     sid ∈ members (conversation_ c) w ->
     forall trace, Forall (fun t => t.1.2 <> sid) trace ->
       let w' := exec (run trace) (exec (join_conversation socket c) w) in
       sid ∈ members (conversation_ c) w' /\
       forall e, e ∈ emitted_since w w' ->
                 event_conversation (event e) = Some c -> sid ∈ recipients e).
Proof.
  intros Hnot. apply not_participant in Hnot as Hfind.
  assert (exec (join_conversation socket c) w = w) as Hjoin.
  { unfold join_conversation. run_monad. by rewrite Hfind. }
  split_and!.
  - unfold send_message, socket_emit, emit. run_monad. by rewrite Hfind.
  - unfold mark_messages_read, socket_emit, emit. run_monad. by rewrite Hfind.
  - exact Hjoin.
  - intros Hok Hout trace w' sid Hsid. subst w'. rewrite Hjoin.
    destruct (run_step trace w Hok) as (Hm & Hs & Hr & new & He & Hnew).
    assert (forall sid', socket_of (userId socket) w sid' -> ~ allowed w c sid')
      as Hnever.
    { intros sid' Hsid' [Hin|(s & Hreg & Hp)]; [by apply (Hout sid')|].
      destruct Hsid' as (s' & Hreg' & Hu).
      assert (s = s') as -> by congruence. apply Hnot. by rewrite <- Hu. }
    split.
    + intros Hin. apply (Hnever sid Hsid). by apply Hr.
    + intros e He0 [Hc Hrcpt]. unfold emitted_since in He0.
      rewrite He, drop_app_length in He0.
      rewrite Forall_forall in Hnew.
      apply (Hnever sid Hsid). by apply (Hnew e He0).
  - intros Hok sid _ Hin trace Hothers w'. subst w'. rewrite Hjoin.
    destruct (run_kept trace w c sid Hok Hothers) as (Hstay & new & He & Hnew).
    split; [by apply Hstay|].
    intros e He0 Hc. unfold emitted_since in He0.
    rewrite He, drop_app_length in He0.
    rewrite Forall_forall in Hnew. by apply (Hnew e He0).
Qed.

End Rooms.
(* ===================================================================== *)
(** * The statements on the sample data *)
(* ===================================================================== *)

Section OnSamples.
Import Gateway.

(** Decide a closed proposition by evaluation. *)
Ltac decide_by_eval := apply (bool_decide_unpack _); vm_compute; exact I.

Lemma sample_world_ok : world_ok Sample.in_rooms.
Proof.
  split.
  - intros sid s Hreg. apply elem_of_map_to_list in Hreg.
    vm_compute in Hreg. apply list_elem_of_In in Hreg. simpl in Hreg.
    destruct Hreg as [[= <- <-]|[[= <- <-]|[[= <- <-]|[]]]]; reflexivity.
  - vm_compute. decide_by_eval.
Defined.

Lemma sample_carol_outside sid :
  socket_of 3 Sample.in_rooms sid ->
  sid ∉ members (conversation_ 10) Sample.in_rooms.
Proof.
  intros (s & Hreg & Hu). apply elem_of_map_to_list in Hreg.
  vm_compute in Hreg. apply list_elem_of_In in Hreg. simpl in Hreg.
  destruct Hreg as [[= <- <-]|[[= <- <-]|[[= <- <-]|[]]]]; discriminate.
Defined.

Lemma sample_carol_not_in_direct : ~ participant 10 3 (db Sample.in_rooms).
Proof. unfold participant. vm_compute. by intros [? ?]. Defined.

(** The unread count on the sample: none, one, several. *)
Example unread_none : Message.getUnreadCount 11 1 (messages Sample.store0) = 0%nat.
Proof. reflexivity. Qed.

Example unread_one : Message.getUnreadCount 10 1 (messages Sample.store0) = 1%nat.
Proof. reflexivity. Qed.

Example unread_several : Message.getUnreadCount 10 2 (messages Sample.store0) = 2%nat.
Proof. reflexivity. Qed.

Example unread_after_reading :
  Message.getUnreadCount 10 2 (messages (exec (Messages.read 5000 2 20) Sample.store0))
  = 1%nat.
Proof. reflexivity. Qed.

Lemma create_direct_twice_witness :
  let first := Conversations.create 5000 1 [3%nat] (Some "direct") None None in
  let second := Conversations.create 6000 3 [1%nat] None None None in
  let d1 := exec first Sample.store0 in
  exists c,
    data <$> answer first Sample.store0 = Some (Some c) /\
    direct_of 1 3 c /\
    (participants_hold Sample.store0 ->
     forall p, p ∈ Conversation.participants c <-> p = 1%nat \/ p = 3%nat) /\
    c ∈ conversations d1 /\
    answer second d1 = Some (respond 200 "Conversation already exists" (Some c)) /\
    exec second d1 = d1 /\
    ((direct_count 1 3 Sample.store0 <= 1)%nat -> direct_count 1 3 d1 = 1%nat).
Proof.
  apply (create_direct_twice Sample.store0 1 3
           5000 1 [3%nat] (Some "direct") None None
           6000 3 [1%nat] None None None).
  - discriminate.
  - vm_compute. decide_by_eval.
  - vm_compute. by eexists.
  - vm_compute. by eexists.
  - vm_compute. repeat constructor; discriminate.
  - intros p. simpl. rewrite !elem_of_cons, elem_of_nil. tauto.
  - intros p. simpl. rewrite !elem_of_cons, elem_of_nil. tauto.
  - reflexivity.
  - reflexivity.
  - reflexivity.
  - reflexivity.
  - exact I.
Defined.

Lemma toJSON_hides_secrets_witness :
  User.toJSON Sample.alice
  = User.toJSON (User.with_secrets "another hash" (Some "s9") Sample.alice) /\
  Admin.toJSON 5000 Sample.root
  = Admin.toJSON 5000 (Admin.with_secrets "another hash" (Some "totp") Sample.root).
Proof.
  pose proof (toJSON_hides_secrets 5000
                Sample.alice (User.with_secrets "another hash" (Some "s9") Sample.alice)
                Sample.root (Admin.with_secrets "another hash" (Some "totp") Sample.root))
    as H.
  destruct H as (_ & _ & _ & _ & Hu & Ha).
  - unfold same_public_user. simpl. repeat split.
  - unfold same_public_admin. simpl. repeat split.
  - split; [exact Hu|exact Ha].
Defined.

(** C8, as stated, fails on a soft-deleted message: bob's message [m21],
    deleted by him, is still his and half a second old, and his edit is
    answered 404. *)
Lemma edit_of_deleted_message_refused :
  let d := Sample.store_deleted in
  (exists m, findById 21%nat (messages d) = Some m /\
             Message.sender m = 2%nat /\
             3500 - Message.createdAt m <= Messages.editWindow) /\
  status <$> answer (Messages.edit 3500 2 21 (Some "again")) d = Some 404%nat /\
  exec (Messages.edit 3500 2 21 (Some "again")) d = d.
Proof.
  split_and!.
  - eexists. split; [vm_compute; reflexivity|]. split; [reflexivity|]. vm_compute.
    discriminate.
  - vm_compute. reflexivity.
  - vm_compute. reflexivity.
Qed.

Lemma edit_within_window_witness :
  let d := Sample.store0 in
  let now := 2000 + Messages.editWindow in
  status <$> answer (Messages.edit now 2 21 (Some "  second, edited ")) d
  = Some 200%nat /\
  status <$> answer (Messages.edit (now + 1000) 2 21 (Some "  second, edited ")) d
  = Some 400%nat.
Proof.
  pose proof (edit_within_window Sample.store0 (2000 + Messages.editWindow) 2 21
                "  second, edited " Sample.m21) as Hedge.
  pose proof (edit_within_window Sample.store0 (2000 + Messages.editWindow + 1000) 2 21
                "  second, edited " Sample.m21) as Hpast.
  split.
  - apply Hedge; [reflexivity|reflexivity|discriminate|vm_compute; lia|].
    vm_compute. discriminate.
  - apply Hpast; [reflexivity|reflexivity|discriminate|vm_compute; lia|].
    vm_compute. reflexivity.
Defined.

(** C7, as stated, fails on the listing: before bob deletes [m21] the
    readers of conversation 10 are served the messages 20, 21, 22; after,
    20 and 22. *)
Lemma deleted_message_leaves_listing :
  let d := Sample.store0 in
  let d' := exec (Messages.delete 3000 2 21) d in
  (exists served,
      Message.getConversationMessages 10 1 50 (messages d) = inr served /\
      Message._id <$> reverse served = [20; 21; 22]%nat) /\
  (exists served,
      Message.getConversationMessages 10 1 50 (messages d') = inr served /\
      Message._id <$> reverse served = [20; 22]%nat) /\
  Message._id <$> messages d' = [20; 21; 22]%nat /\
  (fun r => length <$> data r) <$> answer (Messages.list_messages 1 10 1 50) d'
  = Some (Some 2%nat).
Proof.
  split_and!; [eexists; split; vm_compute; reflexivity..| |];
    vm_compute; reflexivity.
Qed.

Lemma softDelete_keeps_row_hides_message_witness :
  let d := Sample.store0 in
  let d' := exec (Messages.delete 3000 2 21) d in
  let m' := Message.set_updatedAt 3000 (Message.softDelete 3000 Sample.m21) in
  findById 21%nat (messages d') = Some m' /\
  get_field "content" (Message.toJSON m') = Some (VStr Message.placeholder) /\
  listing 10 d' = List.filter (fun x => negb (Nat.eqb (Message._id x) 21)) (listing 10 d).
Proof.
  destruct (softDelete_keeps_row_hides_message Sample.store0 3000 2 21 Sample.m21)
    as (_ & Hrow & _ & _ & Hcontent & _ & _ & _ & Hlisting & _).
  - vm_compute. decide_by_eval.
  - reflexivity.
  - reflexivity.
  - split; [exact Hrow|]. split; [exact Hcontent|]. apply Hlisting.
Defined.

Lemma disconnect_goes_offline_witness :
  let w' := exec (disconnect 7000 Sample.sb_open) Sample.in_rooms in
  lookup_connection 2 w' = None /\
  (exists account',
      findById 2%nat (users (db w')) = Some account' /\
      User.isOnline account' = false /\
      User.lastSeen account' = 7000 /\
      User.socketId account' = None) /\
  presence_ok (db w').
Proof.
  destruct (disconnect_goes_offline Sample.in_rooms 7000 Sample.sb_open
              (User.setOnlineStatus 4000 true (Some "sb") Sample.bob))
    as (Hreg & _ & Hacc & _ & Hok).
  - reflexivity.
  - unfold presence_ok. vm_compute. repeat constructor.
  - split; [exact Hreg|]. split; [exact Hacc|exact Hok].
Defined.

(** C3 on the socket handler. Bob's connection sends [mark_messages_read]
    for conversation 10 with the id of alice's message 20 twice. Both tasks
    of the map read the message before either saves; neither finds a
    receipt of bob, and both push one: the stored message holds two
    receipts of bob. The same message marked twice through the read route
    holds one. *)
Theorem mark_messages_read_repeated_id :
  let w := Sample.in_rooms in
  let w' := exec (mark_messages_read 5000 Sample.sb_open 10 [20; 20]%nat) w in
  let d'' := exec (Messages.read 5000 2 20 ;; Messages.read 6000 2 20) (db w) in
  participant 10 2 (db w) /\
  receipts_of 2 <$> findById 20%nat (messages (db w)) = Some [] /\
  receipts_of 2 <$> findById 20%nat (messages (db w'))
  = Some [Message.mkReceipt 2 5000; Message.mkReceipt 2 5000] /\
  receipts_of 2 <$> findById 20%nat (messages d'')
  = Some [Message.mkReceipt 2 5000].
Proof.
  split_and!.
  - unfold participant. vm_compute. by eexists.
  - vm_compute. reflexivity.
  - vm_compute. reflexivity.
  - vm_compute. reflexivity.
Qed.

(** C4, as stated, fails on content that the schema refuses: alice, a
    participant of conversation 10, sends the empty string; nothing is
    stored and she alone is sent an error. Content with white space around
    it is stored trimmed. *)
Lemma send_empty_content_refused :
  let w := Sample.in_rooms in
  let w' := exec (send_message 5000 Sample.sa_open 10 "" None None) w in
  let w'' := exec (send_message 5000 Sample.sa_open 10 "  hello " None None) w in
  participant 10 1 (db w) /\
  messages (db w') = messages (db w) /\
  (fun e => (elements (recipients e), event e)) <$> emitted_since w w'
  = [(["sa"], error "Failed to send message")] /\
  Message.content <$> last (messages (db w'')) = Some "hello".
Proof.
  split_and!.
  - unfold participant. vm_compute. by eexists.
  - vm_compute. reflexivity.
  - vm_compute. reflexivity.
  - vm_compute. reflexivity.
Qed.

Lemma send_message_delivers_witness :
  let w := Sample.in_rooms in
  let w' := exec (send_message 5000 Sample.sa_open 10 "hello" None None) w in
  let w'' := exec (send_message 5000 Sample.sa_open 10 "hello" (Some "video") None) w in
  elements (members (conversation_ 10) w) = ["sa"; "sb"] /\
  (exists m conv' doc,
    messages (db w') = messages (db w) ++ [m] /\
    Message.sender m = 1%nat /\
    Message.content m = "hello" /\
    findById 10%nat (conversations (db w')) = Some conv' /\
    Conversation.lastMessage conv' = Some (Message._id m) /\
    emitted w' = emitted w ++
      [mkEmit (members (conversation_ 10) w) (new_message doc)] /\
    get_field "content" doc = Some (VStr "hello") /\
    get_field "sender" doc
    = Some (VObj (User.select ["username"; "email"; "avatar"]
                              (User.setOnlineStatus 4000 true (Some "sa") Sample.alice)))) /\
  messages (db w'') = messages (db w) /\
  emitted w'' = emitted w ++ [mkEmit {[ "sa" ]} (error "Failed to send message")].
Proof.
  split; [vm_compute; reflexivity|].
  destruct (send_message_delivers Sample.in_rooms 5000 Sample.sa_open 10 "hello"
              None None Sample.direct_ab) as [Haccept _]; [reflexivity|].
  destruct (send_message_delivers Sample.in_rooms 5000 Sample.sa_open 10 "hello"
              (Some "video") None Sample.direct_ab) as [_ Hrefuse]; [reflexivity|].
  destruct Haccept
    as (m & conv' & doc & Hm & _ & Hs & _ & Hc & Hf & Hl & _ & _ & He & _ & _ &
        Hdc & Hds & _).
  - discriminate.
  - vm_compute. lia.
  - decide_by_eval.
  - reflexivity.
  - vm_compute. decide_by_eval.
  - vm_compute. repeat constructor; discriminate.
  - destruct Hrefuse as (_ & _ & Hkept & _ & _ & Herr).
    { right. right. decide_by_eval. }
    split_and!; [|exact Hkept|exact Herr].
    exists m, conv', doc. split_and!; assumption.
Defined.

(** C5, as stated, fails for a connection that joined while its user was
    still a participant: carol left the group 11 over REST, her connection
    is still in its room, her new join is refused without a word, and the
    next message bob sends to the group is delivered to her. *)
Lemma stale_room_member_still_receives :
  let w := Sample.after_leave in
  let joined := exec (join_conversation Sample.sc_open 11) w in
  let w' := exec (run [(5000, "sb", SendMessage 11 "hi" None None)]) joined in
  socket_of 3 w "sc" /\
  ~ participant 11 3 (db w) /\
  joined = w /\
  exists e, e ∈ emitted_since w w' /\ reaches 11 "sc" e.
Proof.
  split_and!.
  - eexists. split; [vm_compute; reflexivity|reflexivity].
  - unfold participant. vm_compute. by intros [? ?].
  - vm_compute. reflexivity.
  - eexists. split.
    + apply list_elem_of_In. vm_compute. left. reflexivity.
    + split; [reflexivity|]. apply elem_of_elements. vm_compute.
      apply list_elem_of_In. simpl. tauto.
Qed.

Lemma sample_stale_world_ok : world_ok Sample.after_leave.
Proof.
  split.
  - intros sid s Hreg. apply elem_of_map_to_list in Hreg.
    vm_compute in Hreg. apply list_elem_of_In in Hreg. simpl in Hreg.
    destruct Hreg as [[= <- <-]|[[= <- <-]|[[= <- <-]|[]]]]; reflexivity.
  - vm_compute. decide_by_eval.
Defined.

Lemma sample_carol_left_group : ~ participant 11 3 (db Sample.after_leave).
Proof. unfold participant. vm_compute. by intros [? ?]. Defined.

Lemma nonparticipant_is_refused_witness :
  let w := Sample.in_rooms in
  let stale := Sample.after_leave in
  let after := exec (run [(5000, "sb", SendMessage 11 "hi" None None)])
                    (exec (join_conversation Sample.sc_open 11) stale) in
  exec (join_conversation Sample.sc_open 10) w = w /\
  (forall e,
     e ∈ emitted_since w
           (exec (run [(5000, "sa", SendMessage 10 "hello" None None)])
                 (exec (join_conversation Sample.sc_open 10) w)) ->
     ~ reaches 10 "sc" e) /\
  "sc" ∈ members (conversation_ 11) after /\
  (forall e, e ∈ emitted_since stale after ->
             event_conversation (event e) = Some 11%nat -> "sc" ∈ recipients e).
Proof.
  destruct (nonparticipant_is_refused Sample.in_rooms 5000 Sample.sc_open 10
              "hello" None None [20%nat] sample_carol_not_in_direct)
    as (_ & _ & Hjoin & Hafter & _).
  destruct (nonparticipant_is_refused Sample.after_leave 5000 Sample.sc_open 11
              "hello" None None [20%nat] sample_carol_left_group)
    as (_ & _ & _ & _ & Hstale).
  split; [exact Hjoin|]. split.
  - apply (Hafter sample_world_ok sample_carol_outside
             [(5000, "sa", SendMessage 10 "hello" None None)] "sc").
    eexists. split; [vm_compute; reflexivity|reflexivity].
  - apply (Hstale sample_stale_world_ok "sc").
    + eexists. split; [vm_compute; reflexivity|reflexivity].
    + apply elem_of_elements. vm_compute. apply list_elem_of_In. simpl. tauto.
    + repeat constructor. discriminate.
Defined.


(** The edit route also refuses content that is blank (400) or longer
    than the schema allows (500), and stores nothing in either case. *)
Example edit_blank_or_oversized_refused :
  let d := Sample.store0 in
  status <$> answer (Messages.edit 2500 2 21 (Some "   ")) d = Some 400%nat /\
  status <$> answer (Messages.edit 2500 2 21 None) d = Some 400%nat /\
  status <$> answer (Messages.edit 2500 2 21 (Some Sample.too_long)) d = Some 500%nat /\
  messages (exec (Messages.edit 2500 2 21 (Some Sample.too_long)) d) = messages d.
Proof. split_and!; vm_compute; reflexivity. Qed.

(** A message of a kind outside the schema's enumeration is refused the
    same way as empty content. *)
Example send_unknown_kind_refused :
  let w := Sample.in_rooms in
  let w' := exec (send_message 5000 Sample.sa_open 10 "hello" (Some "video") None) w in
  messages (db w') = messages (db w) /\
  (fun e => (elements (recipients e), event e)) <$> emitted_since w w'
  = [(["sa"], error "Failed to send message")].
Proof. split_and!; vm_compute; reflexivity. Qed.

(** What the one-participant direct conversation left by [deleteUser]
    does downstream: bob's next message to it is stored, the save of the
    conversation is then refused by the participant check, and bob is
    sent an error instead of the broadcast. *)
Example send_after_deleteUser_fails :
  let w := Sample.after_deleteUser in
  let w' := exec (send_message 5000 Sample.sb_open 10 "hello" None None) w in
  Conversation.participants <$> findById 10%nat (conversations (db w)) = Some [2%nat] /\
  Message.content <$> messages (db w') = (Message.content <$> messages (db w)) ++ ["hello"] /\
  Conversation.lastMessage <$> findById 10%nat (conversations (db w')) = Some None /\
  (fun e => (elements (recipients e), event e)) <$> emitted_since w w'
  = [(["sb"], error "Failed to send message")].
Proof. split_and!; vm_compute; reflexivity. Qed.

End OnSamples.

(* ===================================================================== *)
(** * Pages of the message listing *)
(* ===================================================================== *)

Section Pages.

Lemma filter_bool_prop {A} (f : A -> bool) (P : A -> Prop)
    `{!forall x, Decision (P x)} (l : list A) :
  (forall x, f x = true <-> P x) -> List.filter f l = filter P l.
Proof.
  intros Hf. induction l as [|x l IH]; [done|]. simpl.
  rewrite filter_cons. destruct (f x) eqn:Hx.
  - rewrite decide_True by (by apply Hf). by rewrite IH.
  - rewrite decide_False; [done|]. intros HP. apply Hf in HP. congruence.
Qed.

Lemma find_listing_live c (coll : list Message.t) :
  find (Message.listingQuery c) coll = filter (live c) coll.
Proof.
  unfold find. apply filter_bool_prop. intros m. rewrite listing_selects.
  unfold live. rewrite andb_true_iff, Nat.eqb_eq, negb_true_iff. done.
Qed.

Lemma insert_desc_perm m l : Message.insert_desc m l ≡ₚ m :: l.
Proof.
  induction l as [|x l IH]; [done|]. simpl. case_bool_decide; [done|].
  rewrite IH. apply Permutation_swap.
Qed.

Lemma sort_desc_perm l : Message.sort_desc l ≡ₚ l.
Proof.
  induction l as [|x l IH]; [done|]. simpl. by rewrite insert_desc_perm, IH.
Qed.

Lemma page_take c limit p (coll : list Message.t) :
  (0 < limit)%nat ->
  Message.getConversationMessages c (Z.of_nat (S p)) (Z.of_nat limit) coll =
  inr (take limit (drop (p * limit)
                        (Message.sort_desc (find (Message.listingQuery c) coll)))).
Proof.
  intros Hl. unfold Message.getConversationMessages, Message.limit_to.
  replace ((Z.of_nat (S p) - 1) * Z.of_nat limit) with (Z.of_nat (p * limit)) by lia.
  destruct (Z.ltb_spec (Z.of_nat (p * limit)) 0); [lia|].
  destruct (Z.eqb_spec (Z.of_nat limit) 0); [lia|].
  by rewrite Zabs2Nat.id, Nat2Z.id.
Qed.

Lemma pages_take c limit n (coll : list Message.t) :
  (0 < limit)%nat ->
  pages c limit n coll =
  take (n * limit) (Message.sort_desc (find (Message.listingQuery c) coll)).
Proof.
  intros Hl. unfold pages. induction n as [|n IH]; [done|].
  rewrite seq_S, fmap_app, join_app, IH. simpl. rewrite app_nil_r.
  unfold page_of. rewrite page_take by done. rewrite take_take_drop. f_equal. lia.
Qed.

Lemma page_served c limit page (coll served : list Message.t) :
  (0 < limit)%nat ->
  Message.getConversationMessages c page (Z.of_nat limit) coll = inr served ->
  (length served <= limit)%nat.
Proof.
  intros Hl. unfold Message.getConversationMessages, Message.limit_to.
  destruct (Z.ltb _ 0); [done|]. intros [= <-].
  destruct (Z.eqb_spec (Z.of_nat limit) 0); [lia|].
  rewrite length_take, Zabs2Nat.id. lia.
Qed.

(** X1. Paging through a conversation with a positive page size shows
    each of its live messages once, newest first: the pages 1 to [n], one
    after the other, are sorted by creation time, never repeat a stored
    message, no page is longer than the page size, and together they are
    all the live messages as soon as [n] pages have room for them. A page
    number below 1 is refused by the query, and the route then answers 500
    to a participant. *)
Theorem pages_cover_listing (c : ObjectId) (limit n : nat)
    (coll : list Message.t) :
  (0 < limit)%nat ->
  StronglySorted newer_first (pages c limit n coll) /\
  pages c limit n coll ⊆+ filter (live c) coll /\
  (forall page served,
     Message.getConversationMessages c page (Z.of_nat limit) coll = inr served ->
     (length served <= limit)%nat) /\
  ((length (filter (live c) coll) <= n * limit)%nat ->
   pages c limit n coll ≡ₚ filter (live c) coll) /\
  (forall page, page < 1 ->
     (exists e, Message.getConversationMessages c page (Z.of_nat limit) coll = inl e) /\
     forall me d, participant c me d -> messages d = coll ->
       answer (Messages.list_messages me c page (Z.of_nat limit)) d
       = Some (respond 500 "Server error getting messages" None)).
Proof.
  intros Hl. rewrite pages_take by done.
  set (L := Message.sort_desc (find (Message.listingQuery c) coll)).
  assert (L ≡ₚ filter (live c) coll) as HL.
  { unfold L. by rewrite sort_desc_perm, find_listing_live. }
  split_and!.
  - apply (StronglySorted_app_1_l _ _ (drop (n * limit) L)).
    rewrite take_drop. apply sort_desc_sorted.
  - rewrite <- HL. apply submseteq_take.
  - intros page served. by apply page_served.
  - intros Hn. rewrite <- HL. rewrite take_ge; [done|]. by rewrite HL.
  - intros page Hpage.
    assert (Message.getConversationMessages c page (Z.of_nat limit) coll
            = inl "Skip value must be non-negative") as Hrefused.
    { unfold Message.getConversationMessages.
      destruct (Z.ltb_spec ((page - 1) * Z.of_nat limit) 0); [done|nia]. }
    split; [by eexists|].
    intros me d [conv Hconv] <-. unfold answer, Messages.list_messages. run_monad.
    rewrite Hconv. simpl. by rewrite Hrefused.
Qed.

End Pages.

(* ===================================================================== *)
(** * Who may edit and delete, and what a read changes *)
(* ===================================================================== *)

Section MessageRoutes.

Lemma findOne_own_none id me (coll : list Message.t) :
  (forall m, m ∈ coll -> Message._id m = id -> Message.sender m = me ->
             Message.isDeleted m = true) ->
  findOne (Message.ownQuery id me) coll = None.
Proof.
  intros Hnone. destruct (findOne _ coll) as [m|] eqn:Hf; [|done].
  apply findOne_own in Hf as (Hin & Hid & Hs & Hd).
  apply list_elem_of_In in Hin. rewrite (Hnone m Hin Hid Hs) in Hd. done.
Qed.

Lemma elem_of_replace {T} `{Model T} (z x : T) (coll : list T) :
  x ∈ replace z coll -> doc_id x = doc_id z -> x = z.
Proof.
  unfold replace. intros Hin Hid.
  apply list_elem_of_fmap in Hin as (y & -> & _).
  destruct (Nat.eqb_spec (doc_id y) (doc_id z)); [done|]. done.
Qed.

Lemma edit_without_own now me id content (d : DB) :
  findOne (Message.ownQuery id me) (messages d) = None ->
  exec (Messages.edit now me id content) d = d /\
  (status <$> answer (Messages.edit now me id content) d = Some 400%nat \/
   status <$> answer (Messages.edit now me id content) d = Some 404%nat).
Proof.
  intros Hnone. unfold answer, Messages.edit. run_monad.
  destruct content as [content|]; simpl; [|by split; [|left]].
  destruct (_ || _); simpl; [by split; [|left]|].
  rewrite Hnone. simpl. by split; [|right].
Qed.

Lemma delete_without_own now me id (d : DB) :
  findOne (Message.ownQuery id me) (messages d) = None ->
  exec (Messages.delete now me id) d = d /\
  status <$> answer (Messages.delete now me id) d = Some 404%nat.
Proof.
  intros Hnone. unfold answer, Messages.delete. run_monad.
  by rewrite Hnone.
Qed.

(** X2. Only its sender edits or deletes a message: when no stored message
    of that id was sent by the caller, the edit route answers 400 or 404,
    the delete route answers 404, and neither writes anything. *)
Theorem only_sender_edits_or_deletes (d : DB) (now : Date) (me id : ObjectId)
    (content : option string) :
  (forall m, m ∈ messages d -> Message._id m = id -> Message.sender m <> me) ->
  exec (Messages.edit now me id content) d = d /\
  (status <$> answer (Messages.edit now me id content) d = Some 400%nat \/
   status <$> answer (Messages.edit now me id content) d = Some 404%nat) /\
  exec (Messages.delete now me id) d = d /\
  status <$> answer (Messages.delete now me id) d = Some 404%nat.
Proof.
  intros Hother.
  assert (findOne (Message.ownQuery id me) (messages d) = None) as Hnone.
  { apply findOne_own_none. intros m Hin Hid Hs. by destruct (Hother m Hin Hid). }
  destruct (edit_without_own now me id content d Hnone) as [? ?].
  destruct (delete_without_own now me id d Hnone) as [? ?].
  done.
Qed.

(** X3. A deletion that succeeded cannot be repeated, and what it deleted
    cannot be edited: the same caller is then answered 404 by the delete
    route and 400 or 404 by the edit route, and neither writes anything. *)
Theorem delete_cannot_be_repeated (d : DB) (now now' : Date) (me id : ObjectId)
    (content : option string) :
  status <$> answer (Messages.delete now me id) d = Some 200%nat ->
  let d1 := exec (Messages.delete now me id) d in
  exec (Messages.delete now' me id) d1 = d1 /\
  status <$> answer (Messages.delete now' me id) d1 = Some 404%nat /\
  exec (Messages.edit now' me id content) d1 = d1 /\
  (status <$> answer (Messages.edit now' me id content) d1 = Some 400%nat \/
   status <$> answer (Messages.edit now' me id content) d1 = Some 404%nat).
Proof.
  intros Hok d1.
  assert (findOne (Message.ownQuery id me) (messages d1) = None) as Hnone.
  { subst d1. revert Hok. unfold answer, Messages.delete. run_monad.
    destruct (findOne _ (messages d)) as [m|] eqn:Hf; simpl; [|done].
    unfold save_message.
    destruct (Message.validate (Message.softDelete now m)) eqn:Hv; simpl; [done|].
    intros _. run_monad.
    pose proof (findOne_own _ _ _ _ Hf) as (Hin & Hid & _ & _).
    unfold upsert. replace (existsb _ (messages d)) with true.
    2:{ symmetry. apply existsb_exists. exists m. split; [done|].
        simpl. apply Nat.eqb_refl. }
    apply findOne_own_none. intros x Hx Hxid _.
    apply elem_of_replace in Hx; [by subst x|]. simpl. congruence. }
  destruct (edit_without_own now' me id content d1 Hnone) as [? ?].
  destruct (delete_without_own now' me id d1 Hnone) as [? ?].
  done.
Qed.

Lemma replace_split {T} `{Model T} (z x : T) (coll : list T) :
  NoDup (doc_id <$> coll) -> findById (doc_id z) coll = Some x ->
  exists l1 l2, coll = l1 ++ x :: l2 /\ replace z coll = l1 ++ z :: l2.
Proof.
  unfold findById, replace. intros Hnd Hf.
  induction coll as [|y l IH]; [done|].
  rewrite fmap_cons in Hnd. apply NoDup_cons in Hnd as [Hy Hnd].
  cbn [List.find] in Hf. rewrite fmap_cons.
  destruct (Nat.eqb_spec (doc_id y) (doc_id z)) as [Heq|Hne].
  - injection Hf as <-. exists [], l. split; [done|]. simpl. f_equal.
    rewrite <- (list_fmap_id l) at 2. apply list_fmap_ext. intros i w Hw. simpl.
    destruct (Nat.eqb_spec (doc_id w) (doc_id z)) as [Hw'|]; [|done].
    destruct Hy. rewrite Heq, <- Hw'. apply list_elem_of_fmap.
    exists w. split; [done|]. by eapply list_elem_of_lookup_2.
  - destruct (IH Hnd Hf) as (l1 & l2 & -> & Hr).
    exists (y :: l1), l2. split; [done|]. simpl. by rewrite Hr.
Qed.

Lemma count_app_cons {T} `{Model T} q (l1 l2 : list T) (x : T) :
  countDocuments q (l1 ++ x :: l2) =
  (countDocuments q l1 + (if selects q x then 1 else 0) + countDocuments q l2)%nat.
Proof.
  unfold countDocuments, find. rewrite List.filter_app. simpl.
  destruct (selects q x); rewrite length_app; simpl; lia.
Qed.

(** X4. Reading a message lowers the reader's unread count of its
    conversation by one and no other count: when the message [id] is
    stored, valid and unread by the caller, a participant of its
    conversation, the read route answers 200, the caller's count for that
    conversation drops by one, and the count of every other reader or
    conversation stays as it was. *)
Theorem read_lowers_unread_count (d : DB) (now : Date) (me id c : ObjectId)
    (m : Message.t) :
  NoDup (Message._id <$> messages d) ->
  findById id (messages d) = Some m ->
  Message.validate m = None ->
  unread c me m ->
  participant c me d ->
  let d' := exec (Messages.read now me id) d in
  status <$> answer (Messages.read now me id) d = Some 200%nat /\
  (Message.getUnreadCount c me (messages d') + 1)%nat
  = Message.getUnreadCount c me (messages d) /\
  (forall c' u, (c', u) <> (c, me) ->
     Message.getUnreadCount c' u (messages d')
     = Message.getUnreadCount c' u (messages d)).
Proof.
  intros Hnd Hm Hv Hunread [conv Hconv] d'.
  pose proof Hunread as (Hc & Hs & Hr & Hdel).
  pose proof (findById_id _ _ _ Hm) as Hid. simpl in Hid.
  set (m' := Message.set_updatedAt now
               (Message.set_readBy
                  (Message.readBy m ++ [Message.mkReceipt me now]) m)).
  assert (Message.markAsRead now me m
          = Some (Message.set_readBy
                    (Message.readBy m ++ [Message.mkReceipt me now]) m)) as Hmark.
  { unfold Message.markAsRead. rewrite existsb_reader_elem_of.
    by rewrite bool_decide_eq_false_2. }
  assert (messages d' = replace m' (messages d) /\
          status <$> answer (Messages.read now me id) d = Some 200%nat)
    as [Hd' Hstatus].
  { subst d'. unfold answer, Messages.read, Messages.markAsRead. run_monad.
    rewrite Hm. simpl. rewrite Hc, Hconv. simpl. rewrite Hmark.
    rewrite validate_set_readBy, Hv. run_monad.
    split; [|done]. by apply push_readBy_replace; [|rewrite Hid]. }
  assert (exists l1 l2, messages d = l1 ++ m :: l2 /\
                        replace m' (messages d) = l1 ++ m' :: l2)
    as (l1 & l2 & Hl & Hrep).
  { apply replace_split; [exact Hnd|]. simpl. by rewrite Hid. }
  rewrite Hd', Hrep, Hl. unfold Message.getUnreadCount.
  split_and!; [done| |].
  - rewrite !count_app_cons.
    assert (selects (Message.unreadQuery c me) m = true) as ->
      by by apply unread_selects_iff.
    assert (selects (Message.unreadQuery c me) m' = false) as ->; [|lia].
    rewrite unread_selects. simpl. rewrite existsb_app. simpl.
    rewrite Nat.eqb_refl, orb_true_r. simpl. by rewrite andb_false_r.
  - intros c' u Hne. rewrite !count_app_cons. do 2 f_equal.
    rewrite !unread_selects. simpl. rewrite existsb_app. simpl.
    destruct (Nat.eqb_spec me u) as [<-|Hu]; [|by rewrite orb_false_r].
    destruct (Nat.eqb_spec (Message.conversation m) c') as [<-|]; [|done].
    rewrite Hc in Hne. done.
Qed.

End MessageRoutes.

(* ===================================================================== *)
(** * The two ways to send a message *)
(* ===================================================================== *)

Section SendPaths.
Import Gateway.

Lemma new_message_trimmed id now c u content ty reply :
  Message.new id now c u (trim content) ty reply
  = Message.new id now c u content ty reply.
Proof. unfold Message.new. by rewrite trim_idem. Qed.

Lemma validateMessage_some content ty content' :
  Validation.validateMessage (Some content) ty = Some content' ->
  content' = trim content.
Proof.
  unfold Validation.validateMessage. simpl.
  destruct (_ && _); [|done]. by intros [= <-].
Qed.

(** X5. A message that passes the REST validation is handled alike by
    [POST /api/messages] and by the [send_message] socket event: both leave
    the same store, and the REST route answers 201 with a document exactly
    when the socket handler emits [new_message] with that document. *)
Theorem rest_and_socket_send_agree (w : World) (now : Date) (socket : Socket)
    (c : ObjectId) (content : string) (ty : option string)
    (reply : option ObjectId) :
  is_Some (Validation.validateMessage (Some content) ty) ->
  let w' := exec (send_message now socket c content ty reply) w in
  let rest := Messages.send now (userId socket) c (Some content) ty reply in
  db w' = exec rest (db w) /\
  (forall doc,
     event <$> emitted_since w w' = [new_message doc] <->
     exists r, answer rest (db w) = Some r /\ status r = 201%nat /\
               data r = Some doc).
Proof.
  intros [content' Hval] w' rest. subst w' rest.
  pose proof (validateMessage_some _ _ _ Hval) as ->.
  unfold Messages.send. rewrite Hval.
  unfold answer, send_message, emitted_since, store, socket_emit, io_to_emit, emit,
    fresh.
  run_monad. destruct w as [d au ss rs em]. simpl.
  destruct (findOne _ (conversations d)) as [conv|] eqn:Hconv; simpl.
  - rewrite new_message_trimmed. unfold save_message.
    destruct (Message.validate _) as [e|] eqn:Hv; run_monad.
    { split; [done|]. intros doc. rewrite drop_app_length. split; [done|].
      by intros (r & [= <-] & ? & ?). }
    unfold save_conversation.
    destruct (Conversation.save_error _) as [e|] eqn:Hs; run_monad.
    { split; [done|]. intros doc. rewrite drop_app_length. split; [done|].
      by intros (r & [= <-] & ? & ?). }
    split; [done|]. intros doc. rewrite drop_app_length. simpl. split.
    + intros [= <-]. eexists. split_and!; [done..|]. simpl. done.
    + intros (r & [= <-] & _ & [= <-]). done.
  - split; [done|]. intros doc. rewrite drop_app_length. split; [done|].
    by intros (r & [= <-] & ? & ?).
Qed.

Lemma count_snoc {T} `{Model T} q (l : list T) (x : T) :
  countDocuments q (l ++ [x]) =
  (countDocuments q l + (if selects q x then 1 else 0))%nat.
Proof.
  unfold countDocuments, find. rewrite List.filter_app, length_app. simpl.
  by destruct (selects q x).
Qed.

(** X6. A message sent over REST is unread for everybody but its sender:
    when the id about to be handed out is not in use and the route answers
    201, the unread count of the conversation rises by one for every other
    reader, stays as it was for the sender, and no count of another
    conversation changes. *)
Theorem send_raises_unread_of_others (d : DB) (now : Date) (me c : ObjectId)
    (content ty : option string) (reply : option ObjectId) :
  Forall (fun m => Message._id m <> nextId d) (messages d) ->
  status <$> answer (Messages.send now me c content ty reply) d = Some 201%nat ->
  let d' := exec (Messages.send now me c content ty reply) d in
  (forall u, u <> me ->
     Message.getUnreadCount c u (messages d')
     = S (Message.getUnreadCount c u (messages d))) /\
  Message.getUnreadCount c me (messages d')
  = Message.getUnreadCount c me (messages d) /\
  (forall c' u, c' <> c ->
     Message.getUnreadCount c' u (messages d')
     = Message.getUnreadCount c' u (messages d)).
Proof.
  intros Hfresh Hok d'.
  assert (exists text kind,
            messages d' = messages d ++
              [Message.set_updatedAt now
                 (Message.new (nextId d) now c me text kind reply)])
    as (text & kind & Hd').
  { subst d'. revert Hok. unfold answer, Messages.send.
    destruct (Validation.validateMessage content ty) as [text|]; [|done].
    unfold fresh. run_monad.
    destruct (findOne _ (conversations d)) as [conv|]; simpl; [|done].
    unfold save_message.
    destruct (Message.validate _) as [e|]; run_monad; [done|].
    unfold save_conversation.
    destruct (Conversation.save_error _) as [e|]; run_monad; [done|].
    intros _. eexists _, _. by apply upsert_new. }
  rewrite Hd'. unfold Message.getUnreadCount.
  split_and!; [intros u Hu| |intros c' u Hc'];
    rewrite count_snoc, unread_selects; simpl.
  - rewrite Nat.eqb_refl. apply Nat.eqb_neq in Hu.
    rewrite Nat.eqb_sym, Hu. simpl. lia.
  - rewrite !Nat.eqb_refl. simpl. lia.
  - assert (Nat.eqb c c' = false) as -> by (apply Nat.eqb_neq; congruence).
    simpl. lia.
Qed.

End SendPaths.

(* ===================================================================== *)
(** * Leaving, joining and creating conversations over REST *)
(* ===================================================================== *)

Section ConversationRoutes.

Lemma others_shorter (me : ObjectId) (ps : list ObjectId) :
  me ∈ ps ->
  (length (List.filter (fun p => negb (Nat.eqb p me)) ps) < length ps)%nat.
Proof.
  induction ps as [|p ps IH]; intros Hin; [by apply elem_of_nil in Hin|].
  simpl. destruct (Nat.eqb_spec p me) as [->|Hne]; simpl.
  - pose proof (List.filter_length_le (fun p => negb (Nat.eqb p me)) ps). lia.
  - apply elem_of_cons in Hin as [?|Hin]; [congruence|].
    specialize (IH Hin). lia.
Qed.

Lemma save_error_few c :
  (length (Conversation.participants c) <= 1)%nat ->
  is_Some (Conversation.save_error c).
Proof.
  intros Hlen. unfold Conversation.save_error, Conversation.validate.
  destruct (String.eqb_spec (Conversation.type c) "direct") as [Hd|Hnd].
  - apply save_error_wrong_count. left. split; [done|lia].
  - destruct (String.eqb_spec (Conversation.type c) "group") as [Hg|Hng].
    + apply save_error_wrong_count. right. split; [done|lia].
    + simpl. apply String.eqb_neq in Hnd, Hng. rewrite Hnd, Hng. simpl.
      by eexists.
Qed.

(** X7. A conversation of two cannot be left: when the caller is one of
    at most two participants, which is the case of every direct
    conversation that meets the participant constraint, the leave route
    answers 500 and the store is as it was. *)
Theorem leave_pair_is_refused (d : DB) (now : Date) (me id : ObjectId)
    (c : Conversation.t) :
  findOne (Conversation.memberQuery id me) (conversations d) = Some c ->
  (length (Conversation.participants c) <= 2)%nat ->
  exec (Conversations.leave now me id) d = d /\
  status <$> answer (Conversations.leave now me id) d = Some 500%nat.
Proof.
  intros Hc Hlen. pose proof (findOne_member _ _ _ _ Hc) as (_ & _ & Hme).
  assert (is_Some (Conversation.save_error (Conversation.removeParticipant me c)))
    as [e He].
  { apply save_error_few. pose proof (others_shorter me _ Hme) as Hlt.
    unfold Conversation.removeParticipant. simpl.
    destruct (Nat.eqb _ 0); simpl; lia. }
  unfold answer, Conversations.leave. run_monad. rewrite Hc. simpl.
  unfold save_conversation. rewrite He. done.
Qed.

Lemma validate_removeParticipant u c :
  Conversation.validate (Conversation.removeParticipant u c)
  = Conversation.validate c.
Proof.
  unfold Conversation.removeParticipant. simpl. by destruct (Nat.eqb _ 0).
Qed.

Lemma participants_removeParticipant u c :
  Conversation.participants (Conversation.removeParticipant u c)
  = List.filter (fun p => negb (Nat.eqb p u)) (Conversation.participants c).
Proof.
  unfold Conversation.removeParticipant. simpl. by destruct (Nat.eqb _ 0).
Qed.

Lemma id_removeParticipant u c :
  Conversation._id (Conversation.removeParticipant u c) = Conversation._id c.
Proof.
  unfold Conversation.removeParticipant. simpl. by destruct (Nat.eqb _ 0).
Qed.

Lemma elem_of_replace_self {T} `{Model T} (z x : T) (coll : list T) :
  x ∈ coll -> doc_id z = doc_id x -> z ∈ replace z coll.
Proof.
  intros Hin Hid. unfold replace. apply list_elem_of_fmap. exists x.
  split; [|done]. by rewrite Hid, Nat.eqb_refl.
Qed.

(** Who takes part in [i] once the conversation of that id is rewritten. *)
Lemma participant_replaced i u (c c' : Conversation.t) (d : DB) :
  c ∈ conversations d -> Conversation._id c = i -> Conversation._id c' = i ->
  participant i u (set_conversations (replace c' (conversations d)) d)
  <-> u ∈ Conversation.participants c'.
Proof.
  intros Hin Hc Hc'. rewrite participant_iff. unfold membership. simpl. split.
  - intros (ps & Hps & Hu). apply list_elem_of_fmap in Hps as (x & [= Hx ->] & Hin').
    apply elem_of_replace in Hin'; [by subst x|]. simpl. congruence.
  - intros Hu. exists (Conversation.participants c'). split; [|done].
    apply list_elem_of_fmap. exists c'. split; [by rewrite Hc'|].
    apply elem_of_replace_self with (x := c); [done|]. simpl. congruence.
Qed.

(** X8. Leaving a group that keeps at least two members removes the caller
    and nobody else: for a stored, valid group the caller takes part in,
    the leave route answers 200, and afterwards the participants of the
    conversation are the former ones without the caller; users and
    messages are untouched. *)
Theorem leave_removes_caller (d : DB) (now : Date) (me id : ObjectId)
    (c : Conversation.t) :
  findOne (Conversation.memberQuery id me) (conversations d) = Some c ->
  Conversation.type c = "group" ->
  Conversation.validate c = None ->
  (2 <= length (List.filter (fun p => negb (Nat.eqb p me))
                            (Conversation.participants c)))%nat ->
  let d' := exec (Conversations.leave now me id) d in
  status <$> answer (Conversations.leave now me id) d = Some 200%nat /\
  (forall u, participant id u d' <-> u <> me /\ u ∈ Conversation.participants c) /\
  users d' = users d /\ messages d' = messages d.
Proof.
  intros Hc Hty Hv Hlen d'.
  pose proof (findOne_member _ _ _ _ Hc) as (Hin & Hid & Hme).
  set (c' := Conversation.removeParticipant me c).
  assert (Conversation.save_error c' = None) as Hsave.
  { unfold Conversation.save_error. subst c'.
    rewrite validate_removeParticipant, Hv.
    unfold Conversation.pre_save. rewrite participants_removeParticipant.
    assert (Conversation.type (Conversation.removeParticipant me c) = "group") as ->.
    { unfold Conversation.removeParticipant. simpl. by destruct (Nat.eqb _ 0). }
    simpl. by destruct (Nat.ltb_spec (length (List.filter (fun p => negb (Nat.eqb p me))
                                      (Conversation.participants c))) 2); [lia|]. }
  assert (d' = set_conversations
                 (replace (Conversation.set_updatedAt now c') (conversations d)) d /\
          status <$> answer (Conversations.leave now me id) d = Some 200%nat)
    as [Hd' Hstatus].
  { subst d'. unfold answer, Conversations.leave. run_monad. rewrite Hc. simpl.
    unfold save_conversation. fold c'. rewrite Hsave. run_monad.
    split; [|done]. unfold set_conversations. f_equal.
    unfold upsert. replace (existsb _ (conversations d)) with true; [done|].
    symmetry. apply existsb_exists. exists c. split; [done|]. simpl.
    subst c'. rewrite id_removeParticipant. apply Nat.eqb_refl. }
  split_and!; [done| |by rewrite Hd'..].
  intros u. rewrite Hd'.
  rewrite (participant_replaced id u c); [|by apply list_elem_of_In|done|].
  2:{ simpl. subst c'. by rewrite id_removeParticipant. }
  simpl. subst c'. rewrite participants_removeParticipant.
  rewrite list_elem_of_In, List.filter_In, <- list_elem_of_In, negb_true_iff,
    Nat.eqb_neq.
  tauto.
Qed.

End ConversationRoutes.

Section ConversationRoutes2.

Lemma findOne_member_replaced i me (c' : Conversation.t)
    (coll : list Conversation.t) c :
  findOne (Conversation.memberQuery i me) coll = Some c ->
  Conversation._id c' = i -> me ∈ Conversation.participants c' ->
  findOne (Conversation.memberQuery i me) (replace c' coll) = Some c'.
Proof.
  unfold findOne, replace. intros Hf Hid Hme.
  assert (selects (Conversation.memberQuery i me) c' = true) as Hsel.
  { rewrite member_selects, Hid, Nat.eqb_refl, existsb_eqb_elem_of. simpl.
    by apply bool_decide_eq_true. }
  induction coll as [|x l IH]; [done|].
  rewrite fmap_cons. cbn [List.find] in *.
  destruct (Nat.eqb_spec (doc_id x) (doc_id c')) as [Heq|Hne].
  - by rewrite Hsel.
  - assert (selects (Conversation.memberQuery i me) x = false) as Hx.
    { rewrite member_selects. apply andb_false_iff. left. apply Nat.eqb_neq.
      intros Hxi. apply Hne. simpl. congruence. }
    rewrite Hx in *. by apply IH.
Qed.

(** X9. Adding a participant twice is adding it once: the second call of
    the route with the same caller, conversation and user leaves the store
    as the first call left it; when the first call answered 200, the user
    takes part in the conversation and the second call answers 200 too. *)
Theorem addParticipant_twice (d : DB) (now now' : Date) (me id u : ObjectId) :
  let d1 := exec (Conversations.addParticipant now me id u) d in
  exec (Conversations.addParticipant now' me id u) d1 = d1 /\
  (status <$> answer (Conversations.addParticipant now me id u) d = Some 200%nat ->
   participant id u d1 /\
   status <$> answer (Conversations.addParticipant now' me id u) d1 = Some 200%nat).
Proof.
  unfold answer, Conversations.addParticipant. run_monad.
  destruct (findOne _ (conversations d)) as [c|] eqn:Hc; simpl.
  2:{ rewrite Hc. simpl. done. }
  pose proof (findOne_member _ _ _ _ Hc) as (Hin & Hid & Hme).
  destruct (findById u (users d)) as [usr|] eqn:Hu; simpl.
  2:{ rewrite Hc. simpl. rewrite Hu. simpl. done. }
  unfold Conversation.addParticipant.
  destruct (existsb (Nat.eqb u) (Conversation.participants c)) eqn:Hex; simpl.
  { rewrite Hc. simpl. rewrite Hu. simpl. rewrite Hex. simpl.
    split; [done|]. intros _. split; [|done].
    apply participant_iff. exists (Conversation.participants c). split.
    - unfold membership. apply list_elem_of_fmap. exists c.
      split; [by rewrite Hid|by apply list_elem_of_In].
    - rewrite existsb_eqb_elem_of in Hex. by apply bool_decide_eq_true in Hex. }
  unfold save_conversation.
  destruct (Conversation.save_error _) as [e|] eqn:Hs; run_monad.
  { rewrite Hc. simpl. rewrite Hu. simpl. rewrite Hex. simpl.
    unfold save_conversation. rewrite Hs. done. }
  set (c' := Conversation.set_updatedAt now
               (Conversation.set_participants
                  (Conversation.participants c ++ [u]) c)).
  assert (upsert c' (conversations d) = replace c' (conversations d)) as ->.
  { unfold upsert. replace (existsb _ (conversations d)) with true; [done|].
    symmetry. apply existsb_exists. exists c. split; [done|]. simpl.
    apply Nat.eqb_refl. }
  rewrite (findOne_member_replaced id me c' _ c Hc Hid).
  2:{ simpl. apply elem_of_app. by left. }
  simpl. rewrite Hu. simpl.
  assert (existsb (Nat.eqb u) (Conversation.participants c ++ [u]) = true) as ->.
  { rewrite existsb_app. simpl. by rewrite Nat.eqb_refl, orb_true_r. }
  simpl. split; [done|]. intros _. split; [|done].
  apply (participant_replaced id u c c' d); [by apply list_elem_of_In|done..|].
  simpl. apply elem_of_app. right. by left.
Qed.

End ConversationRoutes2.

Section Create.




Lemma find_ids_sub (ids : list ObjectId) (us : list User.t) :
  NoDup (User._id <$> us) ->
  NoDup (User._id <$> find (Conversations.idsQuery ids) us) /\
  (forall i, i ∈ User._id <$> find (Conversations.idsQuery ids) us ->
             i ∈ ids /\ is_Some (findById i us)).
Proof.
  intros Hnd. unfold find.
  rewrite (filter_bool_prop _ (fun u => User._id u ∈ ids)).
  2:{ intros u. rewrite ids_selects, existsb_eqb_elem_of.
      apply bool_decide_eq_true. }
  split.
  - eapply sublist_NoDup; [exact Hnd|]. apply fmap_sublist, sublist_filter.
  - intros i Hi. apply list_elem_of_fmap in Hi as (u & -> & Hu).
    apply list_elem_of_filter in Hu as [Hin Hu]. split; [done|].
    unfold findById. destruct (List.find _ us) eqn:E; [by eexists|].
    apply list_elem_of_In in Hu.
    pose proof (List.find_none _ _ E u Hu) as Hno. simpl in Hno.
    by rewrite Nat.eqb_refl in Hno.
Qed.

(** When the [$in] query finds as many users as ids were asked for, every id
    names a stored user. *)
Lemma all_found (ids : list ObjectId) (us : list User.t) :
  NoDup (User._id <$> us) -> NoDup ids ->
  length (find (Conversations.idsQuery ids) us) = length ids ->
  forall i, i ∈ ids -> is_Some (findById i us).
Proof.
  intros Hnd Hids Hlen i Hi.
  destruct (find_ids_sub ids us Hnd) as [Hnd' Hsub].
  assert (User._id <$> find (Conversations.idsQuery ids) us ≡ₚ ids) as Hperm.
  { apply submseteq_length_Permutation.
    - apply NoDup_submseteq; [done|]. intros x Hx. by apply Hsub.
    - by rewrite length_fmap, Hlen. }
  rewrite <- Hperm in Hi. by apply Hsub.
Qed.

Lemma findById_upsert {T} `{Model T} (x : T) (coll : list T) :
  findById (doc_id x) (upsert x coll) = Some x.
Proof.
  unfold upsert. destruct (existsb _ coll) eqn:E.
  - apply existsb_exists in E as (y & Hin & Hy).
    destruct (findById (doc_id x) coll) as [z|] eqn:Hz.
    + by eapply findById_replace_same.
    + unfold findById in Hz. pose proof (List.find_none _ _ Hz y Hin) as Hno.
      simpl in Hno. congruence.
  - unfold findById. induction coll as [|y l IH]; simpl in *.
    + by rewrite Nat.eqb_refl.
    + apply orb_false_iff in E as [Hy E]. rewrite Hy. by apply IH.
Qed.

(** X10. What a created conversation holds: when user ids are distinct in
    the store and the create route answers 201, the conversation it
    returns is stored under its id, was created by the caller, has the
    caller and every requested participant among its participants and
    nobody else, lists nobody twice, lists only stored users, and meets
    the participant constraint. *)
Theorem create_stores_caller_and_users (d : DB) (now : Date) (me : ObjectId)
    (participants : list ObjectId) (type name description : option string)
    (r : Response Conversation.t) :
  NoDup (User._id <$> users d) ->
  answer (Conversations.create now me participants type name description) d
  = Some r ->
  status r = 201%nat ->
  let d' := exec (Conversations.create now me participants type name description) d in
  exists c,
    data r = Some c /\
    findById (Conversation._id c) (conversations d') = Some c /\
    Conversation.createdBy c = me /\
    (forall p, p ∈ Conversation.participants c <-> p = me \/ p ∈ participants) /\
    NoDup (Conversation.participants c) /\
    (forall p, p ∈ Conversation.participants c -> is_Some (findById p (users d))) /\
    Conversation.participants_ok c.
Proof.
  intros Hnd. unfold answer, Conversations.create.
  destruct (negb _); [by intros [= <-]|].
  unfold fresh. run_monad.
  set (all := Conversations.new_Set (participants ++ [me])).
  match goal with
  | |- context [let (_, _) := ?pre d in _] => 
      assert (exists ex, pre d = (d, inr ex)) as [[existing|] ->]
  end.
  { destruct all as [|p0 [|p1 [|p2 rest]]]; try (by eexists).
    destruct (String.eqb _ "direct"); by eexists. }
  { simpl. by intros [= <-]. }
  simpl.
  destruct (negb (Nat.eqb _ _)) eqn:Hlen; simpl; [by intros [= <-]|].
  apply negb_false_iff, Nat.eqb_eq in Hlen.
  unfold save_conversation.
  destruct (Conversation.save_error _) as [e|] eqn:Hsave; run_monad;
    [by intros [= <-]|].
  intros [= <-] _. eexists. split; [done|].
  split_and!.
  - exact (findById_upsert _ (conversations d)).
  - done.
  - intros p. simpl. fold all. unfold all. rewrite new_Set_spec, elem_of_app.
    rewrite list_elem_of_singleton. tauto.
  - apply set_from_NoDup.
  - simpl. fold all. apply all_found; [done|apply set_from_NoDup|done].
  - by apply (save_error_participants_ok _ Hsave).
Qed.

End Create.

Section ConversationRoutes3.

Lemma NoDup_ids_inj {T} `{Model T} (coll : list T) (x y : T) :
  NoDup (doc_id <$> coll) -> x ∈ coll -> y ∈ coll -> doc_id x = doc_id y -> x = y.
Proof.
  intros Hnd Hx Hy Hid.
  apply list_elem_of_lookup in Hx as [i Hi]. apply list_elem_of_lookup in Hy as [j Hj].
  assert (i = j) as ->; [|congruence].
  eapply NoDup_lookup; [exact Hnd| |].
  - rewrite list_lookup_fmap, Hi. reflexivity.
  - rewrite list_lookup_fmap, Hj. simpl. congruence.
Qed.

Lemma same_but_text_refl c : same_but_text c c.
Proof. by repeat split. Qed.

Lemma validate_long_name nm c :
  (100 < str_len nm)%nat ->
  is_Some (Conversation.validate (Conversation.set_name (Some nm) c)).
Proof.
  intros Hlen. unfold Conversation.validate. simpl.
  destruct (negb _); [by eexists|].
  apply Nat.ltb_lt in Hlen. rewrite Hlen. by eexists.
Qed.

(** X11. Updating a conversation changes its text and nothing else: with
    distinct conversation ids, the update route leaves users and messages
    untouched and every stored conversation with its id, participants,
    kind, last message, activity, creator and creation time. A name of
    more than 100 characters once trimmed is refused with 500 and nothing
    is written. *)
Theorem update_changes_only_text (d : DB) (now : Date) (me id : ObjectId)
    (name description : option (option string)) :
  NoDup (Conversation._id <$> conversations d) ->
  let d' := exec (Conversations.update now me id name description) d in
  users d' = users d /\ messages d' = messages d /\ nextId d' = nextId d /\
  Forall2 same_but_text (conversations d) (conversations d') /\
  (forall nm, participant id me d -> name = Some (Some nm) ->
     (100 < str_len (trim nm))%nat ->
     d' = d /\
     status <$> answer (Conversations.update now me id name description) d
     = Some 500%nat).
Proof.
  intros Hnd. unfold answer, Conversations.update. run_monad.
  destruct (findOne _ (conversations d)) as [c|] eqn:Hc; simpl.
  2:{ split_and!; try done.
      - apply Forall_Forall2_diag, Forall_forall. intros; apply same_but_text_refl.
      - intros nm [x Hx]. congruence. }
  pose proof (findOne_member _ _ _ _ Hc) as (Hin & Hid & Hme).
  set (c1 := match description with
             | Some description =>
                 Conversation.set_description (trim <$> description)
                   match name with
                   | Some name => Conversation.set_name (trim <$> name) c
                   | None => c
                   end
             | None => match name with
                       | Some name => Conversation.set_name (trim <$> name) c
                       | None => c
                       end
             end).
  assert (same_but_text c c1) as Hsame.
  { subst c1. destruct description, name; by repeat split. }
  unfold save_conversation.
  destruct (Conversation.save_error c1) as [e|] eqn:Hs; run_monad.
  { split_and!; try done.
    apply Forall_Forall2_diag, Forall_forall. intros; apply same_but_text_refl. }
  split_and!; try done.
  - unfold upsert. replace (existsb _ (conversations d)) with true.
    2:{ symmetry. apply existsb_exists. exists c. split; [done|]. simpl.
        destruct Hsame as [-> _]. apply Nat.eqb_refl. }
    unfold replace. apply Forall2_fmap_r, Forall_Forall2_diag, Forall_forall.
    intros y Hy. simpl.
    destruct (Nat.eqb_spec (Conversation._id y) (Conversation._id c1)) as [Heq|];
      [|apply same_but_text_refl].
    assert (y = c) as ->.
    { apply (NoDup_ids_inj (conversations d)); [done|done|by apply list_elem_of_In|].
      simpl. destruct Hsame as [<- _]. done. }
    destruct Hsame as (? & ? & ? & ? & ? & ? & ? & ? & ?). by repeat split.
  - intros nm _ -> Hlen. exfalso.
    assert (is_Some (Conversation.save_error c1)) as [e He]; [|congruence].
    unfold Conversation.save_error.
    assert (is_Some (Conversation.validate c1)) as [e ->]; [|by eexists].
    subst c1. destruct description as [ds|].
    + unfold Conversation.validate. simpl. destruct (negb _); [by eexists|].
      apply Nat.ltb_lt in Hlen. rewrite Hlen. by eexists.
    + by apply validate_long_name.
Qed.

Lemma insert_by_activity_perm c l : Conversation.insert_by_activity c l ≡ₚ c :: l.
Proof.
  induction l as [|x l IH]; [done|]. simpl. case_bool_decide; [done|].
  rewrite IH. apply Permutation_swap.
Qed.

Lemma sort_by_activity_perm l : Conversation.sort_by_activity l ≡ₚ l.
Proof.
  induction l as [|x l IH]; [done|]. simpl.
  by rewrite insert_by_activity_perm, IH.
Qed.

Lemma insert_by_activity_sorted c l :
  StronglySorted active_first l ->
  StronglySorted active_first (Conversation.insert_by_activity c l).
Proof.
  induction 1 as [|x l Hs IH Hx]; simpl.
  - repeat constructor.
  - case_bool_decide as Hle.
    + constructor; [by constructor|]. constructor; [done|].
      eapply Forall_impl; [exact Hx|]. unfold active_first. intros y Hy. lia.
    + constructor; [done|]. rewrite insert_by_activity_perm.
      constructor; [|done]. unfold active_first. lia.
Qed.

Lemma sort_by_activity_sorted l :
  StronglySorted active_first (Conversation.sort_by_activity l).
Proof.
  induction l as [|x l IH]; simpl; [constructor|].
  by apply insert_by_activity_sorted.
Qed.

Lemma user_selects me c :
  selects (Conversation.userQuery me) c = true <-> shown me c.
Proof.
  unfold selects, matches, Conversation.userQuery, shown. simpl.
  rewrite cond_eq_in_ids, cond_eq_bool, andb_true_r, andb_true_iff.
  rewrite existsb_eqb_elem_of, bool_decide_eq_true.
  by destruct (Conversation.isActive c).
Qed.

(** X12. The conversation list of a user: the route answers 200 and
    writes nothing; it lists the stored conversations that are active and
    have the caller among their participants, each once, latest activity
    first, and the count beside each is the number of stored messages of
    that conversation that are unread for the caller. *)
Theorem list_conversations_shows_own (d : DB) (me : ObjectId) :
  exists l,
    answer (Conversations.list_conversations me) d = Some (respond 200 "" (Some l)) /\
    exec (Conversations.list_conversations me) d = d /\
    StronglySorted active_first l.*1 /\
    l.*1 ≡ₚ filter (shown me) (conversations d) /\
    Forall (fun cn => cn.2 = length (filter (unread (Conversation._id cn.1) me)
                                            (messages d))) l.
Proof.
  eexists. split; [reflexivity|]. split; [reflexivity|].
  rewrite <- list_fmap_compose.
  erewrite (list_fmap_ext _ id) by done.
  rewrite list_fmap_id. unfold Conversation.findUserConversations.
  split_and!.
  - apply sort_by_activity_sorted.
  - rewrite sort_by_activity_perm. unfold find.
    rewrite (filter_bool_prop _ (shown me)); [done|]. apply user_selects.
  - apply Forall_fmap, Forall_forall. intros c _. simpl.
    unfold Message.getUnreadCount, countDocuments, find.
    apply length_filter_ext. intros m. apply unread_selects_iff.
Qed.

End ConversationRoutes3.

(* ===================================================================== *)
(** * Group members *)
(* ===================================================================== *)

Section Members.

Lemma active_selects (ids : list ObjectId) (u : User.t) :
  selects (GroupMembers.activeQuery ids) u
  = existsb (Nat.eqb (User._id u)) ids && User.isActive u.
Proof.
  unfold selects, matches, GroupMembers.activeQuery. simpl.
  rewrite cond_eq_bool, andb_true_r. f_equal.
  - induction ids as [|i ids IH]; [done|].
    rewrite fmap_cons. cbn [existsb]. by rewrite IH, cond_eq_id.
  - by destruct (User.isActive u).
Qed.

(** The users the [$in] query of [addMembers] finds, when it finds as many
    as were asked for. *)
Lemma active_found (ids : list ObjectId) (us : list User.t) :
  NoDup (User._id <$> us) ->
  length (find (GroupMembers.activeQuery ids) us) = length ids ->
  NoDup (User._id <$> find (GroupMembers.activeQuery ids) us) /\
  User._id <$> find (GroupMembers.activeQuery ids) us ≡ₚ ids.
Proof.
  intros Hnd Hlen. unfold find in *.
  rewrite (filter_bool_prop _ (fun u => User._id u ∈ ids /\ User.isActive u = true))
    in *.
  2,3: intros u; rewrite active_selects, andb_true_iff, existsb_eqb_elem_of,
         bool_decide_eq_true; done.
  assert (NoDup (User._id <$> filter (fun u => User._id u ∈ ids /\
                                               User.isActive u = true) us)) as Hnd'.
  { eapply sublist_NoDup; [exact Hnd|]. apply fmap_sublist, sublist_filter. }
  split; [done|].
  apply submseteq_length_Permutation.
  - apply NoDup_submseteq; [done|]. intros x Hx.
    apply list_elem_of_fmap in Hx as (u & -> & Hu).
    by apply list_elem_of_filter in Hu as [[? _] _].
  - by rewrite length_fmap, Hlen.
Qed.

(** What the loop of [addMembers] pushes: the users that are not
    participants yet, in the order they were found. *)
Lemma push_new_spec (us : list User.t) (c : Conversation.t) :
  NoDup (User._id <$> us) ->
  let new := List.filter
               (fun u => negb (existsb (Nat.eqb (User._id u))
                                       (Conversation.participants c))) us in
  GroupMembers.push_new us c
  = (Conversation.set_participants
       (Conversation.participants c ++ (User._id <$> new)) c, new).
Proof.
  revert c. induction us as [|u us IH]; intros c Hnd; simpl.
  - rewrite app_nil_r. by destruct c.
  - rewrite fmap_cons in Hnd. apply NoDup_cons in Hnd as [Hu Hnd].
    destruct (existsb _ (Conversation.participants c)) eqn:Hex; simpl.
    + by apply IH.
    + rewrite IH by done. simpl.
      assert (List.filter
                (fun u0 => negb (existsb (Nat.eqb (User._id u0))
                                   (Conversation.participants c ++ [User._id u]))) us
              = List.filter
                  (fun u0 => negb (existsb (Nat.eqb (User._id u0))
                                     (Conversation.participants c))) us) as ->.
      { apply List.filter_ext_in. intros x Hx. f_equal.
        rewrite existsb_app. simpl. rewrite orb_false_r.
        destruct (Nat.eqb_spec (User._id x) (User._id u)) as [Heq|];
          [|by rewrite orb_false_r].
        destruct Hu. rewrite <- Heq. apply list_elem_of_fmap. exists x.
        split; [done|by apply list_elem_of_In]. }
      by rewrite <- app_assoc.
Qed.

Lemma participant_stored i u (c : Conversation.t) (d : DB) :
  c ∈ conversations d -> Conversation._id c = i ->
  u ∈ Conversation.participants c -> participant i u d.
Proof.
  intros Hin Hid Hu. apply participant_iff.
  exists (Conversation.participants c). split; [|done].
  unfold membership. apply list_elem_of_fmap. exists c. by rewrite Hid.
Qed.

Lemma save_conversation_run now c (d : DB) :
  save_conversation now c d
  = match Conversation.save_error c with
    | Some e => (d, inl e)
    | None =>
        (set_conversations
           (upsert (Conversation.set_updatedAt now c) (conversations d)) d,
         inr (Conversation.set_updatedAt now c))
    end.
Proof. unfold save_conversation. by destruct (Conversation.save_error c). Qed.

Lemma save_message_run now m (d : DB) :
  save_message now m d
  = match Message.validate m with
    | Some e => (d, inl e)
    | None =>
        (set_messages (upsert (Message.set_updatedAt now m) (messages d)) d,
         inr (Message.set_updatedAt now m))
    end.
Proof. unfold save_message. by destruct (Message.validate m). Qed.

Lemma upsert_stored {T} `{Model T} (x y : T) (coll : list T) :
  y ∈ coll -> doc_id x = doc_id y -> upsert x coll = replace x coll.
Proof.
  intros Hin Hid. unfold upsert. replace (existsb _ coll) with true; [done|].
  symmetry. apply existsb_exists. exists y. split; [by apply list_elem_of_In|].
  rewrite Hid. apply Nat.eqb_refl.
Qed.

Lemma save_pushed_run now c written (d : DB) :
  GroupMembers.save_pushed now c written d
  = match Conversation.save_error c with
    | Some e => (d, inl e)
    | None =>
        (set_conversations
           (upsert (Conversation.set_updatedAt now written) (conversations d)) d,
         inr tt)
    end.
Proof. unfold GroupMembers.save_pushed. by destruct (Conversation.save_error c). Qed.

Lemma stored_found (x : User.t) (us : list User.t) :
  x ∈ us -> is_Some (findById (User._id x) us).
Proof.
  intros Hx. unfold findById. destruct (List.find _ us) eqn:E; [by eexists|].
  apply list_elem_of_In in Hx. pose proof (List.find_none _ _ E x Hx) as Hno.
  simpl in Hno. by rewrite Nat.eqb_refl in Hno.
Qed.

(** The populated array: the participants that have an account. *)
Lemma elem_of_populated (d : DB) (c : Conversation.t) u :
  u ∈ GroupMembers.populated d c
  <-> u ∈ Conversation.participants c /\ is_Some (findById u (users d)).
Proof.
  unfold GroupMembers.populated.
  rewrite list_elem_of_In, List.filter_In, <- list_elem_of_In, bool_decide_eq_true.
  done.
Qed.

(** X13. What adding group members achieves: when user ids are distinct in
    the store and the route answers 200, the conversation is a stored
    group, the request named nobody twice and only stored users, every
    former participant and every requested user takes part in the
    conversation afterwards, and the number in the answer is the number of
    requested users who were not participants before. *)
Theorem addMembers_adds_each (d : DB) (now : Date) (me id : ObjectId)
    (userIds : list ObjectId) (r : Response nat) :
  NoDup (User._id <$> users d) ->
  answer (GroupMembers.addMembers now me id userIds) d = Some r ->
  status r = 200%nat ->
  let d' := exec (GroupMembers.addMembers now me id userIds) d in
  exists c,
    findById id (conversations d) = Some c /\
    Conversation.type c = "group" /\
    NoDup userIds /\
    (forall u, u ∈ userIds -> is_Some (findById u (users d))) /\
    (forall u, u ∈ Conversation.participants c \/ u ∈ userIds -> participant id u d') /\
    data r = Some (length (filter (fun u => u ∉ Conversation.participants c) userIds)).
Proof.
  intros Hnd. unfold answer, GroupMembers.addMembers. run_monad.
  destruct (Nat.eqb (length userIds) 0); simpl; [by intros [= <-]|].
  destruct (findById id (conversations d)) as [c|] eqn:Hc; simpl; [|by intros [= <-]].
  destruct (findById (Conversation.createdBy c) (users d)) as [creator|] eqn:Hcr;
    simpl; [|by intros [= <-]].
  destruct (negb _ && negb _); simpl; [by intros [= <-]|].
  destruct (String.eqb_spec (Conversation.type c) "group") as [Hty|]; simpl;
    [|by intros [= <-]].
  destruct (negb (Nat.eqb _ _)) eqn:Hlen; simpl; [by intros [= <-]|].
  apply negb_false_iff, Nat.eqb_eq in Hlen.
  destruct (active_found userIds (users d) Hnd Hlen) as [Hfnd Hperm].
  rewrite (push_new_spec _ _ Hfnd).
  set (found := find (GroupMembers.activeQuery userIds) (users d)) in *.
  cbn [Conversation.participants Conversation.set_participants].
  assert (List.filter
            (fun u => negb (existsb (Nat.eqb (User._id u))
                                    (GroupMembers.populated d c))) found
          = List.filter
              (fun u => negb (existsb (Nat.eqb (User._id u))
                                      (Conversation.participants c))) found) as ->.
  { apply List.filter_ext_in. intros x Hx. f_equal.
    rewrite !existsb_eqb_elem_of. apply bool_decide_ext.
    rewrite elem_of_populated. split; [tauto|]. intros ?. split; [done|].
    apply stored_found. unfold found, find in Hx.
    apply List.filter_In in Hx as [Hx _]. by apply list_elem_of_In. }
  set (new := List.filter
                (fun u => negb (existsb (Nat.eqb (User._id u))
                                        (Conversation.participants c))) found).
  pose proof (findById_id _ _ _ Hc) as Hid. simpl in Hid.
  pose proof (findById_In _ _ _ Hc) as Hin. apply list_elem_of_In in Hin.
  assert (NoDup userIds) as Hids by by rewrite <- Hperm.
  assert (forall u, u ∈ userIds -> is_Some (findById u (users d))) as Hexist.
  { intros u Hu. rewrite <- Hperm in Hu.
    apply list_elem_of_fmap in Hu as (x & -> & Hx). unfold found, find in Hx.
    apply list_elem_of_In, List.filter_In in Hx as [Hx _].
    unfold findById. destruct (List.find _ (users d)) eqn:E; [by eexists|].
    pose proof (List.find_none _ _ E x Hx) as Hno. simpl in Hno.
    by rewrite Nat.eqb_refl in Hno. }
  assert (length new
          = length (filter (fun u => u ∉ Conversation.participants c) userIds))
    as Hcount.
  { rewrite <- Hperm. unfold new.
    rewrite (filter_bool_prop _ (fun u => User._id u ∉ Conversation.participants c)).
    2:{ intros u. rewrite negb_true_iff, existsb_eqb_elem_of.
        apply bool_decide_eq_false. }
    clear. induction found as [|u us IH]; [done|].
    rewrite fmap_cons, !filter_cons. simpl.
    destruct (decide _); simpl; by rewrite IH. }
  assert (forall u, u ∈ userIds ->
            u ∈ Conversation.participants c ++ (User._id <$> new)) as Hall.
  { intros u Hu. apply elem_of_app.
    destruct (decide (u ∈ Conversation.participants c)) as [?|Hout]; [by left|].
    right. rewrite <- Hperm in Hu.
    apply list_elem_of_fmap in Hu as (x & -> & Hx).
    apply list_elem_of_fmap. exists x. split; [done|].
    apply list_elem_of_In, List.filter_In. split; [by apply list_elem_of_In|].
    apply negb_true_iff. rewrite existsb_eqb_elem_of.
    by apply bool_decide_eq_false. }
  destruct (Nat.ltb 0 (length new)) eqn:Hadded; simpl.
  2:{ intros [= <-] _. exists c. split_and!; try done.
      - intros u [Hu|Hu]; [by eapply participant_stored|].
        apply Nat.ltb_ge in Hadded.
        assert (new = []) as Hnil by (destruct new; [done|simpl in Hadded; lia]).
        specialize (Hall u Hu). rewrite Hnil, fmap_nil, app_nil_r in Hall.
        by eapply participant_stored.
      - by rewrite Hcount. }
  rewrite save_pushed_run.
  destruct (Conversation.save_error _) as [e|] eqn:Hs1; simpl; [by intros [= <-]|].
  rewrite save_message_run.
  destruct (Message.validate _) as [e|] eqn:Hv; simpl; [by intros [= <-]|].
  rewrite save_pushed_run.
  destruct (Conversation.save_error _) as [e|] eqn:Hs2; simpl; [by intros [= <-]|].
  intros [= <-] _. exists c. split_and!; try done; [|by rewrite Hcount].
  intros u Hu.
  set (c1 := Conversation.set_updatedAt now
               (Conversation.set_participants
                  (Conversation.participants c ++ (User._id <$> new)) c)).
  set (c2 := Conversation.set_updatedAt now _).
  rewrite (upsert_stored c1 c) by done.
  rewrite (upsert_stored c2 c1).
  2:{ by apply elem_of_replace_self with (x := c). }
  2:{ done. }
  set (d1 := set_conversations (replace c1 (conversations d)) d).
  apply (participant_same id u (set_conversations (replace c2 (conversations d1)) d1));
    [done|].
  apply (participant_replaced id u c1 c2 d1); [|done..|].
  { by apply elem_of_replace_self with (x := c). }
  simpl. destruct Hu as [Hu|Hu]; [apply elem_of_app; by left|by apply Hall].
Qed.



(** X14. A group whose creator's account is gone cannot be managed: when
    the stored conversation [id] is a group and no stored user has the id
    of its creator, adding members (any non-empty request) and removing a
    member are answered 500, whoever calls, and nothing is written. *)
Theorem orphaned_group_cannot_be_managed (d : DB) (now : Date)
    (me id userId : ObjectId) (userIds : list ObjectId) (c : Conversation.t) :
  findById id (conversations d) = Some c ->
  Conversation.type c = "group" ->
  findById (Conversation.createdBy c) (users d) = None ->
  userIds <> [] ->
  exec (GroupMembers.addMembers now me id userIds) d = d /\
  status <$> answer (GroupMembers.addMembers now me id userIds) d = Some 500%nat /\
  exec (GroupMembers.removeMember now me id userId) d = d /\
  status <$> answer (GroupMembers.removeMember now me id userId) d = Some 500%nat.
Proof.
  intros Hc Hty Hcr Hne.
  unfold answer, GroupMembers.addMembers, GroupMembers.removeMember. run_monad.
  destruct userIds as [|u0 rest]; [done|]. simpl.
  rewrite Hc. simpl. rewrite Hcr, Hty. simpl. done.
Qed.

(** X15. What removing a group member achieves: when the route answers
    200, the conversation is a stored group, the caller is its creator or
    the member removed, and afterwards the participants are the former
    ones that have an account, less the member removed: a participant
    whose account is gone is dropped with it. The number in the answer is
    the number of participants left, and a system message of the caller is
    stored under a new id as the last message of the conversation. *)
Theorem removeMember_removes_one (d : DB) (now : Date) (me id userId : ObjectId)
    (r : Response nat) :
  answer (GroupMembers.removeMember now me id userId) d = Some r ->
  status r = 200%nat ->
  let d' := exec (GroupMembers.removeMember now me id userId) d in
  exists c c' m,
    findById id (conversations d) = Some c /\
    Conversation.type c = "group" /\
    (Conversation.createdBy c = me \/ userId = me) /\
    userId ∈ Conversation.participants c /\
    (forall u, participant id u d' <->
               u <> userId /\ u ∈ Conversation.participants c /\
               is_Some (findById u (users d))) /\
    findById id (conversations d') = Some c' /\
    data r = Some (length (Conversation.participants c')) /\
    Conversation.lastMessage c' = Some (nextId d) /\
    findById (nextId d) (messages d') = Some m /\
    Message.type m = "system" /\ Message.sender m = me /\
    Message.conversation m = id.
Proof.
  unfold answer, GroupMembers.removeMember. run_monad.
  destruct (findById id (conversations d)) as [c|] eqn:Hc; simpl; [|by intros [= <-]].
  destruct (String.eqb_spec (Conversation.type c) "group") as [Hty|]; simpl;
    [|by intros [= <-]].
  destruct (findById (Conversation.createdBy c) (users d)) as [creator|] eqn:Hcr;
    simpl; [|by intros [= <-]].
  destruct (negb (Nat.eqb (User._id creator) me) && negb (Nat.eqb me userId))
    eqn:Hperm; simpl; [by intros [= <-]|].
  destruct (findById userId (users d)) as [usr|] eqn:Hu; simpl; [|by intros [= <-]].
  destruct (existsb (Nat.eqb userId) (GroupMembers.populated d c)) eqn:Hmem;
    simpl; [|by intros [= <-]].
  rewrite existsb_eqb_elem_of in Hmem.
  apply bool_decide_eq_true, elem_of_populated in Hmem as [Hmem _].
  set (c0 := Conversation.set_participants (GroupMembers.populated d c) c).
  rewrite save_conversation_run.
  destruct (Conversation.save_error _) as [e|] eqn:Hs1; simpl; [by intros [= <-]|].
  rewrite save_message_run.
  destruct (Message.validate _) as [e|] eqn:Hv; simpl; [by intros [= <-]|].
  rewrite save_conversation_run.
  destruct (Conversation.save_error _) as [e|] eqn:Hs2; simpl; [by intros [= <-]|].
  intros [= <-] _.
  pose proof (findById_id _ _ _ Hc) as Hid. simpl in Hid.
  pose proof (findById_In _ _ _ Hc) as Hin. apply list_elem_of_In in Hin.
  pose proof (findById_id _ _ _ Hcr) as Hcid. simpl in Hcid.
  set (c1 := Conversation.set_updatedAt now (Conversation.removeParticipant userId c0)).
  set (c2 := Conversation.set_updatedAt now
               (Conversation.set_lastMessage _ (Conversation.set_lastActivity now c1))).
  assert (Conversation._id c1 = id) as Hid1.
  { subst c1. simpl. by rewrite id_removeParticipant. }
  rewrite (upsert_stored c1 c);
    [|done|change (Conversation._id c1 = Conversation._id c); congruence].
  rewrite (upsert_stored c2 c1).
  2:{ apply elem_of_replace_self with (x := c); [done|].
      change (Conversation._id c1 = Conversation._id c). congruence. }
  2:{ done. }
  set (d1 := set_conversations (replace c1 (conversations d)) d).
  exists c, c2, (Message.set_updatedAt now
    (Message.new (nextId d) now (Conversation._id c1) me
       (User.username usr +:+
        (if Nat.eqb me userId then " left the group"
         else " was removed from the group")) "system" None)).
  split_and!; try done.
  - apply andb_false_iff in Hperm as [H|H]; apply negb_false_iff, Nat.eqb_eq in H.
    + left. congruence.
    + by right.
  - intros u.
    rewrite (participant_same id u
               (set_conversations (replace c2 (conversations d1)) d1) _) by done.
    rewrite (participant_replaced id u c1 c2 d1); [|
      by apply elem_of_replace_self with (x := c);
        [done|change (Conversation._id c1 = Conversation._id c); congruence]|done..].
    simpl. rewrite participants_removeParticipant.
    rewrite list_elem_of_In, List.filter_In, <- list_elem_of_In, negb_true_iff,
      Nat.eqb_neq.
    subst c0. simpl. rewrite elem_of_populated. tauto.
  - simpl. rewrite <- Hid1.
    apply findById_replace_same with (y := c1); [|done].
    rewrite Hid1. apply findById_replace_same with (y := c); [done|done].
  - exact (findById_upsert _ (messages d)).
Qed.

End Members.

(* ===================================================================== *)
(** * Deleting an account as administrator *)
(* ===================================================================== *)

Section DeleteUser.

Lemma filter_others_id (u : ObjectId) (ps : list ObjectId) :
  u ∉ ps -> List.filter (fun p => negb (Nat.eqb p u)) ps = ps.
Proof.
  induction ps as [|p ps IH]; intros Hu; [done|]. simpl.
  apply not_elem_of_cons in Hu as [Hne Hu].
  destruct (Nat.eqb_spec p u); [congruence|]. simpl. by rewrite IH.
Qed.

Lemma pull_participant_spec now u c :
  Conversation.participants (AdminController.pull_participant now u c)
  = List.filter (fun p => negb (Nat.eqb p u)) (Conversation.participants c) /\
  Conversation._id (AdminController.pull_participant now u c) = Conversation._id c.
Proof.
  unfold AdminController.pull_participant.
  destruct (selects _ c) eqn:Hsel; [done|]. split; [|done].
  symmetry. apply filter_others_id.
  unfold selects, matches in Hsel. simpl in Hsel.
  rewrite cond_eq_in_ids, andb_true_r, existsb_eqb_elem_of in Hsel.
  by apply bool_decide_eq_false in Hsel.
Qed.

Lemma size_selects n (c : Conversation.t) :
  selects [ (["participants"], Size n) ] c
  = Nat.eqb (length (Conversation.participants c)) n.
Proof.
  unfold selects, matches. simpl. by rewrite length_fmap, orb_false_r, andb_true_r.
Qed.

Lemma findById_without v u (l : list User.t) :
  v <> u ->
  findById v (List.filter (fun x => negb (Nat.eqb (User._id x) u)) l) = findById v l.
Proof.
  intros Hv. unfold findById. induction l as [|x l IH]; [done|].
  cbn [List.filter List.find].
  destruct (Nat.eqb_spec (User._id x) u) as [Hx|Hne]; cbn [negb List.find].
  - rewrite IH. simpl. rewrite Hx. apply Nat.eqb_neq in Hv.
    by rewrite Nat.eqb_sym, Hv.
  - by rewrite IH.
Qed.

(** X16. Deleting an account removes it from the users and from every
    conversation: for a stored user the controller answers 200; afterwards
    no stored user has that id, every other user is stored as before, every
    stored conversation is a former one without that participant, none
    lists the deleted user and none is left without participants. For an
    id that names no stored user it answers 404 and writes nothing. *)
Theorem deleteUser_removes_everywhere (d : DB) (now : Date) (u : ObjectId) :
  let d' := exec (AdminController.deleteUser now u) d in
  (is_Some (findById u (users d)) ->
   status <$> answer (AdminController.deleteUser now u) d = Some 200%nat /\
   findById u (users d') = None /\
   (forall v, v <> u -> findById v (users d') = findById v (users d)) /\
   (forall c, c ∈ conversations d' ->
      (u ∉ Conversation.participants c) /\ Conversation.participants c <> [] /\
      exists c0, c0 ∈ conversations d /\
                 Conversation._id c = Conversation._id c0 /\
                 Conversation.participants c
                 = List.filter (fun p => negb (Nat.eqb p u))
                               (Conversation.participants c0))) /\
  (findById u (users d) = None ->
   d' = d /\
   status <$> answer (AdminController.deleteUser now u) d = Some 404%nat).
Proof.
  unfold answer, AdminController.deleteUser. run_monad.
  destruct (findById u (users d)) as [usr|] eqn:Hu; simpl.
  2:{ split; [by intros [? ?]|done]. }
  split; [intros _|done]. split_and!; [done| | |].
  - unfold findById. destruct (List.find _ _) as [x|] eqn:E; [|done].
    apply List.find_some in E as [Hin Hx]. apply List.filter_In in Hin as [_ Hne].
    simpl in Hx. by rewrite Hx in Hne.
  - intros v Hv. by apply findById_without.
  - intros c Hc. unfold deleteMany in Hc.
    apply list_elem_of_In, List.filter_In in Hc as [Hc Hsize].
    apply list_elem_of_In, list_elem_of_fmap in Hc as (c0 & -> & Hc0).
    rewrite size_selects, negb_true_iff in Hsize. apply Nat.eqb_neq in Hsize.
    destruct (pull_participant_spec now u c0) as [Hps Hid].
    split_and!.
    + rewrite Hps, list_elem_of_In, List.filter_In, negb_true_iff, Nat.eqb_neq.
      tauto.
    + intros Hnil. by rewrite Hnil in Hsize.
    + by exists c0.
Qed.

End DeleteUser.

(* ===================================================================== *)
(** * Connecting *)
(* ===================================================================== *)

Section Connect.
Import Gateway.

Lemma presence_ok_online now u sock (d : DB) :
  presence_ok d ->
  presence_ok
    (set_users ((fun x => if Nat.eqb (User._id x) u
                          then User.setOnlineStatus now true sock x else x)
                  <$> users d) d).
Proof.
  unfold presence_ok. simpl. intros Hall. apply Forall_fmap.
  eapply Forall_impl; [exact Hall|]. intros x Hx. simpl.
  by destruct (Nat.eqb (User._id x) u).
Qed.

Lemma handleConnection_world (w : World) now socket account :
  findById (userId socket) (users (db w)) = Some account ->
  let socket' :=
    mkSocket (id socket) (userId socket)
             (User.setOnlineStatus now true (Some (id socket)) (user socket)) in
  exec (handleConnection now socket) w
  = mkWorld
      (set_users ((fun x => if Nat.eqb (User._id x) (userId socket)
                            then User.setOnlineStatus now true (Some (id socket)) x
                            else x) <$> users (db w)) (db w))
      (<[ userId socket := mkConnection (id socket) (user socket') ]> (activeUsers w))
      (<[ id socket := socket' ]> (sockets w))
      (<[ user_ (userId socket) :=
            {[ id socket ]} ∪ members (user_ (userId socket)) w ]> (rooms w))
      (emitted w ++
         [mkEmit (dom (<[ id socket := socket' ]> (sockets w)) ∖ {[ id socket ]})
                 (user_online (userId socket) (User.username (user socket)))]).
Proof.
  intros Hacc socket'.
  destruct (setOnlineStatus_found now (userId socket) true (Some (id socket))
              (db w) account Hacc) as [Hexec Hres].
  unfold handleConnection, store, socket_join, socket_broadcast_emit, emit.
  unfold exec, result in *. run_monad.
  destruct (setOnlineStatus now (userId socket) true (Some (id socket)) (db w))
    as [d' r].
  simpl in *. by subst.
Qed.

(** X17. A connection opens, the account of its user being stored. After
    [handleConnection] the registry holds that connection for the user,
    the connection is among the open ones and in the personal room of its
    user, the stored account is online with the connection's identifier
    and its former last-seen date, one [user_online] event went to every
    other open connection and none to the new one, and no stored account
    holds a connection identifier while offline if none did before. *)
Theorem connect_goes_online (w : World) (now : Date) (socket : Socket)
    (account : User.t) :
  findById (userId socket) (users (db w)) = Some account ->
  let w' := exec (handleConnection now socket) w in
  isUserOnline (userId socket) w' = true /\
  socketId <$> lookup_connection (userId socket) w' = Some (id socket) /\
  is_Some (sockets w' !! id socket) /\
  id socket ∈ members (user_ (userId socket)) w' /\
  (exists account',
      findById (userId socket) (users (db w')) = Some account' /\
      User.isOnline account' = true /\
      User.socketId account' = Some (id socket) /\
      User.lastSeen account' = User.lastSeen account) /\
  emitted w' = emitted w ++
    [mkEmit (dom (sockets w) ∖ {[ id socket ]})
            (user_online (userId socket) (User.username (user socket)))] /\
  (presence_ok (db w) -> presence_ok (db w')).
Proof.
  intros Hacc w'. subst w'. rewrite (handleConnection_world w now socket account Hacc).
  simpl. split_and!.
  - unfold isUserOnline. simpl. apply bool_decide_eq_true_2.
    rewrite lookup_insert_eq. by eexists.
  - unfold lookup_connection. simpl. by rewrite lookup_insert_eq.
  - rewrite lookup_insert_eq. by eexists.
  - unfold members. simpl. rewrite lookup_insert_eq. simpl.
    apply elem_of_union. left. by apply elem_of_singleton.
  - eexists. split; [by apply findById_fmap_status|]. done.
  - do 3 f_equal. rewrite dom_insert_L. apply set_eq. intros x.
    rewrite !elem_of_difference, elem_of_union, elem_of_singleton. tauto.
  - apply presence_ok_online.
Qed.

Lemma handleConnection_returns (w : World) now socket :
  exists socket', result (handleConnection now socket) w = inr socket'.
Proof.
  unfold handleConnection, store, socket_join, socket_broadcast_emit, emit.
  unfold result. run_monad.
  destruct (setOnlineStatus now (userId socket) true (Some (id socket)) (db w))
    as [d' [e|[]]]; simpl; by eexists.
Qed.

Lemma exec_bind {S A B} (m : M S A) (k : A -> M S B) (s : S) :
  exec (bind m k) s
  = match result m s with
    | inr a => exec (k a) (exec m s)
    | inl _ => exec m s
    end.
Proof. unfold exec, result, bind. by destruct (m s) as [s' [e|a]]. Qed.

Lemma disconnect_world (w : World) now socket account :
  findById (userId socket) (users (db w)) = Some account ->
  exec (disconnect now socket) w
  = mkWorld
      (set_users ((fun x => if Nat.eqb (User._id x) (userId socket)
                            then User.setOnlineStatus now false None x
                            else x) <$> users (db w)) (db w))
      (base.delete (userId socket) (activeUsers w))
      (base.delete (id socket) (sockets w))
      ((fun s => s ∖ {[ id socket ]}) <$> rooms w)
      (emitted w ++
         [mkEmit (dom (base.delete (id socket) (sockets w)) ∖ {[ id socket ]})
                 (user_offline (userId socket) (User.username (user socket)) now)]).
Proof.
  intros Hacc.
  destruct (setOnlineStatus_found now (userId socket) false None (db w) account Hacc)
    as [Hexec Hres].
  unfold disconnect, close, store, socket_broadcast_emit, emit.
  unfold exec, result in *. run_monad.
  destruct (setOnlineStatus now (userId socket) false None (db w)) as [d' r].
  simpl in *. by subst.
Qed.

Lemma deliver_open (w : World) now sid ev socket :
  sockets w !! sid = Some socket ->
  exec (deliver now sid ev) w = exec (on now socket ev) w.
Proof. intros Hs. unfold deliver, exec, bind, get. simpl. by rewrite Hs. Qed.

(** X18. One user, two connections: when a user whose account is stored
    opens a first and then a second connection and the first one closes,
    the second connection is still open and still in the personal room of
    the user, yet the registry has no entry for the user, who counts as
    offline, and the stored account is offline without connection
    identifier. *)
Theorem second_connection_looks_offline (w : World) (now1 now2 now3 : Date)
    (s1 s2 : Socket) (account : User.t) :
  userId s1 = userId s2 ->
  id s1 <> id s2 ->
  findById (userId s1) (users (db w)) = Some account ->
  let w' := exec (handleConnection now1 s1 ;;
                  handleConnection now2 s2 ;;
                  deliver now3 (id s1) Disconnect) w in
  is_Some (sockets w' !! id s2) /\
  id s2 ∈ members (user_ (userId s2)) w' /\
  isUserOnline (userId s2) w' = false /\
  lookup_connection (userId s2) w' = None /\
  exists account',
    findById (userId s2) (users (db w')) = Some account' /\
    User.isOnline account' = false /\
    User.socketId account' = None.
Proof.
  intros Hu Hid Hacc w'. subst w'.
  destruct s2 as [i2 u2 usr2]. simpl in Hu, Hid. subst u2.
  set (s2 := mkSocket i2 (userId s1) usr2).
  rewrite exec_bind.
  destruct (handleConnection_returns w now1 s1) as [s1' ->].
  rewrite (handleConnection_world w now1 s1 account Hacc).
  set (w1 := mkWorld _ _ _ _ _).
  rewrite exec_bind.
  destruct (handleConnection_returns w1 now2 s2) as [s2' ->].
  assert (findById (userId s2) (users (db w1))
          = Some (User.setOnlineStatus now1 true (Some (id s1)) account)) as Hacc1.
  { subst w1. simpl. by apply findById_fmap_status. }
  rewrite (handleConnection_world w1 now2 s2 _ Hacc1).
  set (w2 := mkWorld _ _ _ _ _).
  set (s1o := mkSocket (id s1) (userId s1)
                (User.setOnlineStatus now1 true (Some (id s1)) (user s1))).
  rewrite (deliver_open w2 now3 (id s1) Disconnect s1o).
  2:{ subst w2 w1. simpl. rewrite lookup_insert_ne by done.
      by rewrite lookup_insert_eq. }
  cbn [on].
  assert (findById (userId s1o) (users (db w2))
          = Some (User.setOnlineStatus now2 true (Some i2)
                    (User.setOnlineStatus now1 true (Some (id s1)) account)))
    as Hacc2.
  { subst w2 s1o. simpl. apply findById_fmap_status. exact Hacc1. }
  rewrite (disconnect_world w2 now3 s1o _ Hacc2). simpl.
  split_and!.
  - rewrite lookup_delete_ne by done. rewrite lookup_insert_eq. by eexists.
  - unfold members. simpl. rewrite lookup_fmap, lookup_insert_eq. simpl.
    apply elem_of_difference. split.
    + apply elem_of_union. left. by apply elem_of_singleton.
    + rewrite elem_of_singleton. congruence.
  - unfold isUserOnline. simpl. apply bool_decide_eq_false_2.
    rewrite lookup_delete_eq. by intros [? ?].
  - unfold lookup_connection. simpl. by rewrite lookup_delete_eq.
  - eexists. split; [apply findById_fmap_status; exact Hacc2|].
    split; reflexivity.
Qed.

End Connect.

(* ===================================================================== *)
(** * What a handler sends back *)
(* ===================================================================== *)

Section Echo.
Import Gateway.

Lemma drop_emitted (em new : list Emit) : drop (length em) (em ++ new) = new.
Proof. apply drop_app_length. Qed.

Lemma not_self (sid : SocketId) (X : gset SocketId) : sid ∈ X ∖ {[ sid ]} -> False.
Proof. rewrite elem_of_difference, elem_of_singleton. tauto. Qed.

Lemma store_emitted {A} (m : M DB A) (w : World) :
  emitted (store m w).1 = emitted w.
Proof. unfold store, lift. by destruct (m (db w)). Qed.

(** X19. No handler echoes: whatever event a client sends on a
    connection, the only events the handler sends to that same connection
    are an error or, for [send_message], the new message; the notices of
    joining, leaving, typing, reading, status and going offline reach
    other connections only. *)
Theorem no_echo (w : World) (now : Date) (socket : Socket) (ev : ClientEvent) :
  Forall (fun e => id socket ∈ recipients e -> is_reply (event e) = true)
         (emitted_since w (exec (on now socket ev) w)).
Proof.
  unfold emitted_since.
  destruct ev as [c|c|c content ty reply|c|c|c ids|st|]; cbn [on].
  - unfold join_conversation, socket_join, socket_to_emit, socket_emit, emit.
    run_monad. destruct (findOne _ _); simpl.
    + rewrite drop_emitted. repeat constructor. intros H. by apply not_self in H.
    + rewrite drop_all. constructor.
  - unfold leave_conversation, socket_leave, socket_to_emit, emit. run_monad.
    rewrite drop_emitted. repeat constructor. intros H. by apply not_self in H.
  - unfold send_message, store, socket_emit, io_to_emit, emit, fresh.
    run_monad. destruct w as [d au ss rs em]. simpl.
    destruct (findOne _ (conversations d)); simpl;
      [|by rewrite drop_emitted; repeat constructor].
    unfold save_message. destruct (Message.validate _); run_monad;
      [by rewrite drop_emitted; repeat constructor|].
    unfold save_conversation. destruct (Conversation.save_error _); run_monad;
      by rewrite drop_emitted; repeat constructor.
  - unfold typing_start, socket_to_emit, emit. run_monad.
    rewrite drop_emitted. repeat constructor. intros H. by apply not_self in H.
  - unfold typing_stop, socket_to_emit, emit. run_monad.
    rewrite drop_emitted. repeat constructor. intros H. by apply not_self in H.
  - unfold mark_messages_read, store, socket_to_emit, socket_emit, emit.
    run_monad. destruct w as [d au ss rs em]. simpl.
    destruct (findOne _ (conversations d)); simpl;
      [|by rewrite drop_emitted; repeat constructor].
    destruct (mark_each now (userId socket) ids d) as [d' [e|[]]]; simpl;
      rewrite drop_emitted; repeat constructor.
    intros H. by apply not_self in H.
  - unfold update_status, socket_broadcast_emit, emit. run_monad.
    rewrite drop_emitted. repeat constructor. intros H. by apply not_self in H.
  - unfold disconnect, close, store, socket_broadcast_emit, emit, setOnlineStatus.
    run_monad. destruct w as [d au ss rs em]. simpl.
    destruct (existsb _ (users d)); simpl.
    + rewrite drop_emitted. repeat constructor. intros H. by apply not_self in H.
    + rewrite drop_all. constructor.
Qed.


End Echo.

(* ===================================================================== *)
(** * Read receipts over the socket *)
(* ===================================================================== *)

Section MarkRead.
Import Gateway.

(** What the tasks have reached so far, seen from the messages [coll0]
    stored when the handler started the map: every message is still stored
    in its conversation with the readers it had, and those whose id is in
    [done] hold [u] as a reader. *)
Lemma push_readBy_keeps now u j (coll0 coll : list Message.t) (marked : list ObjectId) :
  (forall i m, findById i coll0 = Some m ->
     exists m', findById i coll = Some m' /\
                Message.conversation m' = Message.conversation m /\
                (forall v, Message.isReadBy m v = true -> Message.isReadBy m' v = true) /\
                (i ∈ marked -> Message.isReadBy m' u = true)) ->
  forall i m, findById i coll0 = Some m ->
     exists m', findById i (Messages.push_readBy now j (Message.mkReceipt u now) coll)
                = Some m' /\
                Message.conversation m' = Message.conversation m /\
                (forall v, Message.isReadBy m v = true -> Message.isReadBy m' v = true) /\
                (i ∈ j :: marked -> Message.isReadBy m' u = true).
Proof.
  intros Hinv i m Hm. destruct (Hinv i m Hm) as (m' & Hm' & Hc & Hk & Hr).
  rewrite findById_push_readBy, Hm'. simpl.
  pose proof (findById_id _ _ _ Hm') as Hid. simpl in Hid.
  destruct (Nat.eqb_spec (Message._id m') j) as [Hj|Hj].
  - eexists. split; [done|]. split_and!; [done| |].
    + intros v Hv. unfold Message.isReadBy. simpl. rewrite existsb_app.
      apply orb_true_iff. left. by apply Hk.
    + intros _. unfold Message.isReadBy. simpl. rewrite existsb_app. simpl.
      by rewrite Nat.eqb_refl, orb_true_r.
  - exists m'. split_and!; [done..|].
    intros [->|?]%elem_of_cons; [congruence|auto].
Qed.

Lemma tasks_spec now u (coll0 : list Message.t) ids :
  Forall (fun m => Message.validate m = None) coll0 ->
  forall (d : DB) (marked : list ObjectId),
  (forall i m, findById i coll0 = Some m ->
     exists m', findById i (messages d) = Some m' /\
                Message.conversation m' = Message.conversation m /\
                (forall v, Message.isReadBy m v = true -> Message.isReadBy m' v = true) /\
                (i ∈ marked -> Message.isReadBy m' u = true)) ->
  let r := promise_all
             (mark_task now u <$> ((fun i => findById i coll0) <$> ids)) d in
  r.2 = inr tt /\
  forall i m, findById i coll0 = Some m ->
     exists m', findById i (messages r.1) = Some m' /\
                Message.conversation m' = Message.conversation m /\
                (forall v, Message.isReadBy m v = true -> Message.isReadBy m' v = true) /\
                (i ∈ marked \/ i ∈ ids -> Message.isReadBy m' u = true).
Proof.
  intros Hall. induction ids as [|j rest IH]; intros d marked Hinv; simpl.
  - split; [done|]. intros i m Hm. destruct (Hinv i m Hm) as (m' & ? & ? & ? & Hr).
    exists m'. split_and!; [done..|]. intros [?|?%elem_of_nil]; [auto|done].
  - assert (exists d1,
               mark_task now u (findById j coll0) d = (d1, inr tt) /\
               forall i m, findById i coll0 = Some m ->
                 exists m', findById i (messages d1) = Some m' /\
                   Message.conversation m' = Message.conversation m /\
                   (forall v, Message.isReadBy m v = true ->
                              Message.isReadBy m' v = true) /\
                   (i ∈ j :: marked -> Message.isReadBy m' u = true))
      as (d1 & Hrun & Hinv1).
    { unfold mark_task. destruct (findById j coll0) as [m0|] eqn:Hj.
      - unfold Messages.markAsRead, Message.markAsRead.
        pose proof (findById_id _ _ _ Hj) as Hid. simpl in Hid.
        assert (Message.validate m0 = None) as Hv.
        { rewrite Forall_forall in Hall. apply Hall.
          apply list_elem_of_In. by eapply findById_In. }
        destruct (existsb _ (Message.readBy m0)) eqn:Hread; simpl.
        + exists d. split; [done|]. intros i m Hm.
          destruct (Hinv i m Hm) as (m' & ? & ? & Hk & Hr).
          exists m'. split_and!; [done..|].
          intros [->|?]%elem_of_cons; [|auto].
          assert (m = m0) as -> by congruence. by apply Hk.
        + rewrite validate_set_readBy, Hv. run_monad.
          eexists. split; [done|]. simpl. rewrite Hid.
          by apply push_readBy_keeps.
      - exists d. split; [done|]. intros i m Hm.
        destruct (Hinv i m Hm) as (m' & ? & ? & Hk & Hr).
        exists m'. split_and!; [done..|].
        intros [->|?]%elem_of_cons; [congruence|auto]. }
    rewrite Hrun.
    destruct (IH d1 (j :: marked) Hinv1) as [Hres Hspec].
    destruct (promise_all _ d1) as [d2 r2]. simpl in *. split; [done|].
    intros i m Hm. destruct (Hspec i m Hm) as (m' & ? & ? & ? & Hr).
    exists m'. split_and!; [done..|].
    intros [?|[->|?]%elem_of_cons]; apply Hr; [left; by right|left; by left|by right].
Qed.

Lemma mark_each_spec now u ids (d : DB) :
  Forall (fun m => Message.validate m = None) (messages d) ->
  (mark_each now u ids d).2 = inr tt /\
  forall i m, findById i (messages d) = Some m ->
    exists m', findById i (messages (mark_each now u ids d).1) = Some m' /\
               Message.conversation m' = Message.conversation m /\
               (forall v, Message.isReadBy m v = true ->
                          Message.isReadBy m' v = true) /\
               (i ∈ ids -> Message.isReadBy m' u = true).
Proof.
  intros Hall. unfold mark_each, bind, get.
  destruct (tasks_spec now u (messages d) ids Hall d []) as [Hres Hspec].
  { intros i m Hm. exists m. split_and!; [done..|]. by intros ?%elem_of_nil. }
  split; [done|]. intros i m Hm.
  destruct (Hspec i m Hm) as (m' & ? & ? & ? & Hr).
  exists m'. split_and!; [done..|]. intros ?. apply Hr. by right.
Qed.

(** X20. Marking messages read over the socket records the reader on every
    listed message that is stored, whichever conversation the message
    belongs to: for a participant of the conversation named in the event,
    with every stored message valid, each stored message stays stored in
    its conversation and keeps the readers it had, each listed one holds
    the caller as a reader afterwards, and one [messages_read] event goes
    to the other connections in the room of the named conversation. *)
Theorem mark_messages_read_marks_listed (w : World) (now : Date)
    (socket : Socket) (c : ObjectId) (ids : list ObjectId) :
  participant c (userId socket) (db w) ->
  Forall (fun m => Message.validate m = None) (messages (db w)) ->
  let w' := exec (mark_messages_read now socket c ids) w in
  (forall i m, findById i (messages (db w)) = Some m ->
     exists m', findById i (messages (db w')) = Some m' /\
                Message.conversation m' = Message.conversation m /\
                (forall v, Message.isReadBy m v = true ->
                           Message.isReadBy m' v = true) /\
                (i ∈ ids -> Message.isReadBy m' (userId socket) = true)) /\
  emitted w' = emitted w ++
    [mkEmit (members (conversation_ c) w ∖ {[ id socket ]})
            (messages_read (userId socket) c ids)].
Proof.
  intros [conv Hconv] Hall w'. subst w'.
  destruct (mark_each_spec now (userId socket) ids (db w) Hall)
    as (Hres & Hspec).
  unfold mark_messages_read, store, socket_to_emit, emit. run_monad.
  rewrite Hconv. simpl.
  destruct (mark_each now (userId socket) ids (db w)) as [d' r] eqn:Hrun.
  simpl in *. subst r. simpl. split; [exact Hspec|done].
Qed.

End MarkRead.

(* ===================================================================== *)
(** * Administrator login and lockout *)
(* ===================================================================== *)

Section AdminLogin.
Import AdminAuth.
Variable bcrypt_compare : string -> string -> bool.

Lemma find_replaced {T} `{Model T} (p : T -> bool) (coll : list T) (a a' : T) :
  NoDup (doc_id <$> coll) -> List.find p coll = Some a ->
  doc_id a' = doc_id a -> p a' = true ->
  List.find p (replace a' coll) = Some a'.
Proof.
  intros Hnd Hf Hid Hp.
  pose proof (List.find_some _ _ Hf) as [Hin Hpa]. apply list_elem_of_In in Hin.
  unfold replace. revert Hnd Hf Hin.
  induction coll as [|x l IH]; intros Hnd Hf Hin; [done|].
  rewrite fmap_cons. cbn [List.find] in *.
  destruct (p x) eqn:Hx.
  - injection Hf as ->. by rewrite Hid, Nat.eqb_refl, Hp.
  - destruct (Nat.eqb_spec (doc_id x) (doc_id a')) as [Heq|Hne].
    + exfalso. assert (x = a) as ->; [|congruence].
      eapply (NoDup_ids_inj (x :: l)); [done|by left|done|congruence].
    + rewrite Hx. rewrite fmap_cons in Hnd. apply NoDup_cons in Hnd as [_ Hnd].
      apply IH; [done|done|].
      apply elem_of_cons in Hin as [->|?]; [|done].
      apply List.find_some in Hf as [_ Hf]. congruence.
Qed.

Lemma find_identity identifier (admins : list Admin.t) (a a' : Admin.t) :
  NoDup (Admin._id <$> admins) ->
  Admin.findByEmailOrUsername identifier admins = Some a ->
  same_identity a a' ->
  Admin.findByEmailOrUsername identifier (replace a' admins) = Some a'.
Proof.
  intros Hnd Hf (Hid & Hem & Hun & _ & _). unfold Admin.findByEmailOrUsername.
  apply find_replaced with (a := a); [exact Hnd|exact Hf|exact Hid|].
  apply List.find_some in Hf as [_ Hp]. revert Hp.
  unfold selects, matches. simpl. by rewrite Hem, Hun.
Qed.

Lemma replace_admin_ids (x : Admin.t) (l : list Admin.t) :
  Admin._id <$> replace x l = Admin._id <$> l.
Proof. exact (replace_ids l x). Qed.

Lemma same_identity_refl a : same_identity a a.
Proof. by repeat split. Qed.

Lemma same_identity_trans a b c :
  same_identity a b -> same_identity b c -> same_identity a c.
Proof. unfold same_identity. intros (?&?&?&?&?) (?&?&?&?&?). split_and!; congruence. Qed.

Lemma same_identity_inc now a : same_identity a (Admin.incLoginAttempts now a).
Proof.
  unfold Admin.incLoginAttempts.
  destruct (match Admin.lockUntil a with | Some _ => _ | None => _ end);
    [by repeat split|].
  by destruct (_ && _); repeat split.
Qed.

Lemma same_identity_reset now a : same_identity a (Admin.resetLoginAttempts now a).
Proof. by repeat split. Qed.

(** The three ways the handler goes for a stored, active admin. *)
Lemma login_locked now identifier password (admins : list Admin.t) a :
  Admin.findByEmailOrUsername identifier admins = Some a ->
  Admin.isActive a = true -> Admin.isLocked now a = true ->
  exec (login bcrypt_compare now identifier password) admins = admins /\
  status <$> answer (login bcrypt_compare now identifier password) admins
  = Some 423%nat.
Proof.
  intros Hf Hact Hlock. unfold answer, login. run_monad.
  by rewrite Hf, Hact, Hlock.
Qed.

Lemma login_wrong now identifier password (admins : list Admin.t) a :
  Admin.findByEmailOrUsername identifier admins = Some a ->
  Admin.isActive a = true -> Admin.isLocked now a = false ->
  bcrypt_compare password (Admin.password a) = false ->
  exec (login bcrypt_compare now identifier password) admins
  = replace (Admin.incLoginAttempts now a) admins /\
  result (login bcrypt_compare now identifier password) admins
  = inr (respond 400 "Invalid credentials" None).
Proof.
  intros Hf Hact Hlock Hpw. unfold login, updateOne. run_monad.
  by rewrite Hf, Hact, Hlock, Hpw.
Qed.

Lemma login_right now identifier password (admins : list Admin.t) a :
  Admin.findByEmailOrUsername identifier admins = Some a ->
  Admin.isActive a = true -> Admin.isLocked now a = false ->
  bcrypt_compare password (Admin.password a) = true ->
  exec (login bcrypt_compare now identifier password) admins
  = replace (Admin.resetLoginAttempts now a) admins /\
  result (login bcrypt_compare now identifier password) admins
  = inr (respond 200 "Login successful"
           (Some (Admin.toJSON now a, generateAdminToken (Admin._id a)))).
Proof.
  intros Hf Hact Hlock Hpw. unfold login, updateOne. run_monad.
  by rewrite Hf, Hact, Hlock, Hpw.
Qed.

(** Failed logins against an account that is not locked: the count goes
    up by one each time, and the fifth failure in the count sets the lock. *)
Lemma failures_count identifier (tries : list (Date * string))
    (admins : list Admin.t) (a : Admin.t) :
  NoDup (Admin._id <$> admins) ->
  Admin.findByEmailOrUsername identifier admins = Some a ->
  Admin.isActive a = true ->
  Admin.lockUntil a = None ->
  (Admin.loginAttempts a + length tries <= 5)%nat ->
  Forall (fun t => bcrypt_compare t.2 (Admin.password a) = false) tries ->
  let admins' := exec (logins bcrypt_compare identifier tries) admins in
  exists a',
    NoDup (Admin._id <$> admins') /\
    Admin.findByEmailOrUsername identifier admins' = Some a' /\
    same_identity a a' /\
    Admin.loginAttempts a' = (Admin.loginAttempts a + length tries)%nat /\
    Admin.lockUntil a'
    = match last tries with
      | Some (now, _) =>
          if Nat.eqb (Admin.loginAttempts a + length tries) 5
          then Some (now + Admin.lockTime) else None
      | None => None
      end.
Proof.
  revert admins a. induction tries as [|[now pw] rest IH];
    intros admins a Hnd Hf Hact Hlock Hlen Hwrong admins'.
  - exists a. subst admins'. simpl. rewrite Nat.add_0_r.
    split_and!; [done|done|apply same_identity_refl|done|done].
  - apply Forall_cons in Hwrong as [Hpw Hwrong]. simpl in Hpw, Hlen.
    assert (Admin.isLocked now a = false) as Hnl
      by (unfold Admin.isLocked; by rewrite Hlock).
    destruct (login_wrong now identifier pw admins a Hf Hact Hnl Hpw)
      as [Hexec Hres].
    subst admins'. cbn [logins]. rewrite exec_bind, Hres, Hexec.
    set (a1 := Admin.incLoginAttempts now a).
    pose proof (same_identity_inc now a) as Hsame. fold a1 in Hsame.
    assert (Admin.loginAttempts a1 = S (Admin.loginAttempts a) /\
            Admin.lockUntil a1
            = if Nat.eqb (S (Admin.loginAttempts a)) 5
              then Some (now + Admin.lockTime) else None) as [Hn1 Hl1].
    { subst a1. unfold Admin.incLoginAttempts. rewrite Hlock, Hnl.
      rewrite Nat.add_1_r, andb_true_r.
      destruct (Nat.leb_spec 5 (S (Admin.loginAttempts a)));
        destruct (Nat.eqb_spec (S (Admin.loginAttempts a)) 5); simpl;
        first [done|lia]. }
    destruct rest as [|t2 rest'].
    + exists a1. simpl. rewrite Nat.add_1_r.
      change (exec (ret ()) (replace a1 admins)) with (replace a1 admins).
      split_and!; [by rewrite replace_admin_ids|by apply find_identity with (a := a)|done..].
    + assert (Admin.lockUntil a1 = None) as Hl1'.
      { rewrite Hl1. destruct (Nat.eqb_spec (S (Admin.loginAttempts a)) 5); [|done].
        simpl in Hlen. lia. }
      destruct (IH (replace a1 admins) a1) as (a' & ? & ? & ? & Hn' & Hl').
      * by rewrite replace_admin_ids.
      * by apply find_identity with (a := a).
      * destruct Hsame as (_ & _ & _ & _ & ->). done.
      * done.
      * rewrite Hn1. simpl in *. lia.
      * destruct Hsame as (_ & _ & _ & -> & _). done.
      * exists a'. split_and!; [done|done|by eapply same_identity_trans| |].
        -- rewrite Hn', Hn1. simpl. lia.
        -- rewrite Hl'. rewrite Hn1.
           change (last ((now, pw) :: t2 :: rest')) with (last (t2 :: rest')).
           destruct (last (t2 :: rest')) as [[t p]|]; [|done].
           by replace (S (Admin.loginAttempts a) + length (t2 :: rest'))%nat
             with (Admin.loginAttempts a + length ((now, pw) :: t2 :: rest'))%nat
             by (simpl; lia).
Qed.

Lemma findById_found_admin identifier (admins : list Admin.t) a :
  Admin.findByEmailOrUsername identifier admins = Some a ->
  NoDup (Admin._id <$> admins) ->
  findById (Admin._id a) admins = Some a.
Proof.
  intros Hf Hnd. unfold Admin.findByEmailOrUsername in Hf.
  apply List.find_some in Hf as [Hin _]. apply list_elem_of_In in Hin.
  unfold findById. destruct (List.find _ admins) as [x|] eqn:E.
  - apply List.find_some in E as [Hx Hid]. apply list_elem_of_In in Hx.
    apply Nat.eqb_eq in Hid. f_equal.
    by apply (NoDup_ids_inj admins).
  - apply list_elem_of_In in Hin. pose proof (List.find_none _ _ E a Hin) as Hno.
    simpl in Hno. by rewrite Nat.eqb_refl in Hno.
Qed.

(** X21. Five failed logins lock an administrator out for two hours: take
    a stored, active admin with no failed attempt counted and no lock, and
    five logins with that identifier and wrong passwords, at any times.
    After the first four a right password still logs in. After the fifth,
    until two hours past its time, every login with that identifier is
    answered 423 whatever the password and writes nothing, and a token of
    that admin is refused with 423 by the authentication middleware. *)
Theorem five_failures_lock (identifier : string) (tries : list (Date * string))
    (t5 : Date) (p5 : string) (admins : list Admin.t) (a : Admin.t) :
  NoDup (Admin._id <$> admins) ->
  Admin.findByEmailOrUsername identifier admins = Some a ->
  Admin.isActive a = true ->
  Admin.loginAttempts a = 0%nat ->
  Admin.lockUntil a = None ->
  length tries = 4%nat ->
  Forall (fun t => bcrypt_compare t.2 (Admin.password a) = false)
         (tries ++ [(t5, p5)]) ->
  let four := exec (logins bcrypt_compare identifier tries) admins in
  let five := exec (logins bcrypt_compare identifier (tries ++ [(t5, p5)])) admins in
  (forall now good,
     bcrypt_compare good (Admin.password a) = true ->
     status <$> answer (login bcrypt_compare now identifier good) four
     = Some 200%nat) /\
  (forall now password,
     now < t5 + Admin.lockTime ->
     exec (login bcrypt_compare now identifier password) five = five /\
     status <$> answer (login bcrypt_compare now identifier password) five
     = Some 423%nat /\
     exists r,
       authenticateAdmin now (Decoded (generateAdminToken (Admin._id a))) five
       = inl r /\ status r = 423%nat).
Proof.
  intros Hnd Hf Hact Hn Hlock Hlen Hwrong four five.
  pose proof Hwrong as Hwrong4. apply Forall_app in Hwrong4 as [Hwrong4 _].
  split.
  - intros now good Hgood.
    destruct (failures_count identifier tries admins a Hnd Hf Hact Hlock)
      as (a4 & Hnd4 & Hf4 & Hsame4 & Hn4 & Hl4); [lia|done|].
    fold four in Hnd4, Hf4.
    assert (Admin.lockUntil a4 = None) as Hnl4.
    { rewrite Hl4. destruct (last tries) as [[t p]|]; [|done].
      by rewrite Hn, Hlen. }
    destruct Hsame4 as (_ & _ & _ & Hpw4 & Hact4).
    destruct (login_right now identifier good four a4 Hf4) as [_ Hres].
    + congruence.
    + unfold Admin.isLocked. by rewrite Hnl4.
    + congruence.
    + unfold answer. by rewrite Hres.
  - intros now password Hnow.
    destruct (failures_count identifier (tries ++ [(t5, p5)]) admins a
                Hnd Hf Hact Hlock)
      as (a5 & Hnd5 & Hf5 & Hsame5 & Hn5 & Hl5);
      [rewrite length_app; simpl; lia|done|].
    fold five in Hnd5, Hf5.
    rewrite last_snoc, length_app, Hn, Hlen in Hl5. simpl in Hl5.
    destruct Hsame5 as (Hid5 & _ & _ & _ & Hact5).
    assert (Admin.isLocked now a5 = true) as Hlocked.
    { unfold Admin.isLocked. rewrite Hl5. by apply bool_decide_eq_true. }
    destruct (login_locked now identifier password five a5 Hf5) as [? ?];
      [congruence|done|].
    split_and!; [done..|].
    unfold authenticateAdmin. simpl. rewrite <- Hid5.
    rewrite (findById_found_admin identifier five a5 Hf5 Hnd5).
    rewrite Hact5, Hact, Hlocked. simpl. by eexists.
Qed.

(** X22. A lock ends when its time has come: for a stored, active admin
    whose lock runs until [l], a login before [l] is answered 423 and
    writes nothing; from [l] on a right password is answered 200, and the
    stored account then has no failed attempt, no lock and the time of the
    login as last login; after [l] a wrong password is answered 400 and
    the count of failed attempts restarts at one, without a lock. *)
Theorem lock_expires (identifier password : string) (now l : Date)
    (admins : list Admin.t) (a : Admin.t) :
  NoDup (Admin._id <$> admins) ->
  Admin.findByEmailOrUsername identifier admins = Some a ->
  Admin.isActive a = true ->
  Admin.lockUntil a = Some l ->
  let admins' := exec (login bcrypt_compare now identifier password) admins in
  let st := status <$> answer (login bcrypt_compare now identifier password) admins in
  (now < l -> st = Some 423%nat /\ admins' = admins) /\
  (l <= now -> bcrypt_compare password (Admin.password a) = true ->
   st = Some 200%nat /\
   exists a', Admin.findByEmailOrUsername identifier admins' = Some a' /\
              same_identity a a' /\
              Admin.loginAttempts a' = 0%nat /\ Admin.lockUntil a' = None /\
              Admin.lastLogin a' = Some now) /\
  (l < now -> bcrypt_compare password (Admin.password a) = false ->
   st = Some 400%nat /\
   exists a', Admin.findByEmailOrUsername identifier admins' = Some a' /\
              same_identity a a' /\
              Admin.loginAttempts a' = 1%nat /\ Admin.lockUntil a' = None).
Proof.
  intros Hnd Hf Hact Hlock admins' st. subst admins' st. split_and!.
  - intros Hnow.
    destruct (login_locked now identifier password admins a Hf Hact) as [? ?];
      [|done].
    unfold Admin.isLocked. rewrite Hlock. by apply bool_decide_eq_true.
  - intros Hnow Hpw.
    destruct (login_right now identifier password admins a Hf Hact) as [-> Hres];
      [|done|].
    { unfold Admin.isLocked. rewrite Hlock. apply bool_decide_eq_false. lia. }
    unfold answer. rewrite Hres. split; [done|].
    exists (Admin.resetLoginAttempts now a).
    split_and!; [|apply same_identity_reset|done..].
    apply find_identity with (a := a); [done..|apply same_identity_reset].
  - intros Hnow Hpw.
    destruct (login_wrong now identifier password admins a Hf Hact) as [-> Hres];
      [|done|].
    { unfold Admin.isLocked. rewrite Hlock. apply bool_decide_eq_false. lia. }
    unfold answer. rewrite Hres. split; [done|].
    exists (Admin.incLoginAttempts now a).
    split_and!; [|apply same_identity_inc|..].
    + apply find_identity with (a := a); [done..|apply same_identity_inc].
    + unfold Admin.incLoginAttempts. rewrite Hlock.
      by rewrite bool_decide_eq_true_2.
    + unfold Admin.incLoginAttempts. rewrite Hlock.
      by rewrite bool_decide_eq_true_2.
Qed.


End AdminLogin.

(* ===================================================================== *)
(** * What the REST routes keep *)
(* ===================================================================== *)

Section RestInvariant.

Lemma store_ok_ext (d d' : DB) :
  conversations d' = conversations d -> (nextId d <= nextId d')%nat ->
  store_ok d -> store_ok d'.
Proof.
  intros Hc Hn (Hp & Hf & Hnd & Hu). unfold store_ok, participants_hold, ids_fresh,
    direct_unique, direct_count in *.
  rewrite Hc. split_and!; [done| |done|done].
  eapply Forall_impl; [exact Hf|]. simpl. intros; lia.
Qed.

Lemma count_replace_same {T} `{Model T} q (coll : list T) (c c' : T) :
  NoDup (doc_id <$> coll) -> c ∈ coll -> doc_id c' = doc_id c ->
  selects q c' = selects q c ->
  countDocuments q (replace c' coll) = countDocuments q coll.
Proof.
  intros Hnd Hin Hid Hsel.
  assert (findById (doc_id c') coll = Some c) as Hf.
  { unfold findById. destruct (List.find _ coll) as [x|] eqn:E.
    - apply List.find_some in E as [Hx Hxid]. apply list_elem_of_In in Hx.
      apply Nat.eqb_eq in Hxid. f_equal.
      apply (NoDup_ids_inj coll); [done..|congruence].
    - apply list_elem_of_In in Hin. pose proof (List.find_none _ _ E c Hin) as Hno.
      simpl in Hno. by rewrite Hid, Nat.eqb_refl in Hno. }
  destruct (replace_split c' c coll Hnd Hf) as (l1 & l2 & -> & ->).
  by rewrite !count_app_cons, Hsel.
Qed.

(** A stored conversation is written back with the same kind and with
    the same participants or another number of them. *)
Lemma store_ok_write now (c c' : Conversation.t) (d d' : DB) :
  store_ok d ->
  c ∈ conversations d ->
  Conversation._id c' = Conversation._id c ->
  Conversation.type c' = Conversation.type c ->
  Conversation.participants_ok c' ->
  (Conversation.participants c' = Conversation.participants c \/
   length (Conversation.participants c') <> length (Conversation.participants c)) ->
  conversations d' = upsert (Conversation.set_updatedAt now c') (conversations d) ->
  (nextId d <= nextId d')%nat ->
  store_ok d'.
Proof.
  intros (Hp & Hf & Hnd & Hu) Hin Hid Hty Hsave Hps Hd' Hn.
  set (c'' := Conversation.set_updatedAt now c') in *.
  assert (conversations d' = replace c'' (conversations d)) as Hrep.
  { rewrite Hd'. apply (upsert_stored c'' c); [done|]. simpl. exact Hid. }
  assert (Conversation.participants_ok c'') as Hok'' by exact Hsave.
  unfold store_ok, participants_hold, ids_fresh, direct_unique in *.
  rewrite Forall_forall in Hp, Hf.
  split_and!.
  - rewrite Hd'. apply upsert_Forall; [done|by apply Forall_forall].
  - rewrite Hrep. unfold replace. apply Forall_fmap, Forall_forall.
    intros x Hx. simpl. destruct (Nat.eqb _ _).
    + simpl. rewrite Hid. specialize (Hf c Hin). simpl in Hf. lia.
    + specialize (Hf x Hx). simpl in Hf. lia.
  - rewrite Hrep. exact (eq_ind_r NoDup Hnd (replace_ids (conversations d) c'')).
  - intros a b Hab. rewrite direct_count_query, Hrep.
    rewrite (count_replace_same _ _ c c'');
      [rewrite <- direct_count_query; by apply Hu|done|done|exact Hid|].
    rewrite !direct_selects. simpl. rewrite Hty.
    destruct (String.eqb_spec (Conversation.type c) "direct") as [Hd|]; [|done].
    simpl. destruct Hps as [->|Hlen]; [done|]. exfalso. apply Hlen.
    destruct (Hp c Hin) as [Hc2 _]. destruct Hok'' as [Hc2' _].
    simpl in Hc2'. rewrite Hc2 by done. rewrite Hc2' by congruence. done.
Qed.

Lemma exec_then_ret {S A} (m : M S A) (s : S) : exec (m ;; ret tt) s = exec m s.
Proof. rewrite exec_bind. by destruct (result m s). Qed.

Lemma update_keeps now me id name description :
  preserves store_ok (Conversations.update now me id name description).
Proof.
  intros d Hok. unfold Conversations.update. run_monad.
  destruct (findOne _ (conversations d)) as [c|] eqn:Hc; simpl; [|done].
  pose proof (findOne_member _ _ _ _ Hc) as (Hin & _ & _).
  apply list_elem_of_In in Hin.
  rewrite save_conversation_run.
  destruct (Conversation.save_error _) as [e|] eqn:Hs; simpl; [done|].
  eapply (store_ok_write now c); [done|done| | |exact (save_error_participants_ok _ Hs)| |reflexivity|done].
  - by destruct description, name.
  - by destruct description, name.
  - left. by destruct description, name.
Qed.

Lemma leave_keeps now me id : preserves store_ok (Conversations.leave now me id).
Proof.
  intros d Hok. unfold Conversations.leave. run_monad.
  destruct (findOne _ (conversations d)) as [c|] eqn:Hc; simpl; [|done].
  pose proof (findOne_member _ _ _ _ Hc) as (Hin & _ & Hme).
  apply list_elem_of_In in Hin.
  rewrite save_conversation_run.
  destruct (Conversation.save_error _) as [e|] eqn:Hs; simpl; [done|].
  eapply (store_ok_write now c); [done|done| | |exact (save_error_participants_ok _ Hs)| |reflexivity|done].
  - apply id_removeParticipant.
  - unfold Conversation.removeParticipant. simpl. by destruct (Nat.eqb _ 0).
  - right. rewrite participants_removeParticipant.
    pose proof (others_shorter me _ Hme). lia.
Qed.

Lemma addParticipant_keeps now me id u :
  preserves store_ok (Conversations.addParticipant now me id u).
Proof.
  intros d Hok. unfold Conversations.addParticipant. run_monad.
  destruct (findOne _ (conversations d)) as [c|] eqn:Hc; simpl; [|done].
  pose proof (findOne_member _ _ _ _ Hc) as (Hin & _ & _).
  apply list_elem_of_In in Hin.
  destruct (findById u (users d)); simpl; [|done].
  unfold Conversation.addParticipant. destruct (existsb _ _); simpl; [done|].
  rewrite save_conversation_run.
  destruct (Conversation.save_error _) as [e|] eqn:Hs; simpl; [done|].
  eapply (store_ok_write now c); [done|done| | |exact (save_error_participants_ok _ Hs)| |reflexivity|done];
    [done..|].
  right. simpl. rewrite length_app. simpl. lia.
Qed.


Lemma addMembers_keeps now me id userIds :
  preserves store_ok (GroupMembers.addMembers now me id userIds).
Proof.
  intros d Hok. unfold GroupMembers.addMembers. run_monad.
  destruct (Nat.eqb (length userIds) 0); simpl; [done|].
  destruct (findById id (conversations d)) as [c|] eqn:Hc; simpl; [|done].
  pose proof (findById_In _ _ _ Hc) as Hin. apply list_elem_of_In in Hin.
  destruct (findById _ (users d)); simpl; [|done].
  destruct (_ && _); simpl; [done|].
  destruct (String.eqb_spec (Conversation.type c) "group") as [Hty|]; simpl; [|done].
  destruct (negb (Nat.eqb _ _)); simpl; [done|].
  pose proof (push_new_grows (find (GroupMembers.activeQuery userIds) (users d))
                (Conversation.set_participants (GroupMembers.populated d c) c))
    as Hgrow.
  destruct (GroupMembers.push_new _ _) as [c1 added]. simpl in Hgrow.
  destruct Hgrow as (Hid1 & Hty1 & Hps1).
  pose proof (populated_shorter d c) as Hshort.
  destruct (Nat.ltb_spec 0 (length added)) as [Hadded|]; simpl; [|done].
  rewrite save_pushed_run.
  destruct (Conversation.save_error c1) as [e|] eqn:Hs1; simpl; [done|].
  destruct (save_error_participants_ok c1 Hs1) as [_ Hgroup].
  specialize (Hgroup (eq_trans Hty1 Hty)).
  rewrite Hps1, length_app, length_fmap in Hgroup.
  set (written := Conversation.set_participants
                    (Conversation.participants c ++ (User._id <$> added)) c).
  assert (Conversation.participants_ok written) as Hwritten.
  { split; simpl; intros Hw; [congruence|].
    rewrite length_app, length_fmap. lia. }
  set (c1' := Conversation.set_updatedAt now written).
  set (d1 := set_conversations (upsert c1' (conversations d)) d).
  assert (store_ok d1) as Hok1.
  { eapply (store_ok_write now c written); [done..| |reflexivity|done].
    right. simpl. rewrite length_app, length_fmap. lia. }
  assert (c1' ∈ conversations d1) as Hin1.
  { subst d1. simpl. rewrite (upsert_stored c1' c); [|done|by simpl].
    apply elem_of_replace_self with (x := c); [done|by simpl]. }
  rewrite save_message_run.
  destruct (Message.validate _) as [e|] eqn:Hv; simpl.
  { eapply store_ok_ext; [| |exact Hok1]; simpl; [done|lia]. }
  rewrite save_pushed_run.
  destruct (Conversation.save_error _) as [e|] eqn:Hs2; simpl.
  { eapply store_ok_ext; [| |exact Hok1]; simpl; [done|lia]. }
  eapply (store_ok_write now c1' _ d1); cycle 6;
    [reflexivity|simpl; lia|exact Hok1|exact Hin1|done|done|exact Hwritten|by left].
Qed.

Lemma removeMember_keeps now me id u :
  preserves store_ok (GroupMembers.removeMember now me id u).
Proof.
  intros d Hok. unfold GroupMembers.removeMember. run_monad.
  destruct (findById id (conversations d)) as [c|] eqn:Hc; simpl; [|done].
  pose proof (findById_In _ _ _ Hc) as Hin. apply list_elem_of_In in Hin.
  destruct (negb (String.eqb _ _)); simpl; [done|].
  destruct (findById _ (users d)); simpl; [|done].
  destruct (_ && _); simpl; [done|].
  destruct (findById u (users d)); simpl; [|done].
  destruct (existsb (Nat.eqb u) (GroupMembers.populated d c)) eqn:Hmem; simpl;
    [|done].
  rewrite existsb_eqb_elem_of in Hmem. apply bool_decide_eq_true in Hmem.
  pose proof (populated_shorter d c) as Hshort.
  set (c0 := Conversation.set_participants (GroupMembers.populated d c) c) in *.
  rewrite save_conversation_run.
  destruct (Conversation.save_error _) as [e|] eqn:Hs1; simpl; [done|].
  set (c1 := Conversation.removeParticipant u c0) in *.
  set (c1' := Conversation.set_updatedAt now c1).
  set (d1 := set_conversations (upsert c1' (conversations d)) d).
  assert (Conversation._id c1 = Conversation._id c) as Hid1
    by apply (id_removeParticipant u c0).
  assert (store_ok d1) as Hok1.
  { eapply (store_ok_write now c c1);
      [done|done|done| |exact (save_error_participants_ok _ Hs1)| |reflexivity|done].
    - subst c1. unfold Conversation.removeParticipant. simpl.
      by destruct (Nat.eqb _ 0).
    - right. subst c1. rewrite participants_removeParticipant.
      pose proof (others_shorter u _ Hmem). subst c0. simpl in *. lia. }
  assert (c1' ∈ conversations d1) as Hin1.
  { subst d1. simpl. rewrite (upsert_stored c1' c); [|done|by simpl].
    apply elem_of_replace_self with (x := c); [done|by simpl]. }
  rewrite save_message_run.
  destruct (Message.validate _) as [e|] eqn:Hv; simpl.
  { eapply store_ok_ext; [| |exact Hok1]; simpl; [done|lia]. }
  rewrite save_conversation_run.
  destruct (Conversation.save_error _) as [e|] eqn:Hs2; simpl.
  { eapply store_ok_ext; [| |exact Hok1]; simpl; [done|lia]. }
  eapply (store_ok_write now c1' _ d1); cycle 6;
    [reflexivity|simpl; lia|exact Hok1|exact Hin1|done|done|
     exact (save_error_participants_ok _ Hs2)|by left].
Qed.

Lemma send_keeps now me c content ty reply :
  preserves store_ok (Messages.send now me c content ty reply).
Proof.
  intros d Hok. unfold Messages.send.
  destruct (Validation.validateMessage content ty); [|done].
  unfold fresh. run_monad.
  destruct (findOne _ (conversations d)) as [conv|] eqn:Hc; simpl; [|done].
  pose proof (findOne_member _ _ _ _ Hc) as (Hin & _ & _).
  apply list_elem_of_In in Hin.
  rewrite save_message_run.
  destruct (Message.validate _) as [e|] eqn:Hv; simpl.
  { eapply store_ok_ext; [| |exact Hok]; simpl; [done|lia]. }
  rewrite save_conversation_run.
  destruct (Conversation.save_error _) as [e|] eqn:Hs; simpl.
  { eapply store_ok_ext; [| |exact Hok]; simpl; [done|lia]. }
  eapply (store_ok_write now conv _ (set_nextId (S (nextId d)) d)); cycle 6;
    [reflexivity|simpl; lia| |exact Hin|done|done|exact (save_error_participants_ok _ Hs)|by left].
  eapply store_ok_ext; [| |exact Hok]; simpl; [done|lia].
Qed.

Lemma edit_keeps now me id content :
  preserves store_ok (Messages.edit now me id content).
Proof.
  intros d Hok. unfold Messages.edit. run_monad.
  destruct content as [content|]; simpl; [|done].
  destruct (_ || _); simpl; [done|].
  destruct (findOne _ (messages d)); simpl; [|done].
  destruct (bool_decide _); simpl; [done|].
  rewrite save_message_run. destruct (Message.validate _); simpl; [done|].
  by eapply store_ok_ext; [| |exact Hok].
Qed.

Lemma delete_keeps now me id : preserves store_ok (Messages.delete now me id).
Proof.
  intros d Hok. unfold Messages.delete. run_monad.
  destruct (findOne _ (messages d)); simpl; [|done].
  rewrite save_message_run. destruct (Message.validate _); simpl; [done|].
  by eapply store_ok_ext; [| |exact Hok].
Qed.

Lemma read_keeps now me id : preserves store_ok (Messages.read now me id).
Proof.
  intros d Hok. unfold Messages.read, Messages.markAsRead. run_monad.
  destruct (findById id (messages d)); simpl; [|done].
  destruct (findOne _ (conversations d)); simpl; [|done].
  destruct (Message.markAsRead now me _); simpl; [|done].
  destruct (Message.validate _); simpl; [done|].
  by eapply store_ok_ext; [| |exact Hok].
Qed.

Lemma create_keeps_distinct now me participants type name description :
  preserves (fun d => ids_fresh d /\ NoDup (Conversation._id <$> conversations d))
            (Conversations.create now me participants type name description).
Proof.
  intros d [Hf Hnd]. unfold Conversations.create.
  destruct (negb _); [done|]. unfold fresh. run_monad.
  match goal with
  | |- context [let (_, _) := ?pre d in _] =>
      assert (exists ex, pre d = (d, inr ex)) as [[existing|] ->]
  end.
  { destruct (Conversations.new_Set _) as [|p0 [|p1 [|p2 rest]]]; try (by eexists).
    destruct (String.eqb _ "direct"); by eexists. }
  { done. }
  simpl. destruct (negb _); simpl; [done|].
  assert (ids_fresh (set_nextId (S (nextId d)) d)) as Hf'.
  { unfold ids_fresh in *. simpl. eapply Forall_impl; [exact Hf|]. simpl.
    intros; lia. }
  rewrite save_conversation_run.
  destruct (Conversation.save_error _) as [e|]; simpl; [done|].
  rewrite upsert_new.
  2:{ eapply Forall_impl; [exact Hf|]. simpl. intros; lia. }
  split.
  - unfold ids_fresh in *. simpl. apply Forall_app. split; [done|].
    constructor; [simpl; lia|done].
  - rewrite fmap_app. apply NoDup_app. split_and!; [done| |apply NoDup_singleton].
    intros i Hi Hi'. apply list_elem_of_singleton in Hi'. subst i.
    apply list_elem_of_fmap in Hi as (x & Hx & Hin).
    unfold ids_fresh in Hf. rewrite Forall_forall in Hf. specialize (Hf x Hin).
    simpl in *. lia.
Qed.

Lemma create_keeps now me participants type name description :
  preserves store_ok
            (Conversations.create now me participants type name description).
Proof.
  intros d (Hp & Hf & Hnd & Hu). split_and!.
  - by apply create_holds.
  - by apply (create_keeps_direct_unique now me participants type name description d).
  - by apply (create_keeps_distinct now me participants type name description d).
  - by apply (create_keeps_direct_unique now me participants type name description d).
Qed.

Lemma handle_keeps now call : preserves store_ok (Rest.handle now call).
Proof.
  intros d Hok. destruct call; cbn [Rest.handle]; rewrite exec_then_ret.
  - by apply create_keeps.
  - by apply update_keeps.
  - by apply leave_keeps.
  - by apply addParticipant_keeps.
  - by apply addMembers_keeps.
  - by apply removeMember_keeps.
  - by apply send_keeps.
  - by apply edit_keeps.
  - by apply delete_keeps.
  - by apply read_keeps.
Qed.

(** X24. The REST routes keep the conversations in shape: start from a
    store in which every conversation meets the participant constraint,
    conversation ids are distinct and below the next id, and no two users
    share two direct conversations. After any sequence of calls that
    create, rename or leave a conversation, add a participant, add or
    remove group members, or send, edit, delete or read a message, by any
    callers and with any arguments, the store is in that shape again. *)
Theorem rest_keeps_store_ok (calls : list (Date * Rest.Call)) (d : DB) :
  store_ok d -> store_ok (exec (Rest.run calls) d).
Proof.
  revert d. induction calls as [|[now call] rest IH]; intros d Hok; [done|].
  cbn [Rest.run]. rewrite exec_bind.
  pose proof (handle_keeps now call d Hok) as Hok'.
  destruct (result (Rest.handle now call) d); [done|by apply IH].
Qed.

End RestInvariant.

(* ===================================================================== *)
(** * The unified login *)
(* ===================================================================== *)

Section UnifiedLogin.
Variable bcrypt_compare : string -> string -> bool.
Variable generateToken : ObjectId -> AdminAuth.Payload.




End UnifiedLogin.

(* ===================================================================== *)
(** * The properties on the sample data *)
(* ===================================================================== *)

Section OnSamplesAgain.
Import Gateway.
Import AdminAuth.

(** Decide a closed proposition by evaluation. *)
Ltac decide_by_eval := apply (bool_decide_unpack _); vm_compute; exact I.

Lemma pages_cover_listing_witness :
  let coll := messages Sample.store0 in
  StronglySorted newer_first (pages 10 2 2 coll) /\
  pages 10 2 2 coll ≡ₚ filter (live 10) coll.
Proof.
  destruct (pages_cover_listing 10 2 2 (messages Sample.store0))
    as (Hs & _ & _ & Hp & _).
  - lia.
  - split; [exact Hs|]. apply Hp. vm_compute. lia.
Defined.

Lemma only_sender_edits_or_deletes_witness :
  let d := Sample.store0 in
  exec (Messages.edit 5000 2 20 (Some "mine")) d = d /\
  (status <$> answer (Messages.edit 5000 2 20 (Some "mine")) d = Some 400%nat \/
   status <$> answer (Messages.edit 5000 2 20 (Some "mine")) d = Some 404%nat) /\
  exec (Messages.delete 5000 2 20) d = d /\
  status <$> answer (Messages.delete 5000 2 20) d = Some 404%nat.
Proof.
  apply (only_sender_edits_or_deletes Sample.store0 5000 2 20 (Some "mine")).
  intros m Hin Hid. apply list_elem_of_In in Hin. simpl in Hin.
  destruct Hin as [<-|[<-|[<-|[]]]]; simpl in *; discriminate.
Defined.

Lemma delete_cannot_be_repeated_witness :
  let d1 := exec (Messages.delete 3000 2 21) Sample.store0 in
  exec (Messages.delete 4000 2 21) d1 = d1 /\
  status <$> answer (Messages.delete 4000 2 21) d1 = Some 404%nat /\
  exec (Messages.edit 4000 2 21 (Some "again")) d1 = d1 /\
  (status <$> answer (Messages.edit 4000 2 21 (Some "again")) d1 = Some 400%nat \/
   status <$> answer (Messages.edit 4000 2 21 (Some "again")) d1 = Some 404%nat).
Proof.
  apply (delete_cannot_be_repeated Sample.store0 3000 4000 2 21 (Some "again")).
  reflexivity.
Defined.

Lemma read_lowers_unread_count_witness :
  let d := Sample.store0 in
  let d' := exec (Messages.read 5000 2 20) d in
  status <$> answer (Messages.read 5000 2 20) d = Some 200%nat /\
  (Message.getUnreadCount 10 2 (messages d') + 1)%nat
  = Message.getUnreadCount 10 2 (messages d) /\
  (forall c' u, (c', u) <> (10%nat, 2%nat) ->
     Message.getUnreadCount c' u (messages d')
     = Message.getUnreadCount c' u (messages d)).
Proof.
  apply (read_lowers_unread_count Sample.store0 5000 2 20 10 Sample.m20).
  - vm_compute. decide_by_eval.
  - reflexivity.
  - reflexivity.
  - decide_by_eval.
  - vm_compute. by eexists.
Defined.

Lemma rest_and_socket_send_agree_witness :
  let w := Sample.in_rooms in
  let w' := exec (send_message 5000 Sample.sa_open 10 "hello" None None) w in
  let rest := Messages.send 5000 1 10 (Some "hello") None None in
  db w' = exec rest (db w) /\
  (forall doc,
     event <$> emitted_since w w' = [new_message doc] <->
     exists r, answer rest (db w) = Some r /\ status r = 201%nat /\
               data r = Some doc).
Proof.
  apply (rest_and_socket_send_agree Sample.in_rooms 5000 Sample.sa_open 10 "hello"
           None None).
  vm_compute. by eexists.
Defined.

Lemma send_raises_unread_of_others_witness :
  let d := Sample.store0 in
  let d' := exec (Messages.send 5000 1 10 (Some "hello") None None) d in
  (forall u, u <> 1%nat ->
     Message.getUnreadCount 10 u (messages d')
     = S (Message.getUnreadCount 10 u (messages d))) /\
  Message.getUnreadCount 10 1 (messages d')
  = Message.getUnreadCount 10 1 (messages d) /\
  (forall c' u, c' <> 10%nat ->
     Message.getUnreadCount c' u (messages d')
     = Message.getUnreadCount c' u (messages d)).
Proof.
  apply (send_raises_unread_of_others Sample.store0 5000 1 10 (Some "hello") None None).
  - vm_compute. repeat constructor; discriminate.
  - reflexivity.
Defined.

Lemma leave_pair_is_refused_witness :
  let d := Sample.store0 in
  exec (Conversations.leave 5000 1 10) d = d /\
  status <$> answer (Conversations.leave 5000 1 10) d = Some 500%nat.
Proof.
  apply (leave_pair_is_refused Sample.store0 5000 1 10 Sample.direct_ab).
  - reflexivity.
  - simpl. lia.
Defined.

Lemma leave_removes_caller_witness :
  let d := Sample.store0 in
  let d' := exec (Conversations.leave 5000 3 11) d in
  status <$> answer (Conversations.leave 5000 3 11) d = Some 200%nat /\
  (forall u, participant 11 u d' <-> u <> 3%nat /\ u ∈ [1; 2; 3]%nat) /\
  users d' = users d /\ messages d' = messages d.
Proof.
  apply (leave_removes_caller Sample.store0 5000 3 11 Sample.group_abc).
  - reflexivity.
  - reflexivity.
  - reflexivity.
  - simpl. lia.
Defined.

Lemma create_stores_caller_and_users_witness :
  let d := Sample.store0 in
  let d' := exec (Conversations.create 5000 1 [2; 3]%nat (Some "group") (Some "trio")
                    None) d in
  exists c,
    findById (Conversation._id c) (conversations d') = Some c /\
    Conversation.createdBy c = 1%nat /\
    (forall p, p ∈ Conversation.participants c <-> p = 1%nat \/ p ∈ [2; 3]%nat) /\
    NoDup (Conversation.participants c) /\
    Conversation.participants_ok c.
Proof.
  edestruct (create_stores_caller_and_users Sample.store0 5000 1 [2; 3]%nat
               (Some "group") (Some "trio") None)
    as (c & _ & Hf & Hby & Hps & Hnd & _ & Hok).
  - vm_compute. decide_by_eval.
  - vm_compute. reflexivity.
  - reflexivity.
  - exists c. split_and!; assumption.
Defined.

Lemma update_changes_only_text_witness :
  let d := Sample.store0 in
  let d' := exec (Conversations.update 5000 1 11 (Some (Some "crew")) None) d in
  users d' = users d /\ messages d' = messages d /\
  Forall2 same_but_text (conversations d) (conversations d').
Proof.
  destruct (update_changes_only_text Sample.store0 5000 1 11 (Some (Some "crew")) None)
    as (Hu & Hm & _ & Hc & _).
  - vm_compute. decide_by_eval.
  - split_and!; assumption.
Defined.

Lemma addMembers_adds_each_witness :
  let d := Sample.store_with_dave in
  let d' := exec (GroupMembers.addMembers 5000 2 11 [4; 3]%nat) d in
  data <$> answer (GroupMembers.addMembers 5000 2 11 [4; 3]%nat) d = Some (Some 1%nat) /\
  forall u, u ∈ [1; 2; 3; 4]%nat -> participant 11 u d'.
Proof.
  edestruct (addMembers_adds_each Sample.store_with_dave 5000 2 11 [4; 3]%nat)
    as (c & Hc & _ & _ & _ & Hp & _).
  - vm_compute. decide_by_eval.
  - vm_compute. reflexivity.
  - reflexivity.
  - split; [reflexivity|]. intros u Hu. apply Hp.
    injection Hc as <-. simpl.
    apply list_elem_of_In in Hu. simpl in Hu.
    destruct Hu as [<-|[<-|[<-|[<-|[]]]]];
      rewrite !list_elem_of_In; simpl; tauto.
Defined.

Lemma orphaned_group_cannot_be_managed_witness :
  let d := db Sample.after_deleteUser in
  exec (GroupMembers.addMembers 5000 2 11 [3%nat]) d = d /\
  status <$> answer (GroupMembers.addMembers 5000 2 11 [3%nat]) d = Some 500%nat /\
  exec (GroupMembers.removeMember 5000 3 11 3) d = d /\
  status <$> answer (GroupMembers.removeMember 5000 3 11 3) d = Some 500%nat.
Proof.
  eapply (orphaned_group_cannot_be_managed (db Sample.after_deleteUser) 5000 2 11 3
            [3%nat]).
  - vm_compute. reflexivity.
  - reflexivity.
  - reflexivity.
  - discriminate.
Defined.

Lemma removeMember_removes_one_witness :
  let d := Sample.store0 in
  let d' := exec (GroupMembers.removeMember 5000 1 11 3) d in
  (forall u, participant 11 u d' <->
             u <> 3%nat /\ u ∈ [1; 2; 3]%nat /\ is_Some (findById u (users d))) /\
  exists m, findById 100%nat (messages d') = Some m /\
            Message.type m = "system" /\ Message.sender m = 1%nat.
Proof.
  edestruct (removeMember_removes_one Sample.store0 5000 1 11 3)
    as (c & c' & m & Hc & _ & _ & _ & Hp & _ & _ & _ & Hm & Hty & Hs & _).
  - vm_compute. reflexivity.
  - reflexivity.
  - injection Hc as <-. split; [exact Hp|]. exists m. split_and!; assumption.
Defined.

Lemma connect_goes_online_witness :
  let w' := exec (handleConnection 4000 Sample.sa) Sample.world0 in
  isUserOnline 1 w' = true /\
  socketId <$> lookup_connection 1 w' = Some "sa" /\
  (exists account',
      findById 1%nat (users (db w')) = Some account' /\
      User.isOnline account' = true /\
      User.socketId account' = Some "sa") /\
  presence_ok (db w').
Proof.
  destruct (connect_goes_online Sample.world0 4000 Sample.sa Sample.alice)
    as (Hon & Hreg & _ & _ & (account' & Hf & Ho & Hs & _) & _ & Hp).
  - reflexivity.
  - split_and!; [exact Hon|exact Hreg| |].
    + exists account'. split_and!; assumption.
    + apply Hp. vm_compute. repeat constructor; by intros [? [=]].
Defined.

Lemma second_connection_looks_offline_witness :
  let tablet := mkSocket "sa2" 1 Sample.alice in
  let w' := exec (handleConnection 4000 Sample.sa ;;
                  handleConnection 4100 tablet ;;
                  deliver 4200 "sa" Disconnect) Sample.world0 in
  is_Some (sockets w' !! "sa2") /\
  isUserOnline 1 w' = false /\
  exists account',
    findById 1%nat (users (db w')) = Some account' /\
    User.isOnline account' = false.
Proof.
  destruct (second_connection_looks_offline Sample.world0 4000 4100 4200 Sample.sa
              (mkSocket "sa2" 1 Sample.alice) Sample.alice)
    as (Hopen & _ & Hoff & _ & account' & Hf & Ho & _).
  - reflexivity.
  - discriminate.
  - reflexivity.
  - split_and!; [exact Hopen|exact Hoff|]. exists account'. by split.
Defined.

Lemma mark_messages_read_marks_listed_witness :
  let w := Sample.in_rooms in
  let w' := exec (mark_messages_read 5000 Sample.sb_open 10 [20; 22]%nat) w in
  (exists m', findById 20%nat (messages (db w')) = Some m' /\
              Message.isReadBy m' 2 = true) /\
  emitted w' = emitted w ++
    [mkEmit (members (conversation_ 10) w ∖ {[ "sb" ]})
            (messages_read 2 10 [20; 22]%nat)].
Proof.
  destruct (mark_messages_read_marks_listed Sample.in_rooms 5000 Sample.sb_open 10
              [20; 22]%nat) as (Hm & He).
  - vm_compute. by eexists.
  - vm_compute. repeat constructor.
  - split; [|exact He].
    destruct (Hm 20%nat Sample.m20) as (m' & Hf & _ & _ & Hr);
      [vm_compute; reflexivity|].
    exists m'. split; [exact Hf|]. apply Hr. by left.
Defined.

Lemma five_failures_lock_witness :
  let tries := [(1000, "a"); (2000, "b"); (3000, "c"); (4000, "d")] in
  let four := exec (logins Sample.compare "root" tries) [Sample.root] in
  let five := exec (logins Sample.compare "root" (tries ++ [(5000, "e")]))
                   [Sample.root] in
  status <$> answer (login Sample.compare 4500 "root" "root") four = Some 200%nat /\
  status <$> answer (login Sample.compare 6000 "root" "root") five = Some 423%nat.
Proof.
  destruct (five_failures_lock Sample.compare "root"
              [(1000, "a"); (2000, "b"); (3000, "c"); (4000, "d")] 5000 "e"
              [Sample.root] Sample.root) as (Hfour & Hfive).
  - vm_compute. decide_by_eval.
  - reflexivity.
  - reflexivity.
  - reflexivity.
  - reflexivity.
  - reflexivity.
  - repeat constructor.
  - split.
    + apply Hfour. reflexivity.
    + apply (Hfive 6000 "root"). vm_compute. reflexivity.
Defined.

Lemma lock_expires_witness :
  let admins := [Sample.root_locked] in
  status <$> answer (login Sample.compare 8000 "root" "root") admins = Some 423%nat /\
  status <$> answer (login Sample.compare 9000 "root" "root") admins = Some 200%nat /\
  status <$> answer (login Sample.compare 9001 "root" "wrong") admins = Some 400%nat.
Proof.
  split_and!.
  - apply (lock_expires Sample.compare "root" "root" 8000 9000 [Sample.root_locked]
             Sample.root_locked); [vm_compute; decide_by_eval|reflexivity..|lia].
  - apply (lock_expires Sample.compare "root" "root" 9000 9000 [Sample.root_locked]
             Sample.root_locked); [vm_compute; decide_by_eval|reflexivity..|lia|reflexivity].
  - apply (lock_expires Sample.compare "root" "wrong" 9001 9000 [Sample.root_locked]
             Sample.root_locked); [vm_compute; decide_by_eval|reflexivity..|lia|reflexivity].
Defined.


Lemma sample_store_ok : store_ok Sample.store0.
Proof.
  split_and!.
  - unfold participants_hold. simpl.
    repeat constructor; simpl; intros; (done || lia).
  - unfold ids_fresh. simpl. repeat constructor; simpl; lia.
  - vm_compute. decide_by_eval.
  - intros a b _. unfold direct_count.
    change (conversations Sample.store0) with [Sample.direct_ab; Sample.group_abc].
    rewrite !filter_cons, filter_nil.
    rewrite (decide_False (P := direct_of a b Sample.group_abc))
      by (by intros [? _]).
    destruct (decide _); simpl; lia.
Defined.

Lemma rest_keeps_store_ok_witness :
  store_ok (exec (Rest.run
    [ (5000, Rest.PostConversation 1 [3%nat] (Some "direct") None None);
      (5100, Rest.PostMessage 3 100 (Some "hello") None None);
      (5200, Rest.DeleteConversation 3 11);
      (5300, Rest.PostRead 1 101) ]) Sample.store0).
Proof. apply rest_keeps_store_ok. exact sample_store_ok. Defined.

End OnSamplesAgain.
